(** * cf-utils: the stack reconciler, its pollers and the bucket-emptying routine

  A shallow embedding of the CloudFormation and S3 helpers of cf-utils,
  with the command-line reducer of config.js, the batching helper of
  glue.js and the log-group sweeper of cloudWatch.js.
  Promises are modelled by their final outcome, the AWS SDK, the file
  system, the reviewer prompt and the aws CLI by an abstract provider
  (a state machine answering each request), and every request, log line
  and timer is recorded in a chronological trace.  Unbounded recursion
  (polling, the upload-then-recurse step of upsertStack) is bounded by a
  fuel argument; [OutOfFuel] is kept apart from a promise that the code
  itself never settles ([Unsettled]). *)

From Stdlib Require Import String Ascii List ZArith Lia Bool DecimalString.
From Stdlib Require DecimalZ DecimalPos DecimalFacts.
Import ListNotations.
Open Scope string_scope.

(** ** JavaScript primitives used by the sources

    A string stands for the UTF-8 bytes of the JavaScript string.  The
    patterns that the sources search for are plain ASCII, so a search
    succeeds, fails, or succeeds at index 0 on the bytes exactly when it does
    on the string; only these three cases are ever tested. *)

Module Js.

(** [s.indexOf(pat)]: position of the first occurrence, [-1] if none. *)
Definition indexOf (s pat : string) : Z :=
  match String.index 0 pat s with
  | Some i => Z.of_nat i
  | None => (-1)%Z
  end.

(** [s.indexOf(pat) >= 0] *)
Definition includes (s pat : string) : bool := (0 <=? indexOf s pat)%Z.

(** Truthiness of a number, as in [if (s.indexOf(pat))]. *)
Definition truthyNum (z : Z) : bool := negb (z =? 0)%Z.

(** Truthiness of a value that is a string or [undefined]. *)
Definition truthyStr (s : option string) : bool :=
  match s with
  | Some s => negb (s =? "")
  | None => false
  end.

(** A string-or-undefined value inside a template literal. *)
Definition interpolate (s : option string) : string :=
  match s with
  | Some s => s
  | None => "undefined"
  end.

(** [x | 0] on an integral number: ToInt32. *)
Definition toInt32 (z : Z) : Z := ((z + 2 ^ 31) mod 2 ^ 32 - 2 ^ 31)%Z.

(** Decimal rendering of an integer, as string concatenation does. *)
Definition numToString (z : Z) : string := NilZero.string_of_int (Z.to_int z).

(** Error objects: [name] and [message]. *)
Record error := { name : string; message : string }.

(** [new Error(msg)] *)
Definition Error (msg : string) : error := {| name := "Error"; message := msg |}.

(** [Error.prototype.toString] *)
Definition toString (e : error) : string :=
  if name e =? "" then message e
  else if message e =? "" then name e
  else name e ++ ": " ++ message e.

(** What a promise is rejected with: an error object or a bare string. *)
Inductive reason :=
| RError (e : error)
| RString (s : string).

(** Final state of a promise (or of the call that should have returned it). *)
Inductive outcome (A : Type) :=
| Resolved (a : A)
| Rejected (r : reason)
| Thrown (e : error)      (* the call threw synchronously *)
| Unsettled               (* neither resolve nor reject is ever called *)
| OutOfFuel.              (* the model ran out of fuel *)

Arguments Resolved {A} a.
Arguments Rejected {A} r.
Arguments Thrown {A} e.
Arguments Unsettled {A}.
Arguments OutOfFuel {A}.

(** The character class [\s]: the white space and line terminators of
    ECMAScript.  Those of one byte are the space and U+0009 to U+000D. *)
Definition isSpace (c : ascii) : bool :=
  let n := nat_of_ascii c in
  (n =? 32)%nat || ((9 <=? n)%nat && (n <=? 13)%nat).

(** Of two bytes: U+00A0 (C2 A0). *)
Definition isSpace2 (c d : ascii) : bool :=
  (nat_of_ascii c =? 194)%nat && (nat_of_ascii d =? 160)%nat.

(** Of three bytes: U+1680 (E1 9A 80), U+2000 to U+200A (E2 80 80 to
    E2 80 8A), U+2028 and U+2029 (E2 80 A8, E2 80 A9), U+202F (E2 80 AF),
    U+205F (E2 81 9F), U+3000 (E3 80 80) and U+FEFF (EF BB BF). *)
Definition isSpace3 (c d e : ascii) : bool :=
  let c := nat_of_ascii c in
  let d := nat_of_ascii d in
  let e := nat_of_ascii e in
  ((c =? 225) && (d =? 154) && (e =? 128))%nat
  || ((c =? 226) && (d =? 128)
      && (((128 <=? e) && (e <=? 138)) || (e =? 168) || (e =? 169) || (e =? 175)))%nat
  || ((c =? 226) && (d =? 129) && (e =? 159))%nat
  || ((c =? 227) && (d =? 128) && (e =? 128))%nat
  || ((c =? 239) && (d =? 187) && (e =? 191))%nat.

(** [\s*] at the start of [s]: every leading white-space character is
    dropped, whatever its width. *)
Fixpoint dropSpaces (s : string) : string :=
  match s with
  | String c r =>
      if isSpace c then dropSpaces r
      else
        match r with
        | String d r2 =>
            if isSpace2 c d then dropSpaces r2
            else
              match r2 with
              | String e r3 => if isSpace3 c d e then dropSpaces r3 else s
              | EmptyString => s
              end
        | EmptyString => s
        end
  | EmptyString => s
  end.

(** The double quote character. *)
Definition dquote : ascii := ascii_of_nat 34.

Definition dropQuote (s : string) : string :=
  match s with
  | String c r => if (c =? dquote)%char then r else s
  | EmptyString => s
  end.

Fixpoint stripPrefix (p s : string) : option string :=
  match p, s with
  | EmptyString, _ => Some s
  | String a p', String b s' => if (a =? b)%char then stripPrefix p' s' else None
  | String _ _, EmptyString => None
  end.

(** [s.endsWith(suffix)] *)
Definition endsWith (s suffix : string) : bool :=
  let n := String.length s in
  let m := String.length suffix in
  (m <=? n)%nat && (substring (n - m) m s =? suffix).

End Js.

Import Js.

(** ** Data exchanged with the provider *)

Record output := { OutputKey : string; OutputValue : string }.

Record stack := {
  stk_StackName : string;
  StackStatus : string;
  Outputs : list output
}.

(** The [data] of describeStacks. *)
Record describeStacksOutput := { Stacks : list stack }.

(** The [cs] of describeChangeSet. *)
Record changeSet := {
  cs_StackName : string;
  cs_ChangeSetName : string;
  Status : string;
  StatusReason : option string
}.

Record parameter := { ParameterKey : string; ParameterValue : string }.

(** The [params] objects handed to the CloudFormation client; a field that the
  object does not have is [None]. *)
Record params := {
  StackName : string;
  Capabilities : option (list string);
  Parameters : option (list parameter);
  TemplateURL : option string;
  TemplateBody : option string;
  DisableRollback : option bool;
  ChangeSetName : option string;
  ChangeSetType : option string
}.

(** [{StackName: name}] *)
Definition stackNameParams (name : string) : params :=
  {| StackName := name; Capabilities := None; Parameters := None;
   TemplateURL := None; TemplateBody := None; DisableRollback := None;
   ChangeSetName := None; ChangeSetType := None |}.

(** [{StackName: name, ChangeSetName: csName}] *)
Definition changeSetParams (name csName : string) : params :=
  {| StackName := name; Capabilities := None; Parameters := None;
   TemplateURL := None; TemplateBody := None; DisableRollback := None;
   ChangeSetName := Some csName; ChangeSetType := None |}.

(** [Object.assign({}, p, {ChangeSetName: csName, ChangeSetType: csType})];
  [csType = None] leaves the type of [p]. *)
Definition withChangeSet (p : params) (csName : string) (csType : option string) : params :=
  {| StackName := StackName p; Capabilities := Capabilities p; Parameters := Parameters p;
   TemplateURL := TemplateURL p; TemplateBody := TemplateBody p;
   DisableRollback := DisableRollback p;
   ChangeSetName := Some csName;
   ChangeSetType := match csType with Some t => Some t | None => ChangeSetType p end |}.

Definition setDisableRollback (p : params) (v : option bool) : params :=
  {| StackName := StackName p; Capabilities := Capabilities p; Parameters := Parameters p;
   TemplateURL := TemplateURL p; TemplateBody := TemplateBody p;
   DisableRollback := v;
   ChangeSetName := ChangeSetName p; ChangeSetType := ChangeSetType p |}.

(** S3 *)
Record s3Object := { obj_Key : string }.
Record objectVersion := { ver_Key : string; ver_VersionId : string }.

(** An entry of [Delete.Objects]: [{Key}] or [{Key, VersionId}]. *)
Record objectId := { Key : string; VersionId : option string }.

Record listObjectsOutput := {
  Contents : list s3Object;
  NextContinuationToken : option string
}.

Record listVersionsOutput := {
  Versions : list objectVersion;
  NextVersionIdMarker : option string
}.

Record versioningOutput := { ver_Status : option string }.

Record uploadOutput := { Location : string }.

(** The params of an upload.  [up_Body] is the path of the file that is
    streamed ([fs.createReadStream(path)]), not its content. *)
Record uploadParams := { up_Bucket : string; up_Key : string; up_Body : string }.

(** Output of the spawned CLI: chunks in arrival order, then the exit code
  ([None] for [null], a process ended by a signal). *)
Inductive chunk := Stdout (data : string) | Stderr (data : string).
Record processResult := { chunks : list chunk; exitCode : option Z }.

(** ** Requests, replies and the trace *)

Inductive call :=
| CfDescribeStacks (name : string)
| CfCreateStack (p : params)
| CfUpdateStack (p : params)
| CfDeleteStack (p : params)
| CfCreateChangeSet (p : params)
| CfDescribeChangeSet (csName : option string) (name : string)
| CfExecuteChangeSet (p : params)
| CfDeleteChangeSet (p : params)
| S3Upload (p : uploadParams)
| S3ListObjectsV2 (bucket : string) (token : option string)
| S3ListObjectVersions (bucket : string) (prefix : objectId) (maxKeys : Z) (marker : option string)
| S3DeleteObjects (bucket : string) (objects : list objectId)
| S3GetBucketVersioning (bucket : string)
| InquirerPrompt
| SpawnAws (args : list string).

(** What the callback of each request receives: [err] alone, or [err] or
  [data]. *)
Definition response (c : call) : Type :=
match c with
| CfDescribeStacks _ => (error + describeStacksOutput)%type
| CfDescribeChangeSet _ _ => (error + changeSet)%type
| CfCreateStack _ | CfUpdateStack _ | CfDeleteStack _
| CfCreateChangeSet _ | CfExecuteChangeSet _ | CfDeleteChangeSet _ => option error
| S3Upload _ => (error + uploadOutput)%type
| S3ListObjectsV2 _ _ => (error + listObjectsOutput)%type
| S3ListObjectVersions _ _ _ _ => (error + listVersionsOutput)%type
| S3DeleteObjects _ _ => option error
| S3GetBucketVersioning _ => (error + versioningOutput)%type
| InquirerPrompt => bool
| SpawnAws _ => processResult
end.

Inductive logArg :=
| LStr (s : string)
| LStackDetails (d : describeStacksOutput)
| LChangeSet (c : changeSet).

Inductive event :=
| Call (c : call)
| LogInfo (args : list logArg)
| LogWarn (args : list logArg)
| ConsoleLog (s : string)
| SetTimeout (ms : Z).

(** [config]: the session settings the helpers read. *)
Record config := { AWS_PROFILE : string; AWS_REGION : string }.

(** The outside world: the SDK clients, the prompt and the CLI answer
  requests and move to a new state; the file system and the clock are
  observed. *)
Record Provider (St : Type) := {
  handle : forall c : call, St -> response c * St;
  readFile : St -> string -> option string;
  now : St -> Z
}.

Arguments handle {St} _ c _.
Arguments readFile {St} _ _ _.
Arguments now {St} _ _.

Record world (St : Type) := { env : St; trace : list event }.
Arguments env {St} _.
Arguments trace {St} _.

Section Effects.
Context {St : Type} (P : Provider St).

Definition emit (e : event) (w : world St) : world St :=
  {| env := env w; trace := trace w ++ [e] |}.

(** Issue a request: it is recorded, and the provider answers. *)
Definition perform (c : call) (w : world St) : response c * world St :=
  let (r, s) := handle P c (env w) in
  (r, {| env := s; trace := trace w ++ [Call c] |}).

Definition info (msg : string) (w : world St) : world St := emit (LogInfo [LStr msg]) w.

End Effects.

(** Calls to one API in a trace. *)
Definition isListObjects (e : event) : bool :=
  match e with Call (S3ListObjectsV2 _ _) => true | _ => false end.
Definition isDeleteObjects (e : event) : bool :=
  match e with Call (S3DeleteObjects _ _) => true | _ => false end.
Definition isDeleteChangeSet (e : event) : bool :=
  match e with Call (CfDeleteChangeSet _) => true | _ => false end.
Definition isDescribeStacks (e : event) : bool :=
  match e with Call (CfDescribeStacks _) => true | _ => false end.
Definition isDescribeChangeSet (e : event) : bool :=
  match e with Call (CfDescribeChangeSet _ _) => true | _ => false end.
Definition isUpdateStack (e : event) : bool :=
  match e with Call (CfUpdateStack _) => true | _ => false end.
Definition isCall (e : event) : bool :=
  match e with Call _ => true | _ => false end.
Definition isTimeout (e : event) : bool :=
  match e with SetTimeout _ => true | _ => false end.

Definition count (f : event -> bool) (t : list event) : nat := length (filter f t).

(** Outcome of a promise whose source did not resolve and that only forwards
    what happened to it (it is applied to no resolved outcome). *)
Definition forward {A B : Type} (o : outcome A) : outcome B :=
  match o with
  | Resolved _ => Unsettled
  | Rejected r => Rejected r
  | Thrown e => Thrown e
  | Unsettled => Unsettled
  | OutOfFuel => OutOfFuel
  end.

(** [Promise.all] of two groups of operations that were all started: a
    rejection wins, and a promise that never settles keeps the whole pending.

    The source starts every operation before any callback runs, and the
    callbacks then interleave as the answers arrive.  [promiseAll] runs each
    operation to completion in list order instead.  Whenever the answer to a
    request does not depend on the requests of the other operations, the two
    issue the same requests and have the same outcome; the order in which
    requests of different operations follow each other is not that of a real
    run, and with several rejections the one reported may differ.  What is
    stated below of several operations is stated of counts, of scopes and of
    outcomes that do not depend on that order. *)
Definition joinAll (r rs : outcome unit) : outcome unit :=
  match r, rs with
  | OutOfFuel, _ | _, OutOfFuel => OutOfFuel
  | Thrown e, _ => Thrown e
  | _, Thrown e => Thrown e
  | Rejected e, _ => Rejected e
  | _, Rejected e => Rejected e
  | Unsettled, _ | _, Unsettled => Unsettled
  | Resolved _, Resolved _ => Resolved tt
  end.

Fixpoint promiseAll {St : Type} (ops : list (world St -> outcome unit * world St))
  (w : world St) : outcome unit * world St :=
  match ops with
  | [] => (Resolved tt, w)
  | op :: rest =>
      let (r, w) := op w in
      let (rs, w) := promiseAll rest w in
      (joinAll r rs, w)
  end.

(** ** s3.js *)

Module S3.
Section WithProvider.
Context {St : Type} (P : Provider St).

Definition putS3Object (params : uploadParams) (w : world St)
  : outcome uploadOutput * world St :=
  let (r, w) := perform P (S3Upload params) w in
  match r with
  | inl err => (Rejected (RError err), w)
  | inr data =>
      (Resolved data,
       emit (LogInfo [LStr "Successfully uploaded to s3://";
                      LStr (up_Bucket params ++ "/" ++ up_Key params)]) w)
  end.

Definition listObjects (bucketName : string) (continuationToken : option string)
  (w : world St) : outcome listObjectsOutput * world St :=
  let (r, w) := perform P (S3ListObjectsV2 bucketName continuationToken) w in
  match r with
  | inl err => (Rejected (RError err), w)
  | inr data => (Resolved data, w)
  end.

Definition listObjectVersions (bucketName : string) (key : objectId)
  (continuationToken : option string) (w : world St)
  : outcome listVersionsOutput * world St :=
  let (r, w) := perform P (S3ListObjectVersions bucketName key 1 continuationToken) w in
  match r with
  | inl err => (Rejected (RError err), w)
  | inr data => (Resolved data, w)
  end.

Definition deleteObjects (bucketName : string) (objectKeys : list objectId)
  (w : world St) : outcome unit * world St :=
  let (r, w) := perform P (S3DeleteObjects bucketName objectKeys) w in
  match r with
  | Some err => (Rejected (RError err), w)
  | None => (Resolved tt, w)
  end.

(** The inner [listAndDelete(key, continuationToken)] of
    deleteVersionedObjects.  The [then] after deleteObjects has no rejection
    handler: a failed delete leaves the promise unsettled. *)
Definition listAndDeleteVersions (bucketName : string) (key : objectId)
  (continuationToken : option string) (w : world St)
  : outcome (option string) * world St :=
  let (r, w) := listObjectVersions bucketName key continuationToken w in
  match r with
  | Resolved data =>
      if (0 <? length (Versions data))%nat then
        let keys := map (fun version =>
                           {| Key := ver_Key version;
                              VersionId := Some (ver_VersionId version) |})
                        (Versions data) in
        let (d, w) := deleteObjects bucketName keys w in
        match d with
        | Resolved _ => (Resolved (NextVersionIdMarker data), w)
        | OutOfFuel => (OutOfFuel, w)
        | _ => (Unsettled, w)
        end
      else (Resolved None, w)
  | other => (forward other, w)
  end.

(** One element of the [Promise.all] of deleteVersionedObjects. *)
Definition deleteVersionsOfKey (bucketName : string) (key : objectId) (w : world St)
  : outcome unit * world St :=
  let (r, w) := listAndDeleteVersions bucketName key None w in
  match r with
  | Resolved continuationToken =>
      if truthyStr continuationToken then
        let (r2, w) := listAndDeleteVersions bucketName key continuationToken w in
        match r2 with
        | Resolved _ => (Resolved tt, w)
        | other => (forward other, w)
        end
      else (Resolved tt, w)
  | other => (forward other, w)
  end.

Definition deleteVersionedObjects (bucketName : string) (objectKeys : list objectId)
  (w : world St) : outcome unit * world St :=
  promiseAll (map (deleteVersionsOfKey bucketName) objectKeys) w.

(** The inner [listAndDelete(continuationToken)] of emptyBucket; again the
    [then] after the delete has no rejection handler. *)
Definition listAndDelete (bucketName : string) (versioningEnabled : bool)
  (continuationToken : option string) (w : world St)
  : outcome (option string) * world St :=
  let (r, w) := listObjects bucketName continuationToken w in
  match r with
  | Resolved data =>
      if (0 <? length (Contents data))%nat then
        let keys := map (fun object => {| Key := obj_Key object; VersionId := None |})
                        (Contents data) in
        let (d, w) :=
          if versioningEnabled
          then deleteVersionedObjects bucketName keys w
          else deleteObjects bucketName keys w in
        match d with
        | Resolved _ => (Resolved (NextContinuationToken data), w)
        | OutOfFuel => (OutOfFuel, w)
        | _ => (Unsettled, w)
        end
      else (Resolved None, w)
  | other => (forward other, w)
  end.

Definition emptyBucket (bucketName : string) (w : world St) : outcome unit * world St :=
  let (r, w) := perform P (S3GetBucketVersioning bucketName) w in
  match r with
  | inl err =>
      if includes (toString err) "The specified bucket does not exist" then
        (Resolved tt,
         emit (LogInfo [LStr "Bucket"; LStr bucketName; LStr "does not exist, continuing..."]) w)
      else (Rejected (RError err), w)
  | inr data =>
      let versioningEnabled :=
        match ver_Status data with
        | Some s => s =? "Enabled"
        | None => false
        end in
      let (r1, w) := listAndDelete bucketName versioningEnabled None w in
      match r1 with
      | Resolved continuationToken =>
          if truthyStr continuationToken then
            let (r2, w) := listAndDelete bucketName versioningEnabled continuationToken w in
            match r2 with
            | Resolved _ => (Resolved tt, w)
            | other => (forward other, w)
            end
          else (Resolved tt, w)
      | other => (forward other, w)
      end
  end.

End WithProvider.
End S3.

(** ** cloudFormation.js, the copy with change-set deployment (upsertStack
    with options) *)

(** The [options] argument of upsertStack: an object, a boolean (the former
    [review] flag) or nothing. *)
Record upsertOptions := {
  review : option bool;
  s3Bucket : option string;
  s3Prefix : option string;
  containsTransforms : option bool
}.

Inductive optionsArg :=
| OptUndefined
| OptBool (b : bool)
| OptObject (o : upsertOptions).

Definition normalizeOptions (options : optionsArg) : upsertOptions :=
  match options with
  | OptBool b =>
      {| review := Some b; s3Bucket := None; s3Prefix := None; containsTransforms := None |}
  | OptObject o => o
  | OptUndefined =>
      {| review := None; s3Bucket := None; s3Prefix := None; containsTransforms := None |}
  end.

(** The regular expression [Transform"?\s*:\s*"?AWS::Serverless] anchored at
    the start of [s]. *)
Definition transformHere (s : string) : bool :=
  match stripPrefix "Transform" s with
  | None => false
  | Some r =>
      match stripPrefix ":" (dropSpaces (dropQuote r)) with
      | None => false
      | Some r => prefix "AWS::Serverless" (dropQuote (dropSpaces r))
      end
  end.

(** [regex.test(s)]: a match at some position. *)
Fixpoint transformMarker (s : string) : bool :=
  transformHere s ||
  match s with
  | String _ r => transformMarker r
  | EmptyString => false
  end.

(** What [fs.readFileSync] throws for a missing file. *)
Definition ENOENT (path : string) : error :=
  {| name := "Error";
     message := "ENOENT: no such file or directory, open '" ++ path ++ "'" |}.

Definition isStackSuccess (status : string) : bool :=
  (status =? "CREATE_COMPLETE") || (status =? "UPDATE_COMPLETE").

Definition isStackFailure (status : string) : bool :=
  (status =? "ROLLBACK_COMPLETE") || (status =? "CREATE_FAILED") ||
  (status =? "UPDATE_FAILED") || (status =? "DELETE_FAILED") ||
  (status =? "UPDATE_ROLLBACK_COMPLETE").

Definition isChangeSetSuccess (status : string) : bool :=
  (status =? "CREATE_COMPLETE") || (status =? "UPDATE_COMPLETE") ||
  (status =? "DELETE_COMPLETE").

Module CloudFormation.
Section WithProvider.
Context {St : Type} (P : Provider St) (cfg : config).

Fixpoint pollStack (fuel : nat) (params : params) (w : world St)
  : outcome (option describeStacksOutput) * world St :=
  match fuel with
  | O => (OutOfFuel, w)
  | S fuel' =>
      let (r, w) := perform P (CfDescribeStacks (StackName params)) w in
      match r with
      | inl err =>
          if (0 <=? indexOf (message err) "does not exist")%Z then
            (Resolved None, info "Stack deleted or never existed." w)
          else (Rejected (RError err), w)
      | inr data =>
          match nth_error (Stacks data) 0 with
          | None => (Unsettled, w) (* TypeError inside the callback *)
          | Some stack =>
              if isStackSuccess (StackStatus stack) then
                (Resolved (Some data), info "Stack operation completed" w)
              else if isStackFailure (StackStatus stack) then
                (Rejected (RError (Error "Stack operation failed")),
                 emit (LogWarn [LStackDetails data]) w)
              else
                let w := info ("Waiting for stack operation to complete. This may take some time - "
                               ++ StackStatus stack) w in
                pollStack fuel' params (emit (SetTimeout 5000) w)
          end
      end
  end.

Fixpoint pollChangeSet (fuel : nat) (params : params) (w : world St)
  : outcome (option changeSet) * world St :=
  match fuel with
  | O => (OutOfFuel, w)
  | S fuel' =>
      let (r, w) :=
        perform P (CfDescribeChangeSet (ChangeSetName params) (StackName params)) w in
      match r with
      | inl err =>
          if (0 <=? indexOf (message err) "does not exist")%Z then
            (Resolved None, info "Change set deleted or never existed." w)
          else (Rejected (RError err), w)
      | inr cs =>
          if Status cs =? "CREATE_COMPLETE" then
            (Resolved (Some cs), info "Change set created" w)
          else if (Status cs =? "UPDATE_COMPLETE") || (Status cs =? "DELETE_COMPLETE") then
            (Resolved (Some cs), w)
          else if Status cs =? "FAILED" then
            match StatusReason cs with
            | None => (Unsettled, w) (* TypeError inside the callback *)
            | Some statusReason =>
                if (0 <=? indexOf statusReason "No updates are to be performed")%Z
                   || (0 <=? indexOf statusReason "didn't contain changes")%Z then
                  (Resolved None, info "No updates are to be performed" w)
                else
                  (Rejected (RError (Error "Changeset creation failed")),
                   emit (LogWarn [LChangeSet cs]) w)
            end
          else
            let w := info ("Waiting for change set to be created - " ++ Status cs) w in
            pollChangeSet fuel' params (emit (SetTimeout 5000) w)
      end
  end.

Definition createStack (fuel : nat) (params : params) (w : world St)
  : outcome (option describeStacksOutput) * world St :=
  let params := setDisableRollback params (Some true) in
  let (err, w) := perform P (CfCreateStack params) w in
  match err with
  | Some err => (Rejected (RError err), w)
  | None => pollStack fuel params w
  end.

Definition updateStack (fuel : nat) (params : params) (w : world St)
  : outcome (option describeStacksOutput) * world St :=
  let (err, w) := perform P (CfUpdateStack params) w in
  match err with
  | Some err =>
      if (0 <=? indexOf (toString err) "No updates are to be performed")%Z then
        pollStack fuel params (info "There are no changes to apply, continuing...." w)
      else (Rejected (RError err), w)
  | None => pollStack fuel params w
  end.

(** [Date.now() / 1000 | 0] appended to the fixed prefix. *)
Definition generateChangeSetName (w : world St) : string :=
  "cf-utils-cloudformation-upsert-stack-"
  ++ numToString (toInt32 (Z.quot (now P (env w)) 1000)).

Definition createChangeSet (fuel : nat) (params : params) (w : world St)
  : outcome (option changeSet) * world St :=
  let (err, w) := perform P (CfCreateChangeSet params) w in
  match err with
  | Some err => (Rejected (RError err), w)
  | None => pollChangeSet fuel params w
  end.

Definition executeChangeSet (fuel : nat) (params : params) (w : world St)
  : outcome (option describeStacksOutput) * world St :=
  let (err, w) := perform P (CfExecuteChangeSet params) w in
  match err with
  | Some err => (Rejected (RError err), w)
  | None => pollStack fuel params w
  end.

Definition deleteChangeSet (fuel : nat) (params : params) (w : world St)
  : outcome (option changeSet) * world St :=
  let (err, w) := perform P (CfDeleteChangeSet params) w in
  match err with
  | Some err => (Rejected (RError err), w)
  | None => pollChangeSet fuel params w
  end.

Definition applyChangeSet (fuel : nat) (params : params) (w : world St)
  : outcome (option describeStacksOutput) * world St :=
  let (r, w) := createChangeSet fuel params w in
  match r with
  | Resolved (Some cs) =>
      executeChangeSet fuel (changeSetParams (cs_StackName cs) (cs_ChangeSetName cs)) w
  | Resolved None => (Resolved None, w)
  | other => (forward other, w)
  end.

(** [describeStack] resolves with [data.Stacks[0]]. *)
Definition describeStack (name : string) (w : world St) : outcome (option stack) * world St :=
  let (r, w) := perform P (CfDescribeStacks name) w in
  match r with
  | inl err => (Rejected (RError err), w)
  | inr data => (Resolved (nth_error (Stacks data) 0), w)
  end.

(** The [--parameter-overrides] string built by deployStack. *)
Definition overrides (parameters : option (list parameter)) : string :=
  match parameters with
  | Some ps =>
      fold_left (fun acc p =>
                   acc ++ ParameterKey p ++ "=" ++ String dquote (ParameterValue p)
                       ++ String dquote " ")
                ps ""
  | None => ""
  end.

(** The [data] listeners of the child process: every chunk is echoed, the
    chunks of stderr are accumulated in [err]. *)
Fixpoint listen (cs : list chunk) (err : string) (w : world St) : string * world St :=
  match cs with
  | [] => (err, w)
  | Stdout data :: rest => listen rest err (emit (ConsoleLog data) w)
  | Stderr data :: rest => listen rest (err ++ data) (emit (ConsoleLog data) w)
  end.

Definition deployStack (name script : string) (parameters : option (list parameter))
  (w : world St) : outcome (option stack) * world St :=
  let args :=
    [ "cloudformation"; "deploy";
      "--profile"; AWS_PROFILE cfg;
      "--region"; AWS_REGION cfg;
      "--template-file"; script;
      "--stack-name"; name;
      "--capabilities"; "CAPABILITY_IAM"; "CAPABILITY_NAMED_IAM";
      " --parameter-overrides"; overrides parameters ] in
  let (cli, w) := perform P (SpawnAws args) w in
  let (err, w) := listen (chunks cli) "" w in
  match exitCode cli with
  | Some 0%Z => describeStack name w
  | _ =>
      if (0 <=? indexOf err "No changes to deploy")%Z then
        describeStack name (info "There are no changes to apply, continuing...." w)
      else (Rejected (RString "Stack deploy failed"), w)
  end.

(** The promises pushed on [s3Operations]: one per output whose key matches
    [/.*Bucket$/]. *)
Definition s3Operations (outputs : list output)
  : list (world St -> outcome unit * world St) :=
  map (fun o w =>
         S3.emptyBucket P (OutputValue o)
           (emit (LogInfo [LStr "Emptying S3 bucket"; LStr (OutputValue o)]) w))
      (filter (fun o => endsWith (OutputKey o) "Bucket") outputs).

(** In the error branch [resolve()] is followed by [reject(err)] outside the
    [if]; a promise keeps its first settlement. *)
Definition deleteStack (fuel : nat) (name : string) (w : world St)
  : outcome (option describeStacksOutput) * world St :=
  let params := stackNameParams name in
  let (r, w) := perform P (CfDescribeStacks name) w in
  match r with
  | inl err =>
      if truthyNum (indexOf (message err) "does not exist") then
        (Resolved None, info "Stack already deleted or never existed." w)
      else (Rejected (RError err), w)
  | inr data =>
      match nth_error (Stacks data) 0 with
      | None => (Unsettled, w) (* TypeError inside the callback *)
      | Some stack =>
          let (r, w) := promiseAll (s3Operations (Outputs stack)) w in
          match r with
          | Resolved _ =>
              let (err, w) := perform P (CfDeleteStack params) w in
              match err with
              | Some err => (Rejected (RError err), w)
              | None => pollStack fuel params w
              end
          | other => (forward other, w)
          end
      end
  end.

(** The local [executeUpdate] of upsertStack. *)
Definition executeUpdate (fuel : nat) (containsTransforms : bool) (params : params)
  (w : world St) : outcome (option describeStacksOutput) * world St :=
  if containsTransforms then
    let w := info "Stack contains transforms, deploying via change set..." w in
    applyChangeSet fuel
      (withChangeSet (setDisableRollback params None)
                     (generateChangeSetName w) (Some "UPDATE")) w
  else updateStack fuel params w.

(** upsertStack once [options] is normalized, [containsTransforms] known and
    no upload is requested: the body of the returned promise.  [readFile]
    answers both [fs.existsSync(script)] and the [fs.readFileSync(script)]
    that follows it. *)
Definition reconcile (fuel : nat) (name script : string)
  (parameters : option (list parameter)) (options : upsertOptions)
  (containsTransforms : bool) (w : world St)
  : outcome (option describeStacksOutput) * world St :=
  let params :=
    {| StackName := name;
       Capabilities := Some ["CAPABILITY_IAM"; "CAPABILITY_NAMED_IAM"; "CAPABILITY_AUTO_EXPAND"];
       Parameters := parameters;
       TemplateURL := None; TemplateBody := None; DisableRollback := None;
       ChangeSetName := None; ChangeSetType := None |} in
  let template :=
    if substring 0 10 script =? "https://s3" then
      Some {| StackName := StackName params; Capabilities := Capabilities params;
              Parameters := Parameters params;
              TemplateURL := Some script; TemplateBody := None;
              DisableRollback := None; ChangeSetName := None; ChangeSetType := None |}
    else
      match readFile P (env w) script with
      | None => None
      | Some body =>
          Some {| StackName := StackName params; Capabilities := Capabilities params;
                  Parameters := Parameters params;
                  TemplateURL := None; TemplateBody := Some body;
                  DisableRollback := None; ChangeSetName := None; ChangeSetType := None |}
      end in
  match template with
  | None => (Rejected (RError (Error (script ++ " does not exist!"))), w)
  | Some params =>
      let (r, w) := perform P (CfDescribeStacks name) w in
      match r with
      | inl _ =>
          if containsTransforms then
            let w := info "Stack contains transforms, deploying via change set..." w in
            applyChangeSet fuel
              (withChangeSet (setDisableRollback params None)
                             (generateChangeSetName w) (Some "CREATE")) w
          else createStack fuel params w
      | inr _ =>
          match review options with
          | Some true =>
              let w := info "Stack exists, creating changeset for review..." w in
              let csName := "cf-utils-" ++ StackName params ++ "-preview" in
              let csParams := changeSetParams (StackName params) csName in
              let (c, w) := createChangeSet fuel (withChangeSet params csName None) w in
              match c with
              | Resolved (Some cs) =>
                  let w := emit (LogInfo [LChangeSet cs]) w in
                  let (performUpdate, w) := perform P InquirerPrompt w in
                  let w := info "Cleaning up review change set...." w in
                  let (d, w) := deleteChangeSet fuel csParams w in
                  match d with
                  | Resolved _ =>
                      if performUpdate then
                        executeUpdate fuel containsTransforms params
                          (info "Reviewer has accepted updates, continuing with stack update..." w)
                      else (Rejected (RString "Reviewer rejected stack update"), w)
                  | OutOfFuel => (OutOfFuel, w)
                  | _ => (Unsettled, w) (* no rejection handler *)
                  end
              | Resolved None =>
                  pollStack fuel params (info "There are no changes to apply, continuing...." w)
              | OutOfFuel => (OutOfFuel, w)
              | _ => (Unsettled, w) (* no rejection handler *)
              end
          | _ =>
              executeUpdate fuel containsTransforms params (info "Stack exists, updating..." w)
          end
      end
  end.

Fixpoint upsertStack (fuel : nat) (name script : string)
  (parameters : option (list parameter)) (options : optionsArg) (w : world St)
  : outcome (option describeStacksOutput) * world St :=
  match fuel with
  | O => (OutOfFuel, w)
  | S fuel' =>
      let options := normalizeOptions options in
      let scan :=
        match containsTransforms options with
        | Some b => Some b
        | None =>
            match readFile P (env w) script with
            | Some body => Some (transformMarker body)
            | None => None
            end
        end in
      match scan with
      | None => (Thrown (ENOENT script), w)
      | Some containsTransforms =>
          if truthyStr (s3Bucket options) then
            let bucket := interpolate (s3Bucket options) in
            let (u, w) :=
              S3.putS3Object P
                {| up_Bucket := bucket;
                   up_Key := interpolate (s3Prefix options) ++ script;
                   up_Body := script (* fs.createReadStream(script), see streamsBody *)
                |} w in
            match u with
            | Resolved _ =>
                upsertStack fuel' name
                  ("https://s3.amazonaws.com/" ++ bucket ++ "/"
                   ++ interpolate (s3Prefix options) ++ script)
                  parameters
                  (OptObject
                     {| review := Some (match review options with
                                        | Some true => true
                                        | _ => false
                                        end);
                        s3Bucket := None; s3Prefix := None;
                        containsTransforms := Some containsTransforms |})
                  w
            | other => (forward other, w)
            end
          else reconcile fuel' name script parameters options containsTransforms w
      end
  end.

End WithProvider.

Section Outputs.
Context {St : Type} (P : Provider St).

(** The object built by extractOutput, seen through its own properties:
    [extractOutput stack k] is the value stored under the key [k], if any.
    [map[key] = value] with the key [__proto__] and a string value creates no
    property. *)
Definition extractOutput (stack : stack) : string -> option string :=
  fold_left
    (fun map output k =>
       if (k =? OutputKey output) && negb (OutputKey output =? "__proto__")
       then Some (OutputValue output)
       else map k)
    (Outputs stack) (fun _ => None).

(** [describeStack(name).then(data => extractOutput(data))]; when the describe
    result holds no stack, [data] is undefined and reading [data.Outputs]
    throws inside the [then]: the promise rejects with a TypeError, whose text
    ([typeErrorText]) is the engine's. *)
Definition describeOutput (typeErrorText : string) (name : string) (w : world St)
  : outcome (string -> option string) * world St :=
  let (r, w) := describeStack P name w in
  match r with
  | Resolved (Some stack) => (Resolved (extractOutput stack), w)
  | Resolved None =>
      (Rejected (RError {| name := "TypeError"; message := typeErrorText |}), w)
  | other => (forward other, w)
  end.

End Outputs.
End CloudFormation.

(** ** src/cloudFormation.js, the copy that falls back on the aws CLI: its
    two pollers *)

Module SrcCloudFormation.
Section WithProvider.
Context {St : Type} (P : Provider St).

(** The error test is [if (err.message.indexOf('does not exist'))], the
    number itself being the condition. *)
Fixpoint pollStack (fuel : nat) (params : params) (w : world St)
  : outcome (option describeStacksOutput) * world St :=
  match fuel with
  | O => (OutOfFuel, w)
  | S fuel' =>
      let (r, w) := perform P (CfDescribeStacks (StackName params)) w in
      match r with
      | inl err =>
          if truthyNum (indexOf (message err) "does not exist") then
            (Resolved None, info "Stack deleted or never existed." w)
          else (Rejected (RError err), w)
      | inr data =>
          match nth_error (Stacks data) 0 with
          | None => (Unsettled, w) (* TypeError inside the callback *)
          | Some stack =>
              if isStackSuccess (StackStatus stack) then
                (Resolved (Some data), info "Stack operation completed" w)
              else if isStackFailure (StackStatus stack) then
                (Rejected (RError (Error "Stack operation failed")),
                 emit (LogWarn [LStackDetails data]) w)
              else
                let w := info ("Waiting for stack operation to complete. This may take some time - "
                               ++ StackStatus stack) w in
                pollStack fuel' params (emit (SetTimeout 5000) w)
          end
      end
  end.

(** Here the reason test is [if (cs.StatusReason.indexOf("didn't contain
    changes"))], again the number itself. *)
Fixpoint pollChangeSet (fuel : nat) (params : params) (w : world St)
  : outcome (option changeSet) * world St :=
  match fuel with
  | O => (OutOfFuel, w)
  | S fuel' =>
      let (r, w) :=
        perform P (CfDescribeChangeSet (ChangeSetName params) (StackName params)) w in
      match r with
      | inl err =>
          if truthyNum (indexOf (message err) "does not exist") then
            (Resolved None, info "Stack deleted or never existed." w)
          else (Rejected (RError err), w)
      | inr cs =>
          if isChangeSetSuccess (Status cs) then
            (Resolved (Some cs), info "Change set created" w)
          else if Status cs =? "FAILED" then
            match StatusReason cs with
            | None => (Unsettled, w) (* TypeError inside the callback *)
            | Some statusReason =>
                if truthyNum (indexOf statusReason "didn't contain changes") then
                  (Resolved None, info "No updates are to be performed" w)
                else
                  (Rejected (RError (Error "Changeset creation failed")),
                   emit (LogWarn [LChangeSet cs]) w)
            end
          else
            let w := info ("Waiting for change set to be created - " ++ Status cs) w in
            pollChangeSet fuel' params (emit (SetTimeout 5000) w)
      end
  end.

End WithProvider.

(** The rest of this copy.  deployStack and describeStack have the same text
    in both copies. *)
Section WithConfig.
Context {St : Type} (P : Provider St) (cfg : config).

(** What this copy of upsertStack resolves with: the result of a poll, or of
    the CLI deployment. *)
Inductive upsertResult :=
| Polled (data : option describeStacksOutput)
| Deployed (stack : option stack).

(** [err.toString()] of a rejection. *)
Definition reasonToString (r : reason) : string :=
  match r with
  | RError e => toString e
  | RString s => s
  end.

Definition createStack (fuel : nat) (params : params) (w : world St)
  : outcome (option describeStacksOutput) * world St :=
  let params := setDisableRollback params (Some true) in
  let (err, w) := perform P (CfCreateStack params) w in
  match err with
  | Some err => (Rejected (RError err), w)
  | None => pollStack P fuel params w
  end.

Definition updateStack (fuel : nat) (params : params) (w : world St)
  : outcome (option describeStacksOutput) * world St :=
  let (err, w) := perform P (CfUpdateStack params) w in
  match err with
  | Some err =>
      if (0 <=? indexOf (toString err) "No updates are to be performed")%Z then
        pollStack P fuel params (info "There are no changes to apply, continuing...." w)
      else (Rejected (RError err), w)
  | None => pollStack P fuel params w
  end.

(** [params.ChangeSetName = params.StackName + '-preview'], an assignment on
    the object of the caller. *)
Definition namePreview (p : params) : params :=
  withChangeSet p (StackName p ++ "-preview") None.

(** createChangeSet; the second component is the caller's [params] object
    after the call. *)
Definition createChangeSet (fuel : nat) (p : params) (w : world St)
  : outcome (option changeSet) * params * world St :=
  let params := namePreview p in
  let (err, w) := perform P (CfCreateChangeSet params) w in
  match err with
  | Some err => (Rejected (RError err), params, w)
  | None => let (r, w) := pollChangeSet P fuel params w in (r, params, w)
  end.

Definition deleteChangeSet (fuel : nat) (name : string) (w : world St)
  : outcome (option changeSet) * world St :=
  let params := changeSetParams name (name ++ "-preview") in
  let (err, w) := perform P (CfDeleteChangeSet params) w in
  match err with
  | Some err => (Rejected (RError err), w)
  | None => pollChangeSet P fuel params w
  end.

Definition deployStack (name script : string) (parameters : option (list parameter))
  (w : world St) : outcome (option stack) * world St :=
  CloudFormation.deployStack P cfg name script parameters w.

(** [resolve(deployStack(name, script, parameters))] *)
Definition deployed (name script : string) (parameters : option (list parameter))
  (w : world St) : outcome upsertResult * world St :=
  let (r, w) := deployStack name script parameters w in
  match r with
  | Resolved stack => (Resolved (Deployed stack), w)
  | other => (forward other, w)
  end.

(** The local [updateOrDeploy] of upsertStack. *)
Definition updateOrDeploy (fuel : nat) (name script : string)
  (parameters : option (list parameter)) (params : params) (w : world St)
  : outcome upsertResult * world St :=
  let (r, w) := updateStack fuel params w in
  match r with
  | Resolved data => (Resolved (Polled data), w)
  | Rejected err =>
      if (0 <=? indexOf (reasonToString err)
                  "UpdateStack cannot be used with templates containing Transforms")%Z then
        deployed name script parameters
          (info "Stack contains transforms, using aws cli to update stack..." w)
      else (Rejected err, w)
  | other => (forward other, w)
  end.

(** The template literal of the missing-file branch names [filePath], which
    is declared nowhere: evaluating it throws, and the executor's exception
    rejects the promise. *)
Definition filePathUndefined : error :=
  {| name := "ReferenceError"; message := "filePath is not defined" |}.

Definition upsertStack (fuel : nat) (name script : string)
  (parameters : option (list parameter)) (review : bool) (w : world St)
  : outcome upsertResult * world St :=
  match readFile P (env w) script with
  | None => (Rejected (RError filePathUndefined), w)
  | Some body =>
      let params :=
        {| StackName := name;
           Capabilities := Some ["CAPABILITY_IAM"; "CAPABILITY_NAMED_IAM"];
           Parameters := parameters;
           TemplateURL := None; TemplateBody := Some body; DisableRollback := None;
           ChangeSetName := None; ChangeSetType := None |} in
      let (r, w) := perform P (CfDescribeStacks name) w in
      match r with
      | inl _ =>
          let (c, w) := createStack fuel params w in
          match c with
          | Resolved data => (Resolved (Polled data), w)
          | Rejected err =>
              if (0 <=? indexOf (reasonToString err)
                          "CreateStack cannot be used with templates containing Transforms")%Z then
                deployed name script parameters
                  (info "Stack contains transforms, using aws cli to deploy stack..." w)
              else (Rejected err, w)
          | other => (forward other, w)
          end
      | inr _ =>
          if review then
            let w := info "Stack exists, creating changeset for review..." w in
            let '(c, params, w) := createChangeSet fuel params w in
            match c with
            | Resolved (Some cs) =>
                let w := emit (LogInfo [LChangeSet cs]) w in
                let (performUpdate, w) := perform P InquirerPrompt w in
                let w := info "Cleaning up review change set...." w in
                let (d, w) := deleteChangeSet fuel (StackName params) w in
                match d with
                | Resolved _ =>
                    if performUpdate then
                      updateOrDeploy fuel name script parameters params
                        (info "Reviewer has accepted updates, continuing with stack update..." w)
                    else (Rejected (RString "Reviewer rejected stack update"), w)
                | OutOfFuel => (OutOfFuel, w)
                | _ => (Unsettled, w) (* no rejection handler *)
                end
            | Resolved None =>
                let (r, w) :=
                  pollStack P fuel params
                    (info "There are no changes to apply, continuing...." w) in
                match r with
                | Resolved data => (Resolved (Polled data), w)
                | other => (forward other, w)
                end
            | OutOfFuel => (OutOfFuel, w)
            | _ => (Unsettled, w) (* no rejection handler *)
            end
          else
            updateOrDeploy fuel name script parameters params
              (info "Stack exists, updating..." w)
      end
  end.

(** Here the bucket outputs are those whose key matches [/.*Bucket/]: the
    key contains [Bucket]. *)
Definition s3Operations (outputs : list output)
  : list (world St -> outcome unit * world St) :=
  map (fun o w =>
         S3.emptyBucket P (OutputValue o)
           (emit (LogInfo [LStr "Emptying S3 bucket"; LStr (OutputValue o)]) w))
      (filter (fun o => (0 <=? indexOf (OutputKey o) "Bucket")%Z) outputs).

Definition deleteStack (fuel : nat) (name : string) (w : world St)
  : outcome (option describeStacksOutput) * world St :=
  let params := stackNameParams name in
  let (r, w) := perform P (CfDescribeStacks name) w in
  match r with
  | inl err =>
      if truthyNum (indexOf (message err) "does not exist") then
        (Resolved None, info "Stack already deleted or never existed." w)
      else (Rejected (RError err), w)
  | inr data =>
      match nth_error (Stacks data) 0 with
      | None => (Unsettled, w) (* TypeError inside the callback *)
      | Some stack =>
          let (r, w) := promiseAll (s3Operations (Outputs stack)) w in
          match r with
          | Resolved _ =>
              let (err, w) := perform P (CfDeleteStack params) w in
              match err with
              | Some err => (Rejected (RError err), w)
              | None => pollStack P fuel params w
              end
          | other => (forward other, w)
          end
      end
  end.

End WithConfig.
End SrcCloudFormation.

(** ** A scripted provider

    For concrete runs the provider replays a list of replies in order.  A
    request whose kind does not match the next reply gets an error (the
    prompt a refusal, the CLI a killed process) and leaves the script
    untouched. *)

Module Script.

Inductive reply :=
| Described (r : error + describeStacksOutput)
| Ack (r : option error)
| ChangeSetIs (r : error + changeSet)
| Uploaded (r : error + uploadOutput)
| Listed (r : error + listObjectsOutput)
| VersionsListed (r : error + listVersionsOutput)
| Versioning (r : error + versioningOutput)
| Answered (performUpdate : bool)
| Exited (r : processResult).

Record state := {
  replies : list reply;
  files : list (string * string);
  clock : Z
}.

Definition unscripted : error := {| name := "ScriptError"; message := "no scripted reply" |}.

Definition next (s : state) : state :=
  {| replies := tl (replies s); files := files s; clock := clock s |}.

Definition answer (c : call) (s : state) : response c * state :=
  match c return response c * state with
  | CfDescribeStacks _ =>
      match replies s with Described r :: _ => (r, next s) | _ => (inl unscripted, s) end
  | CfDescribeChangeSet _ _ =>
      match replies s with ChangeSetIs r :: _ => (r, next s) | _ => (inl unscripted, s) end
  | CfCreateStack _ | CfUpdateStack _ | CfDeleteStack _
  | CfCreateChangeSet _ | CfExecuteChangeSet _ | CfDeleteChangeSet _ =>
      match replies s with Ack r :: _ => (r, next s) | _ => (Some unscripted, s) end
  | S3Upload _ =>
      match replies s with Uploaded r :: _ => (r, next s) | _ => (inl unscripted, s) end
  | S3ListObjectsV2 _ _ =>
      match replies s with Listed r :: _ => (r, next s) | _ => (inl unscripted, s) end
  | S3ListObjectVersions _ _ _ _ =>
      match replies s with VersionsListed r :: _ => (r, next s) | _ => (inl unscripted, s) end
  | S3DeleteObjects _ _ =>
      match replies s with Ack r :: _ => (r, next s) | _ => (Some unscripted, s) end
  | S3GetBucketVersioning _ =>
      match replies s with Versioning r :: _ => (r, next s) | _ => (inl unscripted, s) end
  | InquirerPrompt =>
      match replies s with Answered b :: _ => (b, next s) | _ => (false, s) end
  | SpawnAws _ =>
      match replies s with
      | Exited r :: _ => (r, next s)
      | _ => ({| chunks := []; exitCode := None |}, s)
      end
  end.

Fixpoint lookup (fs : list (string * string)) (path : string) : option string :=
  match fs with
  | [] => None
  | (p, body) :: rest => if p =? path then Some body else lookup rest path
  end.

Definition provider : Provider state :=
  {| handle := answer;
     readFile := fun s path => lookup (files s) path;
     now := clock |}.

(** The world before the first request. *)
Definition start (fs : list (string * string)) (rs : list reply) : world state :=
  {| env := {| replies := rs; files := fs; clock := 1700000000000 |}; trace := [] |}.

End Script.

(** ** Vocabulary of the statements *)

Section Observations.
Context {St : Type} (P : Provider St).

(** State of the provider once it has answered the request [c] [n] times in
    a row. *)
Fixpoint afterAnswers (c : call) (n : nat) (s : St) : St :=
  match n with
  | O => s
  | S n' => afterAnswers c n' (snd (handle P c s))
  end.

End Observations.

(** A describe result that shows a stack in neither a success nor a failure
    terminal state. *)
Definition stackInProgress (r : error + describeStacksOutput) : bool :=
  match r with
  | inr data =>
      match nth_error (Stacks data) 0 with
      | Some stack =>
          negb (isStackSuccess (StackStatus stack)) && negb (isStackFailure (StackStatus stack))
      | None => false
      end
  | inl _ => false
  end.




(** What the child process wrote on stderr. *)
Fixpoint stderrOf (cs : list chunk) : string :=
  match cs with
  | [] => ""
  | Stdout _ :: rest => stderrOf rest
  | Stderr data :: rest => data ++ stderrOf rest
  end.

(** The console lines of the child process. *)
Definition echoed (cs : list chunk) : list event :=
  map (fun c => match c with Stdout d => ConsoleLog d | Stderr d => ConsoleLog d end) cs.

(** Number of list-objects requests issued so far. *)
Definition listings {St : Type} (w : world St) : nat := count isListObjects (trace w).

(** The requests and timers of a trace, logs left out. *)
Definition actions (t : list event) : list event :=
  filter (fun e => isCall e || isTimeout e) t.

(** ** Scenarios *)

Module Scenario.
Import Script.

Definition stackIn (status : string) (outs : list output) : describeStacksOutput :=
  {| Stacks := [{| stk_StackName := "app-stack"; StackStatus := status; Outputs := outs |}] |}.

Definition changeSetIn (status : string) (why : option string) : changeSet :=
  {| cs_StackName := "app-stack"; cs_ChangeSetName := "cf-utils-app-stack-preview";
     Status := status; StatusReason := why |}.

(** A page of [n] objects numbered from [from]. *)
Definition page (from n : nat) (token : option string) : listObjectsOutput :=
  {| Contents := map (fun i => {| obj_Key := "k" ++ numToString (Z.of_nat i) |}) (seq from n);
     NextContinuationToken := token |}.

Definition unversioned : reply := Versioning (inr {| ver_Status := None |}).

(** Three pages of 1000, 1000 and 42 objects, every delete acknowledged. *)
Definition threePages : list reply :=
  [ unversioned;
    Listed (inr (page 0 1000 (Some "page-2"))); Ack None;
    Listed (inr (page 1000 1000 (Some "page-3"))); Ack None;
    Listed (inr (page 2000 42 None)); Ack None ].

Definition emptyListing : list reply :=
  [ unversioned; Listed (inr (page 0 0 None)) ].

Definition reviewOptions : optionsArg :=
  OptObject {| review := Some true; s3Bucket := None; s3Prefix := None;
               containsTransforms := None |}.

Definition templates : list (string * string) := [("template.json", "{}")].

Definition noChanges : string :=
  "The submitted information didn't contain changes. Submit different information to create a change set.".

(** Review of an existing stack with zero drift: the probe, the change set
    accepted, found [FAILED] for lack of changes, then the unchanged stack. *)
Definition zeroDrift : list reply :=
  [ Described (inr (stackIn "UPDATE_COMPLETE" []));
    Ack None;
    ChangeSetIs (inr (changeSetIn "FAILED" (Some noChanges)));
    Described (inr (stackIn "UPDATE_COMPLETE" [])) ].

(** Review of an existing stack with changes: probe, change set created,
    the reviewer's answer, change set deleted and gone, then (on acceptance)
    the update and the updated stack. *)
Definition reviewed (performUpdate : bool) : list reply :=
  [ Described (inr (stackIn "UPDATE_COMPLETE" []));
    Ack None;
    ChangeSetIs (inr (changeSetIn "CREATE_COMPLETE" None));
    Answered performUpdate;
    Ack None;
    ChangeSetIs (inl {| name := "ChangeSetNotFound";
                        message := "ChangeSet [cf-utils-app-stack-preview] does not exist" |});
    Ack None;
    Described (inr (stackIn "UPDATE_COMPLETE" [])) ].

(** The requests of that review, as upsertStack builds them. *)
Definition updateRequest : params :=
  {| StackName := "app-stack";
     Capabilities := Some ["CAPABILITY_IAM"; "CAPABILITY_NAMED_IAM"; "CAPABILITY_AUTO_EXPAND"];
     Parameters := Some [];
     TemplateURL := None; TemplateBody := Some "{}"; DisableRollback := None;
     ChangeSetName := None; ChangeSetType := None |}.

Definition previewRequest : params :=
  {| StackName := "app-stack";
     Capabilities := Some ["CAPABILITY_IAM"; "CAPABILITY_NAMED_IAM"; "CAPABILITY_AUTO_EXPAND"];
     Parameters := Some [];
     TemplateURL := None; TemplateBody := Some "{}"; DisableRollback := None;
     ChangeSetName := Some "cf-utils-app-stack-preview"; ChangeSetType := None |}.

Definition throttled : error := {| name := "Throttling"; message := "Rate exceeded" |}.

Definition stagedOptions : optionsArg :=
  OptObject {| review := None; s3Bucket := Some "artifacts"; s3Prefix := Some "templates/";
               containsTransforms := Some false |}.

End Scenario.


(** ** Vocabulary of the further statements *)

(** [w'] continues [w], and every event added on the way passes [q]. *)
Definition onlyAdds {St : Type} (q : event -> bool) (w w' : world St) : Prop :=
  exists added, trace w' = (trace w ++ added)%list /\ forallb q added = true.

(** What a poller of the stack [name] may do: describe that stack, log, and
    wait 5000 ms. *)
Definition pollsStack (name : string) (e : event) : bool :=
  match e with
  | Call (CfDescribeStacks n) => n =? name
  | Call _ => false
  | SetTimeout ms => (ms =? 5000)%Z
  | ConsoleLog _ => false
  | LogInfo _ | LogWarn _ => true
  end.

(** The same for the poller of a change set. *)
Definition pollsChangeSet (csName : option string) (name : string) (e : event) : bool :=
  match e with
  | Call (CfDescribeChangeSet c n) =>
      (n =? name) &&
      match c, csName with
      | Some a, Some b => a =? b
      | None, None => true
      | _, _ => false
      end
  | Call _ => false
  | SetTimeout ms => (ms =? 5000)%Z
  | ConsoleLog _ => false
  | LogInfo _ | LogWarn _ => true
  end.

(** What emptying the bucket [b] may do: S3 requests on [b], and logs. *)
Definition touchesBucket (b : string) (e : event) : bool :=
  match e with
  | Call (S3GetBucketVersioning x) => x =? b
  | Call (S3ListObjectsV2 x _) => x =? b
  | Call (S3ListObjectVersions x _ k _) => (x =? b) && (k =? 1)%Z
  | Call (S3DeleteObjects x _) => x =? b
  | Call _ => false
  | LogInfo _ => true
  | LogWarn _ | ConsoleLog _ | SetTimeout _ => false
  end.

(** Requests to S3 other than the template upload, and logs. *)
Definition emptiesBuckets (e : event) : bool :=
  match e with
  | Call (S3GetBucketVersioning _) | Call (S3ListObjectsV2 _ _)
  | Call (S3ListObjectVersions _ _ _ _) | Call (S3DeleteObjects _ _) => true
  | Call _ => false
  | LogInfo _ => true
  | LogWarn _ | ConsoleLog _ | SetTimeout _ => false
  end.

(** What the promise body of upsertStack may do: CloudFormation requests, the
    reviewer prompt, logs and 5000 ms timers; no S3 request, no child
    process. *)
Definition reconciles (e : event) : bool :=
  match e with
  | Call (CfDescribeStacks _) | Call (CfCreateStack _) | Call (CfUpdateStack _)
  | Call (CfCreateChangeSet _) | Call (CfDescribeChangeSet _ _)
  | Call (CfExecuteChangeSet _) | Call (CfDeleteChangeSet _) | Call InquirerPrompt => true
  | Call _ => false
  | SetTimeout ms => (ms =? 5000)%Z
  | ConsoleLog _ => false
  | LogInfo _ | LogWarn _ => true
  end.

Definition isUpload (e : event) : bool :=
  match e with Call (S3Upload _) => true | _ => false end.
Definition isDeleteStack (e : event) : bool :=
  match e with Call (CfDeleteStack _) => true | _ => false end.
Definition isListVersions (e : event) : bool :=
  match e with Call (S3ListObjectVersions _ _ _ _) => true | _ => false end.

(** Number of version listings, and of delete batches, issued so far. *)
Definition versionListings {St : Type} (w : world St) : nat :=
  count isListVersions (trace w).
Definition deleteBatches {St : Type} (w : world St) : nat :=
  count isDeleteObjects (trace w).

Definition sameName (a b : option string) : bool :=
  match a, b with
  | Some x, Some y => x =? y
  | None, None => true
  | _, _ => false
  end.

(** What src/cloudFormation.js's upsertStack may do when its update requests
    carry the change-set name [c]: CloudFormation requests, the prompt, the
    CLI with its console lines, logs and 5000 ms timers; no S3 request, and
    no update request with another ChangeSetName. *)
Definition srcUpserts (c : option string) (e : event) : bool :=
  match e with
  | Call (CfUpdateStack p) => sameName (ChangeSetName p) c
  | Call (S3Upload _) | Call (S3ListObjectsV2 _ _) | Call (S3ListObjectVersions _ _ _ _)
  | Call (S3DeleteObjects _ _) | Call (S3GetBucketVersioning _) => false
  | Call _ => true
  | SetTimeout ms => (ms =? 5000)%Z
  | ConsoleLog _ | LogInfo _ | LogWarn _ => true
  end.

(** upsertStack as a whole: the body, and the upload. *)
Definition upserts (e : event) : bool := reconciles e || isUpload e.

(** One [key="value" ] group of the parameter overrides. *)
Definition override (p : parameter) : string :=
  ParameterKey p ++ "=" ++ String dquote (ParameterValue p) ++ String dquote " ".

(** The params upsertStack (the copy with options) builds for a template
    that lives in S3, and for one read from a local file. *)
Definition urlRequest (name url : string) (parameters : option (list parameter)) : params :=
  {| StackName := name;
     Capabilities := Some ["CAPABILITY_IAM"; "CAPABILITY_NAMED_IAM"; "CAPABILITY_AUTO_EXPAND"];
     Parameters := parameters;
     TemplateURL := Some url; TemplateBody := None; DisableRollback := None;
     ChangeSetName := None; ChangeSetType := None |}.

Definition bodyRequest (name body : string) (parameters : option (list parameter)) : params :=
  {| StackName := name;
     Capabilities := Some ["CAPABILITY_IAM"; "CAPABILITY_NAMED_IAM"; "CAPABILITY_AUTO_EXPAND"];
     Parameters := parameters;
     TemplateURL := None; TemplateBody := Some body; DisableRollback := None;
     ChangeSetName := None; ChangeSetType := None |}.

(** The scripted provider with uploads that read their body from the files
    of the script: the upload of a missing file fails with ENOENT and uses no
    reply. *)
Module Disk.

Definition answer (c : call) (s : Script.state) : response c * Script.state :=
  match c as c0 return response c0 * Script.state with
  | S3Upload p =>
      match Script.lookup (Script.files s) (up_Body p) with
      | Some _ => Script.answer (S3Upload p) s
      | None => (inl (ENOENT (up_Body p)), s)
      end
  | other => Script.answer other s
  end.

Definition provider : Provider Script.state :=
  {| handle := answer;
     readFile := fun s path => Script.lookup (Script.files s) path;
     now := Script.clock |}.

End Disk.

(** A provider whose stack is being deleted: [n] more describe requests show
    DELETE_IN_PROGRESS, after which the stack is gone; every other request
    is refused. *)
Module Countdown.

Definition gone : error :=
  {| name := "ValidationError"; message := "Stack with id app-stack does not exist" |}.

Definition refused : error := {| name := "AccessDenied"; message := "not allowed" |}.

Definition deleting : describeStacksOutput :=
  {| Stacks := [{| stk_StackName := "app-stack"; StackStatus := "DELETE_IN_PROGRESS";
                   Outputs := [] |}] |}.

Definition answer (c : call) (n : nat) : response c * nat :=
  match c return response c * nat with
  | CfDescribeStacks _ =>
      match n with
      | O => (inl gone, O)
      | S k => (inr deleting, k)
      end
  | CfDescribeChangeSet _ _ => (inl refused, n)
  | CfCreateStack _ | CfUpdateStack _ | CfDeleteStack _
  | CfCreateChangeSet _ | CfExecuteChangeSet _ | CfDeleteChangeSet _ => (Some refused, n)
  | S3Upload _ => (inl refused, n)
  | S3ListObjectsV2 _ _ => (inl refused, n)
  | S3ListObjectVersions _ _ _ _ => (inl refused, n)
  | S3DeleteObjects _ _ => (Some refused, n)
  | S3GetBucketVersioning _ => (inl refused, n)
  | InquirerPrompt => (false, n)
  | SpawnAws _ => ({| chunks := []; exitCode := None |}, n)
  end.

Definition provider : Provider nat :=
  {| handle := answer; readFile := fun _ _ => None; now := fun _ => 0%Z |}.

Definition start (n : nat) : world nat := {| env := n; trace := [] |}.

End Countdown.

(** A provider whose stack app-stack has a bucket among its outputs and is
    being deleted: [n] more describe requests show it in DELETE_IN_PROGRESS,
    after which it is gone.  The bucket is not versioned and holds nothing,
    the deletion of the stack is accepted, and every other request is
    refused. *)
Module Teardown.

Definition outputs : list output :=
  [ {| OutputKey := "LogsBucket"; OutputValue := "app-logs" |};
    {| OutputKey := "ApiUrl"; OutputValue := "https://api" |} ].

Definition deleting : describeStacksOutput :=
  {| Stacks := [{| stk_StackName := "app-stack"; StackStatus := "DELETE_IN_PROGRESS";
                   Outputs := outputs |}] |}.

Definition answer (c : call) (n : nat) : response c * nat :=
  match c return response c * nat with
  | CfDescribeStacks _ =>
      match n with
      | O => (inl Countdown.gone, O)
      | S k => (inr deleting, k)
      end
  | CfDescribeChangeSet _ _ => (inl Countdown.refused, n)
  | CfDeleteStack _ => (None, n)
  | CfCreateStack _ | CfUpdateStack _
  | CfCreateChangeSet _ | CfExecuteChangeSet _ | CfDeleteChangeSet _ =>
      (Some Countdown.refused, n)
  | S3Upload _ => (inl Countdown.refused, n)
  | S3ListObjectsV2 _ _ => (inr {| Contents := []; NextContinuationToken := None |}, n)
  | S3ListObjectVersions _ _ _ _ => (inl Countdown.refused, n)
  | S3DeleteObjects _ _ => (Some Countdown.refused, n)
  | S3GetBucketVersioning _ => (inr {| ver_Status := None |}, n)
  | InquirerPrompt => (false, n)
  | SpawnAws _ => ({| chunks := []; exitCode := None |}, n)
  end.

Definition provider : Provider nat :=
  {| handle := answer; readFile := fun _ _ => None; now := fun _ => 0%Z |}.

Definition start (n : nat) : world nat := {| env := n; trace := [] |}.

End Teardown.

(** ** config.js: the command line *)

Module Config.

(** What an option of the command line holds: [true] or a string. *)
Inductive value :=
| VTrue
| VStr (s : string).

(** An object through its own properties, in insertion order. *)
Fixpoint getProp {V : Type} (o : list (string * V)) (k : string) : option V :=
  match o with
  | [] => None
  | (k', v) :: rest => if k' =? k then Some v else getProp rest k
  end.

Fixpoint setProp {V : Type} (o : list (string * V)) (k : string) (v : V)
  : list (string * V) :=
  match o with
  | [] => [(k, v)]
  | (k', v') :: rest => if k' =? k then (k, v) :: rest else (k', v') :: setProp rest k v
  end.

(** [o[k] = v] for a primitive [v]: the key [__proto__] names no property. *)
Definition assign (o : list (string * value)) (k : string) (v : value)
  : list (string * value) :=
  if k =? "__proto__" then o else setProp o k v.

(** One step of the [reduce] over [process.argv]; the state is [options] and
    the closure variable [tba] ([None] for [null]). *)
Definition argvStep (st : list (string * value) * option string) (arg : string)
  : list (string * value) * option string :=
  let (options, tba) := st in
  if prefix "--" arg then
    let name := substring 2 (String.length arg - 2) arg in
    (assign options name VTrue, Some name)
  else
    (match tba with
     | Some name => if truthyStr (Some name) then assign options name (VStr arg) else options
     | None => options
     end, None).

Definition argv (args : list string) : list (string * value) :=
  fst (fold_left argvStep args ([], None)).

End Config.

(** ** glue.js: the batching helper of createPartitions *)

Module Glue.

(** [a.slice(i, j)] for [i <= j] *)
Definition slice {A : Type} (a : list A) (i j : nat) : list A := firstn (j - i) (skipn i a).

(** [cut(a, l)]: the [while (i < n)] loop, [c] being the chunks pushed so
    far; [None] when the fuel runs out. *)
Fixpoint cutLoop {A : Type} (fuel : nat) (a : list A) (l i : nat) (c : list (list A))
  : option (list (list A)) :=
  match fuel with
  | O => None
  | S fuel' =>
      if (i <? length a)%nat
      then cutLoop fuel' a l (i + l) (c ++ [slice a i (i + l)])
      else Some c
  end.

Definition cut {A : Type} (fuel : nat) (a : list A) (l : nat) : option (list (list A)) :=
  cutLoop fuel a l 0 [].

End Glue.

(** ** cloudWatch.js: deleting log groups *)

Module CloudWatch.

Record logGroup := { logGroupName : string }.

Record describeLogGroupsOutput := {
  logGroups : list logGroup;
  nextToken : option string
}.

Inductive request :=
| DescribeLogGroups (logGroupNamePrefix : string) (token : option string)
| DeleteLogGroup (name : string).

Definition reply (r : request) : Type :=
  match r with
  | DescribeLogGroups _ _ => (error + describeLogGroupsOutput)%type
  | DeleteLogGroup _ => option error
  end.

(** The CloudWatch Logs client as a state machine, and a run against it: the
    state of the service and the requests issued so far. *)
Record Logs (St : Type) := { answer : forall r : request, St -> reply r * St }.
Arguments answer {St} _ r _.

Record run (St : Type) := { service : St; requests : list request }.
Arguments service {St} _.
Arguments requests {St} _.

Section WithLogs.
Context {St : Type} (L : Logs St).

Definition send (r : request) (w : run St) : reply r * run St :=
  let (a, s) := answer L r (service w) in
  (a, {| service := s; requests := requests w ++ [r] |}).

Definition listLogGroups (filter : string) (continuationToken : option string)
  (w : run St) : outcome describeLogGroupsOutput * run St :=
  let (r, w) := send (DescribeLogGroups filter continuationToken) w in
  match r with
  | inl err => (Rejected (RError err), w)
  | inr data => (Resolved data, w)
  end.

Definition deleteLogGroup (name : string) (w : run St) : outcome unit * run St :=
  let (r, w) := send (DeleteLogGroup name) w in
  match r with
  | Some err => (Rejected (RError err), w)
  | None => (Resolved tt, w)
  end.

(** The [Promise.all] over the groups of a page, in the order of the page. *)
Fixpoint deleteAll (groups : list logGroup) (w : run St) : outcome unit * run St :=
  match groups with
  | [] => (Resolved tt, w)
  | log :: rest =>
      let (r, w) := deleteLogGroup (logGroupName log) w in
      let (rs, w) := deleteAll rest w in
      (joinAll r rs, w)
  end.

(** The inner [listAndDelete], which calls itself on the token it resolves
    with. *)
Fixpoint listAndDelete (fuel : nat) (filter : string) (continuationToken : option string)
  (w : run St) : outcome unit * run St :=
  match fuel with
  | O => (OutOfFuel, w)
  | S fuel' =>
      let (r, w) := listLogGroups filter continuationToken w in
      match r with
      | Resolved data =>
          let (page, w) :=
            if (0 <? length (logGroups data))%nat then
              let (d, w) := deleteAll (logGroups data) w in
              match d with
              | Resolved _ => (Resolved (nextToken data), w)
              | other => (forward other, w)
              end
            else (Resolved (nextToken data), w) in
          match page with
          | Resolved token =>
              if truthyStr token then listAndDelete fuel' filter token w
              else (Resolved tt, w)
          | other => (forward other, w)
          end
      | other => (forward other, w)
      end
  end.

Definition deleteLogGroups (fuel : nat) (filter : string) (w : run St)
  : outcome unit * run St :=
  listAndDelete fuel filter None w.

End WithLogs.
End CloudWatch.

(** A CloudWatch Logs service for the runs of deleteLogGroups. *)

Module Pages.
Import CloudWatch.

(** A CloudWatch Logs service that hands out the pages it holds, one per
    describe request, and accepts every delete. *)
Definition serve (r : request) (s : list describeLogGroupsOutput)
  : reply r * list describeLogGroupsOutput :=
  match r return reply r * list describeLogGroupsOutput with
  | DescribeLogGroups _ _ =>
      match s with
      | page :: rest => (inr page, rest)
      | [] => (inr {| logGroups := []; nextToken := None |}, [])
      end
  | DeleteLogGroup _ => (None, s)
  end.

Definition logs : Logs (list describeLogGroupsOutput) := {| answer := serve |}.

(** Page by page: the describe request with the token of the page before,
    then one delete per group of the page. *)
Fixpoint sweep (filter : string) (token : option string)
  (pages : list describeLogGroupsOutput) : list request :=
  match pages with
  | [] => []
  | page :: rest =>
      (DescribeLogGroups filter token
       :: map (fun log => DeleteLogGroup (logGroupName log)) (logGroups page))
      ++ sweep filter (nextToken page) rest
  end.

End Pages.
(** * Properties *)

Section Facts.
Context {St : Type} (P : Provider St).

Lemma perform_handle (c : call) (w : world St) (r : response c) (s : St) :
  handle P c (env w) = (r, s) ->
  perform P c w = (r, {| env := s; trace := trace w ++ [Call c] |}).
Proof. intros H. unfold perform. rewrite H. reflexivity. Qed.

End Facts.

(** *** The primitives on sample values *)

Example indexOf_samples :
  indexOf "Stack with id app-stack does not exist" "does not exist" = 24%Z
  /\ indexOf "Rate exceeded" "does not exist" = (-1)%Z
  /\ indexOf "does not exist" "does not exist" = 0%Z
  /\ truthyNum (-1) = true /\ truthyNum 0 = false.
Proof. repeat split. Qed.

Example transformMarker_samples :
  transformMarker "Transform: AWS::Serverless-2016-10-31" = true
  /\ transformMarker (String dquote ("Transform" ++ String dquote (" : "
                       ++ String dquote "AWS::Serverless-2016-10-31"))) = true
  /\ transformMarker "Transform: AWS::Include" = false
  /\ transformMarker "{}" = false.
Proof. repeat split. Qed.

(** White space of more than one byte between the colon and the value:
    U+00A0 (C2 A0), then U+2003 (E2 80 83) and U+FEFF (EF BB BF). *)
Example transformMarker_wide_space :
  let byte := ascii_of_nat in
  transformMarker ("Transform:" ++ String (byte 194) (String (byte 160) "AWS::Serverless"))
  = true
  /\ transformMarker
       ("Transform :" ++ String (byte 226) (String (byte 128) (String (byte 131)
          (String (byte 239) (String (byte 187) (String (byte 191) "AWS::Serverless"))))))
     = true
  /\ transformMarker ("Transform:" ++ String (byte 194) (String (byte 161) "AWS::Serverless"))
     = false.
Proof. repeat split. Qed.

Example endsWith_samples :
  endsWith "InfrastructureBucket" "Bucket" = true
  /\ endsWith "LogsBucket" "Bucket" = true
  /\ endsWith "LogsBucketArn" "Bucket" = false
  /\ endsWith "Arn" "Bucket" = false.
Proof. repeat split. Qed.

Example overrides_sample :
  CloudFormation.overrides
    (Some [{| ParameterKey := "Env"; ParameterValue := "dev" |};
           {| ParameterKey := "Size"; ParameterValue := "2" |}])
  = "Env=" ++ String dquote ("dev" ++ String dquote (" Size=" ++ String dquote ("2"
      ++ String dquote " "))).
Proof. reflexivity. Qed.

Example generateChangeSetName_sample :
  CloudFormation.generateChangeSetName Script.provider (Script.start [] [])
  = "cf-utils-cloudformation-upsert-stack-1700000000".
Proof. reflexivity. Qed.

(** deleteStack empties the bucket named by an output before it asks for
    the deletion, and polls until the stack is gone. *)
Example deleteStack_empties_buckets :
  let outs := [ {| OutputKey := "InfrastructureBucket"; OutputValue := "infra" |};
                {| OutputKey := "ApiUrl"; OutputValue := "https://api" |} ] in
  let gone := {| name := "ValidationError";
                 message := "Stack with id app-stack does not exist" |} in
  let r :=
    CloudFormation.deleteStack Script.provider 2 "app-stack"
      (Script.start []
         [ Script.Described (inr (Scenario.stackIn "UPDATE_COMPLETE" outs));
           Scenario.unversioned; Script.Listed (inr (Scenario.page 0 2 None)); Script.Ack None;
           Script.Ack None;
           Script.Described (inr (Scenario.stackIn "DELETE_IN_PROGRESS" outs));
           Script.Described (inl gone) ]) in
  fst r = Resolved None
  /\ actions (trace (snd r))
     = [ Call (CfDescribeStacks "app-stack");
         Call (S3GetBucketVersioning "infra");
         Call (S3ListObjectsV2 "infra" None);
         Call (S3DeleteObjects "infra" [ {| Key := "k0"; VersionId := None |};
                                         {| Key := "k1"; VersionId := None |} ]);
         Call (CfDeleteStack (stackNameParams "app-stack"));
         Call (CfDescribeStacks "app-stack");
         SetTimeout 5000;
         Call (CfDescribeStacks "app-stack") ].
Proof. vm_compute. repeat split. Qed.

(** *** Strings *)

Lemma includes_false_indexOf (s pat : string) :
  includes s pat = false -> indexOf s pat = (-1)%Z.
Proof.
  unfold includes, indexOf. destruct (index 0 pat s) as [i |]; [| reflexivity].
  intros H. apply Z.leb_gt in H. lia.
Qed.

Lemma includes_true_iff (s pat : string) :
  includes s pat = true <-> exists i, index 0 pat s = Some i.
Proof.
  unfold includes, indexOf. destruct (index 0 pat s) as [i |].
  - split; [eauto | intros _; apply Z.leb_le; lia].
  - split; [intros H; apply Z.leb_le in H; lia | intros [i H]; discriminate].
Qed.

Lemma substring_app_skip (p s : string) (m k : nat) :
  substring (String.length p + m) k (p ++ s) = substring m k s.
Proof. induction p as [| a p IH]; simpl; [reflexivity | exact IH]. Qed.

Lemma includes_app_r (p s pat : string) :
  pat <> "" -> includes s pat = true -> includes (p ++ s) pat = true.
Proof.
  intros Hne H. apply includes_true_iff in H. destruct H as [i Hi].
  apply index_correct1 in Hi.
  destruct (includes (p ++ s) pat) eqn:E; [reflexivity | exfalso].
  assert (Hnone : index 0 pat (p ++ s) = None).
  { unfold includes, indexOf in E. destruct (index 0 pat (p ++ s)); [| reflexivity].
    apply Z.leb_gt in E. lia. }
  apply (index_correct3 0 (String.length p + i) pat (p ++ s)) in Hnone; [| exact Hne | lia].
  apply Hnone. rewrite substring_app_skip. exact Hi.
Qed.

Lemma includes_toString (e : error) (pat : string) :
  pat <> "" -> includes (message e) pat = true -> includes (toString e) pat = true.
Proof.
  intros Hne H. unfold toString.
  destruct (name e =? "") eqn:En; [exact H |].
  destruct (message e =? "") eqn:Em.
  - apply String.eqb_eq in Em. rewrite Em in H.
    apply includes_true_iff in H. destruct H as [i Hi].
    destruct pat; [congruence | simpl in Hi; discriminate].
  - apply includes_app_r; [exact Hne |]. apply includes_app_r; assumption.
Qed.

(** *** Change-set polling *)

(** X1.  pollChangeSet of the copy with change-set deployment: the three
    completed states resolve with the descriptor; FAILED resolves empty when
    the reason contains one of the two no-change messages and rejects with
    "Changeset creation failed" otherwise. *)
Lemma pollChangeSet_terminal_states
  {St : Type} (P : Provider St) (fuel : nat) (params : params) (w : world St)
  (cs : changeSet) (s : St) :
  handle P (CfDescribeChangeSet (ChangeSetName params) (StackName params)) (env w)
  = (inr cs, s) ->
  let w1 := {| env := s;
               trace := trace w ++ [Call (CfDescribeChangeSet (ChangeSetName params)
                                                              (StackName params))] |} in
  (In (Status cs) ["CREATE_COMPLETE"; "UPDATE_COMPLETE"; "DELETE_COMPLETE"] ->
   fst (CloudFormation.pollChangeSet P (S fuel) params w) = Resolved (Some cs)) /\
  (forall why, Status cs = "FAILED" -> StatusReason cs = Some why ->
   (includes why "No updates are to be performed" = true
    \/ includes why "didn't contain changes" = true ->
    CloudFormation.pollChangeSet P (S fuel) params w
    = (Resolved None, info "No updates are to be performed" w1)) /\
   (includes why "No updates are to be performed" = false ->
    includes why "didn't contain changes" = false ->
    CloudFormation.pollChangeSet P (S fuel) params w
    = (Rejected (RError (Error "Changeset creation failed")),
       emit (LogWarn [LChangeSet cs]) w1))).
Proof.
  intros Hd w1. split.
  - intros Hin. cbn -[perform info emit]. rewrite (perform_handle P _ _ _ _ Hd).
    simpl in Hin.
    repeat (destruct Hin as [Hin | Hin]; [rewrite <- Hin; reflexivity |]). contradiction.
  - intros why Hs Hr. unfold includes.
    split; intros H; [| intros H'];
      cbn -[perform info emit indexOf]; rewrite (perform_handle P _ _ _ _ Hd);
      rewrite Hs, Hr; cbn -[info emit indexOf].
    + destruct H as [H | H]; rewrite H; [reflexivity | rewrite orb_true_r; reflexivity].
    + rewrite H, H'. reflexivity.
Qed.

(** *** deleteStack *)

(** C5.  deleteStack on a describe error whose message does not contain
    "does not exist": the promise is resolved (the error is treated as
    absence), not rejected. *)
Theorem deleteStack_other_describe_error_resolves
  {St : Type} (P : Provider St) (fuel : nat) (name : string) (w : world St)
  (err : error) (s : St) :
  handle P (CfDescribeStacks name) (env w) = (inl err, s) ->
  includes (message err) "does not exist" = false ->
  CloudFormation.deleteStack P fuel name w
  = (Resolved None,
     {| env := s;
        trace := trace w ++ [Call (CfDescribeStacks name);
                             LogInfo [LStr "Stack already deleted or never existed."]] |}).
Proof.
  intros Hd Hm. unfold CloudFormation.deleteStack.
  rewrite (perform_handle P _ _ _ _ Hd).
  rewrite (includes_false_indexOf _ _ Hm). unfold info, emit. simpl. rewrite <- app_assoc. reflexivity.
Qed.

Lemma deleteStack_other_describe_error_resolves_witness :
  CloudFormation.deleteStack Script.provider 1 "app-stack"
    (Script.start [] [Script.Described (inl Scenario.throttled)])
  = (Resolved None,
     {| env := {| Script.replies := []; Script.files := []; Script.clock := 1700000000000 |};
        trace := [Call (CfDescribeStacks "app-stack");
                  LogInfo [LStr "Stack already deleted or never existed."]] |}).
Proof.
  apply (deleteStack_other_describe_error_resolves Script.provider 1 "app-stack"
           (Script.start [] [Script.Described (inl Scenario.throttled)])
           Scenario.throttled); reflexivity.
Defined.

(** *** updateStack *)

(** C7 (as amended).  updateStack on a provider error: when the text of the
    error (toString, hence also its message) contains "No updates are to be
    performed" the call does not reject with that error; it logs, goes on to
    poll the stack and takes the outcome of that poll.  So it resolves with
    the describe result when the poll finds the stack in CREATE_COMPLETE or
    UPDATE_COMPLETE, and rejects with "Stack operation failed" when the poll
    finds it in a failure state.  Any other error rejects with the error
    unchanged. *)
Theorem updateStack_no_updates_is_noop
  {St : Type} (P : Provider St) (fuel : nat) (params : params) (w : world St)
  (err : error) (s : St) :
  handle P (CfUpdateStack params) (env w) = (Some err, s) ->
  let w1 := {| env := s; trace := trace w ++ [Call (CfUpdateStack params)] |} in
  (includes (message err) "No updates are to be performed" = true ->
   includes (toString err) "No updates are to be performed" = true) /\
  (includes (toString err) "No updates are to be performed" = true ->
   CloudFormation.updateStack P fuel params w
   = CloudFormation.pollStack P fuel params
       (info "There are no changes to apply, continuing...." w1)
   /\ forall data stack s',
        handle P (CfDescribeStacks (StackName params)) s = (inr data, s') ->
        nth_error (Stacks data) 0 = Some stack ->
        (isStackSuccess (StackStatus stack) = true ->
         fst (CloudFormation.updateStack P (S fuel) params w) = Resolved (Some data))
        /\ (isStackSuccess (StackStatus stack) = false ->
            isStackFailure (StackStatus stack) = true ->
            fst (CloudFormation.updateStack P (S fuel) params w)
            = Rejected (RError (Error "Stack operation failed")))) /\
  (includes (toString err) "No updates are to be performed" = false ->
   CloudFormation.updateStack P fuel params w = (Rejected (RError err), w1)).
Proof.
  intros Hd w1.
  assert (Hpoll : forall n,
             includes (toString err) "No updates are to be performed" = true ->
             CloudFormation.updateStack P n params w
             = CloudFormation.pollStack P n params
                 (info "There are no changes to apply, continuing...." w1)).
  { intros n H. unfold CloudFormation.updateStack. rewrite (perform_handle P _ _ _ _ Hd).
    unfold includes in H. rewrite H. reflexivity. }
  split; [| split].
  - apply includes_toString. discriminate.
  - intros H. split; [apply Hpoll; exact H |].
    intros data stack s' Hdesc Hs. rewrite (Hpoll (S fuel) H).
    cbn -[nth_error perform isStackSuccess isStackFailure info emit].
    rewrite (perform_handle P _ (info "There are no changes to apply, continuing...." w1)
               _ _ Hdesc), Hs.
    split.
    + intros Hok. rewrite Hok. reflexivity.
    + intros Hok Hko. rewrite Hok, Hko. reflexivity.
  - intros H. unfold CloudFormation.updateStack. rewrite (perform_handle P _ _ _ _ Hd).
    unfold includes in H. rewrite H. reflexivity.
Qed.

Lemma updateStack_no_updates_is_noop_witness :
  let err := {| name := "ValidationError"; message := "No updates are to be performed." |} in
  let w := Script.start [] [Script.Ack (Some err);
                            Script.Described (inr (Scenario.stackIn "UPDATE_COMPLETE" []))] in
  fst (CloudFormation.updateStack Script.provider 1 (stackNameParams "app-stack") w)
  = Resolved (Some (Scenario.stackIn "UPDATE_COMPLETE" [])).
Proof.
  intros err w.
  destruct (updateStack_no_updates_is_noop Script.provider 0 (stackNameParams "app-stack") w err
              {| Script.replies := [Script.Described (inr (Scenario.stackIn "UPDATE_COMPLETE" []))];
                 Script.files := []; Script.clock := 1700000000000 |} eq_refl)
    as [Hmsg [Hnoop _]].
  destruct (Hnoop (Hmsg eq_refl)) as [_ Hend].
  destruct (Hend (Scenario.stackIn "UPDATE_COMPLETE" [])
              {| stk_StackName := "app-stack"; StackStatus := "UPDATE_COMPLETE"; Outputs := [] |}
              {| Script.replies := []; Script.files := []; Script.clock := 1700000000000 |}
              eq_refl eq_refl) as [Hok _].
  exact (Hok eq_refl).
Defined.

(** A no-op update of a stack that an earlier update left rolled back: the
    "No updates" error is swallowed, the poll finds UPDATE_ROLLBACK_COMPLETE,
    and updateStack rejects. *)
Lemma updateStack_no_updates_can_reject :
  let err := {| name := "ValidationError"; message := "No updates are to be performed." |} in
  let w := Script.start []
             [ Script.Ack (Some err);
               Script.Described (inr (Scenario.stackIn "UPDATE_ROLLBACK_COMPLETE" [])) ] in
  includes (message err) "No updates are to be performed" = true
  /\ fst (CloudFormation.updateStack Script.provider 5 (stackNameParams "app-stack") w)
     = Rejected (RError (Error "Stack operation failed")).
Proof. vm_compute. split; reflexivity. Qed.

(** *** deployStack *)

Lemma append_assoc_s (a b c : string) : (a ++ b) ++ c = a ++ (b ++ c).
Proof. induction a as [| x a IH]; simpl; [reflexivity | rewrite IH; reflexivity]. Qed.

Lemma listen_spec {St : Type} (cs : list chunk) (err : string) (w : world St) :
  CloudFormation.listen cs err w
  = (err ++ stderrOf cs, {| env := env w; trace := trace w ++ echoed cs |}).
Proof.
  revert err w. induction cs as [| c cs IH]; intros err w; simpl.
  - rewrite app_nil_r. destruct w. simpl.
    assert (H : err ++ "" = err) by (induction err as [| x e IHe]; simpl; congruence).
    rewrite H. reflexivity.
  - destruct c as [d | d]; rewrite IH; unfold emit; simpl; rewrite <- app_assoc; simpl;
      [| rewrite append_assoc_s]; reflexivity.
Qed.

(** C8 (as amended).  deployStack goes on to describe the stack when the CLI
    exits with code 0, or with another code while its stderr contains "No
    changes to deploy"; otherwise it rejects with "Stack deploy failed" and
    describes nothing.  It can only resolve in the first two cases, and in
    them it takes the outcome of the describe request: it resolves with the
    first stack described, and rejects with the error of describeStacks when
    that request fails. *)
Theorem deployStack_success_rule
  {St : Type} (P : Provider St) (cfg : config) (name script : string)
  (parameters : option (list parameter)) (w : world St) (cli : processResult) (s : St) :
  let spawn :=
    SpawnAws [ "cloudformation"; "deploy"; "--profile"; AWS_PROFILE cfg;
               "--region"; AWS_REGION cfg; "--template-file"; script;
               "--stack-name"; name;
               "--capabilities"; "CAPABILITY_IAM"; "CAPABILITY_NAMED_IAM";
               " --parameter-overrides"; CloudFormation.overrides parameters ] in
  handle P spawn (env w) = (cli, s) ->
  let w1 := {| env := s; trace := trace w ++ Call spawn :: echoed (chunks cli) |} in
  let marked := includes (stderrOf (chunks cli)) "No changes to deploy" in
  let run := CloudFormation.deployStack P cfg name script parameters w in
  (exitCode cli = Some 0%Z -> run = CloudFormation.describeStack P name w1) /\
  (exitCode cli <> Some 0%Z -> marked = true ->
   run = CloudFormation.describeStack P name
           (info "There are no changes to apply, continuing...." w1)) /\
  (exitCode cli <> Some 0%Z -> marked = false ->
   run = (Rejected (RString "Stack deploy failed"), w1)) /\
  ((exists stack, fst run = Resolved stack) -> exitCode cli = Some 0%Z \/ marked = true) /\
  (exitCode cli = Some 0%Z \/ marked = true ->
   forall r s',
     handle P (CfDescribeStacks name) s = (r, s') ->
     fst run = match r with
               | inl err => Rejected (RError err)
               | inr data => Resolved (nth_error (Stacks data) 0)
               end).
Proof.
  intros spawn Hs w1 marked run.
  assert (Hrun : run =
    match exitCode cli with
    | Some 0%Z => CloudFormation.describeStack P name w1
    | _ => if marked
           then CloudFormation.describeStack P name
                  (info "There are no changes to apply, continuing...." w1)
           else (Rejected (RString "Stack deploy failed"), w1)
    end).
  { unfold run, CloudFormation.deployStack. fold spawn.
    rewrite (perform_handle P _ _ _ _ Hs). rewrite listen_spec. simpl env. simpl trace.
    rewrite <- app_assoc. simpl app. fold w1. reflexivity. }
  assert (Hdescribe : forall w0 r s',
             env w0 = s ->
             handle P (CfDescribeStacks name) s = (r, s') ->
             fst (CloudFormation.describeStack P name w0)
             = match r with
               | inl err => Rejected (RError err)
               | inr data => Resolved (nth_error (Stacks data) 0)
               end).
  { intros w0 r s' He Hd. unfold CloudFormation.describeStack, perform.
    rewrite He, Hd. destruct r; reflexivity. }
  repeat split.
  - intros H. rewrite Hrun, H. reflexivity.
  - intros H Hm. rewrite Hrun, Hm. destruct (exitCode cli) as [[| p | p] |]; congruence.
  - intros H Hm. rewrite Hrun, Hm. destruct (exitCode cli) as [[| p | p] |]; congruence.
  - intros [stack Hr]. rewrite Hrun in Hr.
    destruct (exitCode cli) as [[| p | p] |]; [left; reflexivity | | |];
      (destruct marked; [right; reflexivity | simpl in Hr; discriminate]).
  - intros Hcase r s' Hd. rewrite Hrun.
    destruct (exitCode cli) as [[| p | p] |];
      try (apply (Hdescribe w1 r s' eq_refl Hd));
      (destruct Hcase as [Hc | Hm]; [discriminate | rewrite Hm];
       apply (Hdescribe (info "There are no changes to apply, continuing...." w1) r s'
                eq_refl Hd)).
Qed.

Lemma deployStack_success_rule_witness :
  let cfg := {| AWS_PROFILE := "default"; AWS_REGION := "us-east-1" |} in
  let cli := {| chunks := [Stderr "No changes to deploy. Stack app-stack is up to date"];
                exitCode := Some 255%Z |} in
  let w := Script.start [] [Script.Exited cli;
                            Script.Described (inr (Scenario.stackIn "UPDATE_COMPLETE" []))] in
  fst (CloudFormation.deployStack Script.provider cfg "app-stack" "template.yaml" None w)
  = Resolved (nth_error (Stacks (Scenario.stackIn "UPDATE_COMPLETE" [])) 0).
Proof.
  intros cfg cli w.
  destruct (deployStack_success_rule Script.provider cfg "app-stack" "template.yaml" None w cli
              {| Script.replies := [Script.Described (inr (Scenario.stackIn "UPDATE_COMPLETE" []))];
                 Script.files := []; Script.clock := 1700000000000 |} eq_refl)
    as [_ [_ [_ [_ Hdescribed]]]].
  exact (Hdescribed (or_intror eq_refl)
           (inr (Scenario.stackIn "UPDATE_COMPLETE" []))
           {| Script.replies := []; Script.files := []; Script.clock := 1700000000000 |}
           eq_refl).
Defined.

(** A deployment that the CLI reports done (exit code 0) while the describe
    request that follows is throttled: deployStack rejects with the error of
    describeStacks. *)
Lemma deployStack_exit_zero_can_reject :
  let cfg := {| AWS_PROFILE := "default"; AWS_REGION := "us-east-1" |} in
  let cli := {| chunks := [Stdout "Successfully created/updated stack - app-stack"];
                exitCode := Some 0%Z |} in
  let w := Script.start [] [Script.Exited cli; Script.Described (inl Scenario.throttled)] in
  fst (CloudFormation.deployStack Script.provider cfg "app-stack" "template.yaml" None w)
  = Rejected (RError Scenario.throttled).
Proof. vm_compute. reflexivity. Qed.

(** *** Waiting and rechecking *)

Lemma actions_round (t : list event) (c : call) (l : list logArg) (ms : Z) :
  actions (t ++ [Call c; LogInfo l; SetTimeout ms]) = (actions t ++ [Call c; SetTimeout ms])%list.
Proof. unfold actions. rewrite filter_app. reflexivity. Qed.

Section Rounds.
Context {St : Type} (P : Provider St).

Lemma pollStack_round (params : params) (w : world St)
  (r : error + describeStacksOutput) (s : St) :
  handle P (CfDescribeStacks (StackName params)) (env w) = (r, s) ->
  stackInProgress r = true ->
  exists l, forall fuel,
    CloudFormation.pollStack P (S fuel) params w
    = CloudFormation.pollStack P fuel params
        {| env := s;
           trace := trace w ++ [Call (CfDescribeStacks (StackName params));
                                LogInfo l; SetTimeout 5000] |}.
Proof.
  intros Hd Hp. destruct r as [err | data]; [discriminate |].
  unfold stackInProgress in Hp.
  destruct (nth_error (Stacks data) 0) as [stack |] eqn:Hs; [| discriminate].
  apply andb_true_iff in Hp. destruct Hp as [H1 H2].
  apply negb_true_iff in H1. apply negb_true_iff in H2.
  eexists. intros fuel. cbn -[nth_error perform isStackSuccess isStackFailure info emit].
  rewrite (perform_handle P _ _ _ _ Hd), Hs, H1, H2.
  unfold info, emit. simpl. repeat rewrite <- app_assoc. reflexivity.
Qed.




End Rounds.

(** The loop shared by the two pollers: as long as the observation is in
    progress, a round costs one request and one 5000 ms timer. *)
Section Loop.
Context {St : Type} (P : Provider St) {A : Type}.
Variable poll : nat -> world St -> outcome A * world St.
Variable c : call.
Variable busy : response c -> bool.
Hypothesis round :
  forall w r s,
    handle P c (env w) = (r, s) -> busy r = true ->
    exists l, forall fuel,
      poll (S fuel) w
      = poll fuel {| env := s;
                     trace := trace w ++ [Call c; LogInfo l; SetTimeout 5000] |}.

Lemma loop_rounds (n : nat) :
  forall w,
    (forall i, i < n -> busy (fst (handle P c (afterAnswers P c i (env w)))) = true) ->
    exists w',
      env w' = afterAnswers P c n (env w) /\
      actions (trace w')
      = (actions (trace w) ++ concat (repeat [Call c; SetTimeout 5000] n))%list /\
      forall fuel, poll (n + fuel) w = poll fuel w'.
Proof.
  induction n as [| n IH]; intros w Hbusy.
  - exists w. simpl. rewrite app_nil_r. auto.
  - destruct (handle P c (env w)) as [r s] eqn:Hd.
    assert (Hr : busy r = true).
    { specialize (Hbusy 0 (Nat.lt_0_succ n)). simpl in Hbusy. rewrite Hd in Hbusy. exact Hbusy. }
    destruct (round w r s Hd Hr) as [l Hl].
    destruct (IH {| env := s; trace := trace w ++ [Call c; LogInfo l; SetTimeout 5000] |})
      as [w' [He [Ha Hp]]].
    { intros i Hi. specialize (Hbusy (S i) (proj1 (Nat.succ_lt_mono i n) Hi)).
      simpl in Hbusy. rewrite Hd in Hbusy. exact Hbusy. }
    simpl in He, Ha.
    exists w'. simpl. rewrite Hd. simpl. split; [exact He | split].
    + rewrite Ha, actions_round, <- app_assoc. reflexivity.
    + intros fuel. rewrite Hl. apply Hp.
Qed.

End Loop.



(** *** Terminal states of the pollers: concrete runs *)

(** Two different describe results in ROLLBACK_COMPLETE are rejected with
    the very same error: the rejection carries no stack detail. *)
Lemma pollStack_error_omits_stack_detail :
  let run outs :=
    fst (CloudFormation.pollStack Script.provider 1 (stackNameParams "app-stack")
           (Script.start [] [Script.Described (inr (Scenario.stackIn "ROLLBACK_COMPLETE" outs))])) in
  let logs := [{| OutputKey := "LogsBucket"; OutputValue := "app-logs" |}] in
  Scenario.stackIn "ROLLBACK_COMPLETE" [] <> Scenario.stackIn "ROLLBACK_COMPLETE" logs
  /\ run [] = Rejected (RError {| name := "Error"; message := "Stack operation failed" |})
  /\ run logs = run [].
Proof. repeat split. discriminate. Qed.

(** C3.  The FAILED branch of pollChangeSet in src/cloudFormation.js, run
    on two reasons: a reason unrelated to missing changes resolves empty,
    and a reason that starts with "didn't contain changes" rejects.  The copy
    with change-set deployment does the opposite on both, as intended. *)
Theorem src_pollChangeSet_failed_reason_test :
  let failed why :=
    Script.start [] [Script.ChangeSetIs (inr (Scenario.changeSetIn "FAILED" (Some why)))] in
  let csParams := changeSetParams "app-stack" "cf-utils-app-stack-preview" in
  fst (SrcCloudFormation.pollChangeSet Script.provider 1 csParams
         (failed "Parameter values specified for a template which does not require them."))
  = Resolved None
  /\ fst (SrcCloudFormation.pollChangeSet Script.provider 1 csParams
            (failed "didn't contain changes"))
     = Rejected (RError (Error "Changeset creation failed"))
  /\ fst (CloudFormation.pollChangeSet Script.provider 1 csParams
            (failed "Parameter values specified for a template which does not require them."))
     = Rejected (RError (Error "Changeset creation failed"))
  /\ fst (CloudFormation.pollChangeSet Script.provider 1 csParams
            (failed "didn't contain changes"))
     = Resolved None.
Proof. repeat split. Qed.

(** *** Terminal states of the stack poller *)

(** C2 (as amended).  In both copies of pollStack, a describe result whose
    status is CREATE_COMPLETE or UPDATE_COMPLETE resolves with that result,
    and a status among ROLLBACK_COMPLETE, CREATE_FAILED, UPDATE_FAILED,
    DELETE_FAILED and UPDATE_ROLLBACK_COMPLETE rejects with an Error whose
    only content is the message "Stack operation failed"; the full describe
    result goes to the warn log.  In either case the describe request is the
    last request: no timer, no further poll. *)
Theorem pollStack_terminal_states
  {St : Type} (P : Provider St) (fuel : nat) (params : params) (w : world St)
  (data : describeStacksOutput) (stack : stack) (s : St) :
  handle P (CfDescribeStacks (StackName params)) (env w) = (inr data, s) ->
  nth_error (Stacks data) 0 = Some stack ->
  let seen := (trace w ++ [Call (CfDescribeStacks (StackName params))])%list in
  (In (StackStatus stack) ["CREATE_COMPLETE"; "UPDATE_COMPLETE"] ->
   let done := {| env := s; trace := seen ++ [LogInfo [LStr "Stack operation completed"]] |} in
   CloudFormation.pollStack P (S fuel) params w = (Resolved (Some data), done) /\
   SrcCloudFormation.pollStack P (S fuel) params w = (Resolved (Some data), done)) /\
  (In (StackStatus stack)
      ["ROLLBACK_COMPLETE"; "CREATE_FAILED"; "UPDATE_FAILED"; "DELETE_FAILED";
       "UPDATE_ROLLBACK_COMPLETE"] ->
   let failed := {| env := s; trace := seen ++ [LogWarn [LStackDetails data]] |} in
   let err := {| name := "Error"; message := "Stack operation failed" |} in
   CloudFormation.pollStack P (S fuel) params w = (Rejected (RError err), failed) /\
   SrcCloudFormation.pollStack P (S fuel) params w = (Rejected (RError err), failed)).
Proof.
  intros Hd Hs seen.
  split; intros Hin; cbn zeta;
    cbn -[nth_error perform isStackSuccess isStackFailure info emit];
    rewrite (perform_handle P _ _ _ _ Hd); rewrite Hs;
    simpl in Hin; repeat (destruct Hin as [Hin | Hin]; [rewrite <- Hin; split; reflexivity |]);
    contradiction.
Qed.

Lemma pollStack_terminal_states_witness :
  let data := Scenario.stackIn "CREATE_FAILED" [] in
  let w := Script.start [] [Script.Described (inr data)] in
  CloudFormation.pollStack Script.provider 1 (stackNameParams "app-stack") w
  = (Rejected (RError {| name := "Error"; message := "Stack operation failed" |}),
     {| env := {| Script.replies := []; Script.files := []; Script.clock := 1700000000000 |};
        trace := [Call (CfDescribeStacks "app-stack"); LogWarn [LStackDetails data]] |}).
Proof.
  intros data w.
  refine (proj1 (proj2 (pollStack_terminal_states Script.provider 0 (stackNameParams "app-stack")
                          w data
                          {| stk_StackName := "app-stack"; StackStatus := "CREATE_FAILED";
                             Outputs := [] |}
                          {| Script.replies := []; Script.files := []; Script.clock := 1700000000000 |}
                          eq_refl eq_refl) _)).
  simpl. auto.
Defined.

(** *** emptyBucket *)

(** C1.  Paging of emptyBucket, run on a bucket that the provider lists in
    three pages of 1000, 1000 and 42 objects: the routine resolves after two
    list requests and two delete batches, and the third page (with its
    delete) is never asked for.  emptyBucket follows the continuation token
    once only. *)
Theorem emptyBucket_three_pages :
  let r := S3.emptyBucket Script.provider "app-logs" (Script.start [] Scenario.threePages) in
  fst r = Resolved tt
  /\ count isListObjects (trace (snd r)) = 2
  /\ count isDeleteObjects (trace (snd r)) = 2
  /\ Script.replies (env (snd r))
     = [Script.Listed (inr (Scenario.page 2000 42 None)); Script.Ack None].
Proof. vm_compute. repeat split. Qed.

(** An empty listing ends the routine without any delete request. *)
Lemma emptyBucket_already_empty :
  let r := S3.emptyBucket Script.provider "app-logs" (Script.start [] Scenario.emptyListing) in
  fst r = Resolved tt
  /\ trace (snd r)
     = [Call (S3GetBucketVersioning "app-logs"); Call (S3ListObjectsV2 "app-logs" None)].
Proof. vm_compute. repeat split. Qed.

Section Counting.
Context {St : Type} (P : Provider St).

Lemma listings_emit (e : event) (w : world St) :
  listings (emit e w) = listings w + (if isListObjects e then 1 else 0).
Proof.
  unfold listings, count, emit. simpl. rewrite filter_app, length_app. simpl.
  destruct (isListObjects e); reflexivity.
Qed.

Lemma listings_perform (c : call) (w : world St) :
  listings (snd (perform P c w)) = listings w + (if isListObjects (Call c) then 1 else 0).
Proof.
  unfold perform. destruct (handle P c (env w)) as [r s].
  unfold listings, count. simpl. rewrite filter_app, length_app. simpl.
  destruct c; reflexivity.
Qed.

Lemma listings_deleteObjects (b : string) (keys : list objectId) (w : world St) :
  listings (snd (S3.deleteObjects P b keys w)) = listings w.
Proof.
  unfold S3.deleteObjects.
  pose proof (listings_perform (S3DeleteObjects b keys) w) as H.
  destruct (perform P (S3DeleteObjects b keys) w) as [r w1]. simpl in H.
  destruct r; simpl; lia.
Qed.

Lemma listings_listObjectVersions (b : string) (k : objectId) (t : option string) (w : world St) :
  listings (snd (S3.listObjectVersions P b k t w)) = listings w.
Proof.
  unfold S3.listObjectVersions.
  pose proof (listings_perform (S3ListObjectVersions b k 1 t) w) as H.
  destruct (perform P (S3ListObjectVersions b k 1 t) w) as [r w1]. simpl in H.
  destruct r; simpl; lia.
Qed.

Lemma listings_listAndDeleteVersions (b : string) (k : objectId) (t : option string)
  (w : world St) :
  listings (snd (S3.listAndDeleteVersions P b k t w)) = listings w.
Proof.
  unfold S3.listAndDeleteVersions.
  pose proof (listings_listObjectVersions b k t w) as H.
  destruct (S3.listObjectVersions P b k t w) as [r w1]. simpl in H.
  destruct r as [data | | | |]; simpl; try lia.
  destruct (0 <? length (Versions data))%nat; simpl; [| lia].
  match goal with |- context [S3.deleteObjects P b ?ks w1] =>
    pose proof (listings_deleteObjects b ks w1) as H1;
    destruct (S3.deleteObjects P b ks w1) as [d w2] end.
  simpl in H1. destruct d; simpl; lia.
Qed.

Lemma listings_deleteVersionsOfKey (b : string) (k : objectId) (w : world St) :
  listings (snd (S3.deleteVersionsOfKey P b k w)) = listings w.
Proof.
  unfold S3.deleteVersionsOfKey.
  pose proof (listings_listAndDeleteVersions b k None w) as H.
  destruct (S3.listAndDeleteVersions P b k None w) as [r w1]. simpl in H.
  destruct r as [t | | | |]; simpl; try lia.
  destruct (truthyStr t); simpl; [| lia].
  pose proof (listings_listAndDeleteVersions b k t w1) as H1.
  destruct (S3.listAndDeleteVersions P b k t w1) as [r2 w2]. simpl in H1.
  destruct r2; simpl; lia.
Qed.

Lemma listings_deleteVersionedObjects (b : string) (keys : list objectId) (w : world St) :
  listings (snd (S3.deleteVersionedObjects P b keys w)) = listings w.
Proof.
  unfold S3.deleteVersionedObjects. revert w.
  induction keys as [| k keys IH]; intros w; simpl; [reflexivity |].
  pose proof (listings_deleteVersionsOfKey b k w) as H.
  destruct (S3.deleteVersionsOfKey P b k w) as [r w1]. simpl in H.
  specialize (IH w1).
  destruct (promiseAll (map (S3.deleteVersionsOfKey P b) keys) w1) as [rs w2].
  simpl in *. lia.
Qed.

Lemma listings_listAndDelete (b : string) (v : bool) (t : option string) (w : world St) :
  listings (snd (S3.listAndDelete P b v t w)) = listings w + 1.
Proof.
  unfold S3.listAndDelete, S3.listObjects.
  pose proof (listings_perform (S3ListObjectsV2 b t) w) as H.
  destruct (perform P (S3ListObjectsV2 b t) w) as [r w1]. simpl in H.
  destruct r as [err | data]; simpl; [lia |].
  destruct (0 <? length (Contents data))%nat; simpl; [| lia].
  destruct v.
  - match goal with |- context [S3.deleteVersionedObjects P b ?ks w1] =>
      pose proof (listings_deleteVersionedObjects b ks w1) as H1;
      destruct (S3.deleteVersionedObjects P b ks w1) as [d w2] end.
    simpl in H1. destruct d; simpl; lia.
  - match goal with |- context [S3.deleteObjects P b ?ks w1] =>
      pose proof (listings_deleteObjects b ks w1) as H1;
      destruct (S3.deleteObjects P b ks w1) as [d w2] end.
    simpl in H1. destruct d; simpl; lia.
Qed.

(** X2.  Whatever the provider answers, versioned or not, emptyBucket issues
    at most two list requests. *)
Lemma emptyBucket_lists_at_most_twice (b : string) (w : world St) :
  listings (snd (S3.emptyBucket P b w)) <= listings w + 2.
Proof.
  unfold S3.emptyBucket.
  pose proof (listings_perform (S3GetBucketVersioning b) w) as H.
  destruct (perform P (S3GetBucketVersioning b) w) as [r w1]. simpl in H.
  destruct r as [err | data].
  - destruct (includes (toString err) "The specified bucket does not exist"); simpl.
    + rewrite listings_emit. simpl. lia.
    + lia.
  - match goal with |- context [S3.listAndDelete P b ?v None w1] =>
      pose proof (listings_listAndDelete b v None w1) as H1;
      destruct (S3.listAndDelete P b v None w1) as [r1 w2];
      simpl in H1; destruct r1 as [t | | | |]; simpl; try lia;
      destruct (truthyStr t); simpl; [| lia];
      pose proof (listings_listAndDelete b v t w2) as H2;
      destruct (S3.listAndDelete P b v t w2) as [r2 w3] end.
    simpl in H2. destruct r2; simpl; lia.
Qed.

End Counting.

(** *** upsertStack: a template that does not exist *)







(** *** upsertStack: staging without a prefix *)



(** *** upsertStack with review *)

(** C4.  upsertStack with review on an existing stack with zero drift: the
    preview change set is created, found empty, and the call resolves with
    the unchanged stack without any deleteChangeSet request. *)
Theorem upsertStack_review_noop_leaves_change_set :
  let r :=
    CloudFormation.upsertStack Script.provider 3 "app-stack" "template.json" (Some [])
      Scenario.reviewOptions (Script.start Scenario.templates Scenario.zeroDrift) in
  fst r = Resolved (Some (Scenario.stackIn "UPDATE_COMPLETE" []))
  /\ actions (trace (snd r))
     = [ Call (CfDescribeStacks "app-stack");
         Call (CfCreateChangeSet Scenario.previewRequest);
         Call (CfDescribeChangeSet (Some "cf-utils-app-stack-preview") "app-stack");
         Call (CfDescribeStacks "app-stack") ]
  /\ count isDeleteChangeSet (trace (snd r)) = 0.
Proof. vm_compute. repeat split. Qed.

(** When the change set is populated, the preview is deleted right after
    the reviewer's answer, on rejection and on acceptance. *)
Lemma upsertStack_review_answered_deletes_change_set :
  let run answer :=
    CloudFormation.upsertStack Script.provider 3 "app-stack" "template.json" (Some [])
      Scenario.reviewOptions (Script.start Scenario.templates (Scenario.reviewed answer)) in
  let preview :=
    [ Call (CfDescribeStacks "app-stack");
      Call (CfCreateChangeSet Scenario.previewRequest);
      Call (CfDescribeChangeSet (Some "cf-utils-app-stack-preview") "app-stack");
      Call InquirerPrompt;
      Call (CfDeleteChangeSet (changeSetParams "app-stack" "cf-utils-app-stack-preview"));
      Call (CfDescribeChangeSet (Some "cf-utils-app-stack-preview") "app-stack") ] in
  fst (run false) = Rejected (RString "Reviewer rejected stack update")
  /\ actions (trace (snd (run false))) = preview
  /\ fst (run true) = Resolved (Some (Scenario.stackIn "UPDATE_COMPLETE" []))
  /\ actions (trace (snd (run true)))
     = (preview ++ [ Call (CfUpdateStack Scenario.updateRequest);
                     Call (CfDescribeStacks "app-stack") ])%list.
Proof. vm_compute. repeat split. Qed.

(** ** Further properties *)

(** *** Traces that only grow by permitted events *)

Section OnlyAdds.
Context {St : Type} (P : Provider St).

Lemma onlyAdds_refl (q : event -> bool) (w : world St) : onlyAdds q w w.
Proof. exists []. rewrite app_nil_r. split; reflexivity. Qed.

Lemma onlyAdds_trans (q : event -> bool) (w1 w2 w3 : world St) :
  onlyAdds q w1 w2 -> onlyAdds q w2 w3 -> onlyAdds q w1 w3.
Proof.
  intros [a [Ha Hqa]] [b [Hb Hqb]]. exists (a ++ b)%list. split.
  - rewrite Hb, Ha, app_assoc. reflexivity.
  - rewrite forallb_app, Hqa, Hqb. reflexivity.
Qed.

Lemma onlyAdds_weaken (q q' : event -> bool) (w w' : world St) :
  (forall e, q e = true -> q' e = true) -> onlyAdds q w w' -> onlyAdds q' w w'.
Proof.
  intros Hq [a [Ha Hqa]]. exists a. split; [exact Ha |].
  rewrite forallb_forall in *. auto.
Qed.

Lemma onlyAdds_emit (q : event -> bool) (e : event) (w : world St) :
  q e = true -> onlyAdds q w (emit e w).
Proof. intros H. exists [e]. simpl. rewrite H. auto. Qed.

Lemma onlyAdds_perform (q : event -> bool) (c : call) (w : world St) :
  q (Call c) = true -> onlyAdds q w (snd (perform P c w)).
Proof.
  intros H. unfold perform. destruct (handle P c (env w)) as [r s].
  exists [Call c]. simpl. rewrite H. auto.
Qed.

Lemma onlyAdds_count (q f : event -> bool) (w w' : world St) :
  (forall e, q e = true -> f e = false) ->
  onlyAdds q w w' -> count f (trace w') = count f (trace w).
Proof.
  intros Hqf [a [Ha Hqa]]. unfold count. rewrite Ha, filter_app, length_app.
  assert (Hnil : filter f a = []).
  { clear Ha. induction a as [| e a IH]; [reflexivity |].
    simpl in Hqa. apply andb_true_iff in Hqa. destruct Hqa as [He Hrest].
    simpl. rewrite (Hqf e He). auto. }
  rewrite Hnil. simpl. lia.
Qed.

(** A step [f] followed by the rest of the run. *)
Lemma onlyAdds_then (q : event -> bool) (w w1 w2 : world St) :
  onlyAdds q w w1 -> onlyAdds q w1 w2 -> onlyAdds q w w2.
Proof. apply onlyAdds_trans. Qed.

End OnlyAdds.

(** [adds] closes goals [onlyAdds q w w'] where [w'] is [w] after logs and
    timers, given what is known of the steps before. *)
Ltac adds :=
  repeat first
    [ assumption
    | apply onlyAdds_refl
    | match goal with
      | |- onlyAdds _ _ (emit _ _) =>
          eapply onlyAdds_trans; [| apply onlyAdds_emit; reflexivity]
      | |- onlyAdds _ _ (info _ _) =>
          eapply onlyAdds_trans; [| apply onlyAdds_emit; reflexivity]
      end ].

Section Pollers.
Context {St : Type} (P : Provider St).

Lemma pollStack_onlyAdds (fuel : nat) (params : params) :
  forall w, onlyAdds (pollsStack (StackName params)) w
              (snd (CloudFormation.pollStack P fuel params w)).
Proof.
  induction fuel as [| fuel IH]; intros w; [apply onlyAdds_refl |].
  cbn -[nth_error perform isStackSuccess isStackFailure info emit].
  pose proof (onlyAdds_perform P (pollsStack (StackName params))
                (CfDescribeStacks (StackName params)) w) as Hp.
  simpl in Hp. rewrite String.eqb_refl in Hp. specialize (Hp eq_refl).
  destruct (perform P (CfDescribeStacks (StackName params)) w) as [r w1]. simpl in Hp.
  destruct r as [err | data].
  - destruct (0 <=? indexOf (message err) "does not exist")%Z; simpl; adds.
  - destruct (nth_error (Stacks data) 0) as [stack |]; [| exact Hp].
    destruct (isStackSuccess (StackStatus stack)); [simpl; adds |].
    destruct (isStackFailure (StackStatus stack)); [simpl; adds |].
    eapply onlyAdds_trans; [| apply IH]. adds.
Qed.

Lemma pollsChangeSet_self (csName : option string) (name : string) :
  pollsChangeSet csName name (Call (CfDescribeChangeSet csName name)) = true.
Proof.
  simpl. rewrite String.eqb_refl. destruct csName as [c |]; [| reflexivity].
  rewrite String.eqb_refl. reflexivity.
Qed.

Lemma pollChangeSet_onlyAdds (fuel : nat) (params : params) :
  forall w, onlyAdds (pollsChangeSet (ChangeSetName params) (StackName params)) w
              (snd (CloudFormation.pollChangeSet P fuel params w)).
Proof.
  induction fuel as [| fuel IH]; intros w; [apply onlyAdds_refl |].
  cbn -[perform info emit String.eqb indexOf pollsChangeSet].
  pose proof (onlyAdds_perform P _ _ w
                (pollsChangeSet_self (ChangeSetName params) (StackName params))) as Hp.
  destruct (perform P (CfDescribeChangeSet (ChangeSetName params) (StackName params)) w)
    as [r w1]. simpl in Hp.
  destruct r as [err | cs].
  - destruct (0 <=? indexOf (message err) "does not exist")%Z; simpl; adds.
  - destruct (Status cs =? "CREATE_COMPLETE"); [simpl; adds |].
    destruct ((Status cs =? "UPDATE_COMPLETE") || (Status cs =? "DELETE_COMPLETE"));
      [simpl; adds |].
    destruct (Status cs =? "FAILED").
    + destruct (StatusReason cs) as [why |]; [| simpl; adds].
      destruct ((0 <=? indexOf why "No updates are to be performed")%Z
                || (0 <=? indexOf why "didn't contain changes")%Z); simpl; adds.
    + eapply onlyAdds_trans; [| apply IH]. adds.
Qed.

End Pollers.

(** X3.  Whatever the provider answers and however long they run, the two
    pollers only read: pollStack issues describeStacks requests for the
    polled stack and nothing else, pollChangeSet describeChangeSet requests
    for the polled change set, and every timer either sets is 5000 ms. *)
Theorem pollers_only_describe
  {St : Type} (P : Provider St) (fuel : nat) (params : params) (w : world St) :
  onlyAdds (pollsStack (StackName params)) w
    (snd (CloudFormation.pollStack P fuel params w))
  /\ onlyAdds (pollsChangeSet (ChangeSetName params) (StackName params)) w
       (snd (CloudFormation.pollChangeSet P fuel params w)).
Proof. split; [apply pollStack_onlyAdds | apply pollChangeSet_onlyAdds]. Qed.

(** *** What emptying a bucket touches *)

Section BucketScope.
Context {St : Type} (P : Provider St).
Variable b : string.

Lemma deleteObjects_scope (keys : list objectId) (w : world St) :
  onlyAdds (touchesBucket b) w (snd (S3.deleteObjects P b keys w)).
Proof.
  unfold S3.deleteObjects.
  pose proof (onlyAdds_perform P (touchesBucket b) (S3DeleteObjects b keys) w) as H.
  simpl in H. rewrite String.eqb_refl in H. specialize (H eq_refl).
  destruct (perform P (S3DeleteObjects b keys) w) as [r w1]. destruct r; exact H.
Qed.

Lemma listObjectVersions_scope (k : objectId) (t : option string) (w : world St) :
  onlyAdds (touchesBucket b) w (snd (S3.listObjectVersions P b k t w)).
Proof.
  unfold S3.listObjectVersions.
  pose proof (onlyAdds_perform P (touchesBucket b) (S3ListObjectVersions b k 1 t) w) as H.
  simpl in H. rewrite String.eqb_refl in H. specialize (H eq_refl).
  destruct (perform P (S3ListObjectVersions b k 1 t) w) as [r w1]. destruct r; exact H.
Qed.

Lemma listObjects_scope (t : option string) (w : world St) :
  onlyAdds (touchesBucket b) w (snd (S3.listObjects P b t w)).
Proof.
  unfold S3.listObjects.
  pose proof (onlyAdds_perform P (touchesBucket b) (S3ListObjectsV2 b t) w) as H.
  simpl in H. rewrite String.eqb_refl in H. specialize (H eq_refl).
  destruct (perform P (S3ListObjectsV2 b t) w) as [r w1]. destruct r; exact H.
Qed.

Lemma listAndDeleteVersions_scope (k : objectId) (t : option string) (w : world St) :
  onlyAdds (touchesBucket b) w (snd (S3.listAndDeleteVersions P b k t w)).
Proof.
  unfold S3.listAndDeleteVersions.
  pose proof (listObjectVersions_scope k t w) as H.
  destruct (S3.listObjectVersions P b k t w) as [r w1]. simpl in H.
  destruct r as [data | | | |]; simpl; try exact H.
  destruct (0 <? length (Versions data))%nat; simpl; [| exact H].
  match goal with |- context [S3.deleteObjects P b ?ks w1] =>
    pose proof (deleteObjects_scope ks w1) as H1;
    destruct (S3.deleteObjects P b ks w1) as [d w2] end.
  simpl in H1. destruct d; simpl; eapply onlyAdds_trans; eassumption.
Qed.

Lemma deleteVersionsOfKey_scope (k : objectId) (w : world St) :
  onlyAdds (touchesBucket b) w (snd (S3.deleteVersionsOfKey P b k w)).
Proof.
  unfold S3.deleteVersionsOfKey.
  pose proof (listAndDeleteVersions_scope k None w) as H.
  destruct (S3.listAndDeleteVersions P b k None w) as [r w1]. simpl in H.
  destruct r as [t | | | |]; simpl; try exact H.
  destruct (truthyStr t); simpl; [| exact H].
  pose proof (listAndDeleteVersions_scope k t w1) as H1.
  destruct (S3.listAndDeleteVersions P b k t w1) as [r2 w2]. simpl in H1.
  destruct r2; simpl; eapply onlyAdds_trans; eassumption.
Qed.

Lemma deleteVersionedObjects_scope (keys : list objectId) (w : world St) :
  onlyAdds (touchesBucket b) w (snd (S3.deleteVersionedObjects P b keys w)).
Proof.
  unfold S3.deleteVersionedObjects. revert w.
  induction keys as [| k keys IH]; intros w; simpl; [apply onlyAdds_refl |].
  pose proof (deleteVersionsOfKey_scope k w) as H.
  destruct (S3.deleteVersionsOfKey P b k w) as [r w1]. simpl in H.
  specialize (IH w1).
  destruct (promiseAll (map (S3.deleteVersionsOfKey P b) keys) w1) as [rs w2].
  simpl in *. eapply onlyAdds_trans; eassumption.
Qed.

Lemma listAndDelete_scope (v : bool) (t : option string) (w : world St) :
  onlyAdds (touchesBucket b) w (snd (S3.listAndDelete P b v t w)).
Proof.
  unfold S3.listAndDelete.
  pose proof (listObjects_scope t w) as H.
  destruct (S3.listObjects P b t w) as [r w1]. simpl in H.
  destruct r as [data | | | |]; simpl; try exact H.
  destruct (0 <? length (Contents data))%nat; simpl; [| exact H].
  destruct v.
  - match goal with |- context [S3.deleteVersionedObjects P b ?ks w1] =>
      pose proof (deleteVersionedObjects_scope ks w1) as H1;
      destruct (S3.deleteVersionedObjects P b ks w1) as [d w2] end.
    simpl in H1. destruct d; simpl; eapply onlyAdds_trans; eassumption.
  - match goal with |- context [S3.deleteObjects P b ?ks w1] =>
      pose proof (deleteObjects_scope ks w1) as H1;
      destruct (S3.deleteObjects P b ks w1) as [d w2] end.
    simpl in H1. destruct d; simpl; eapply onlyAdds_trans; eassumption.
Qed.

Lemma emptyBucket_scope (w : world St) :
  onlyAdds (touchesBucket b) w (snd (S3.emptyBucket P b w)).
Proof.
  unfold S3.emptyBucket.
  pose proof (onlyAdds_perform P (touchesBucket b) (S3GetBucketVersioning b) w) as H.
  simpl in H. rewrite String.eqb_refl in H. specialize (H eq_refl).
  destruct (perform P (S3GetBucketVersioning b) w) as [r w1]. simpl in H.
  destruct r as [err | data].
  - destruct (includes (toString err) "The specified bucket does not exist"); simpl; adds.
  - match goal with |- context [S3.listAndDelete P b ?v None w1] =>
      pose proof (listAndDelete_scope v None w1) as H1;
      destruct (S3.listAndDelete P b v None w1) as [r1 w2];
      simpl in H1; destruct r1 as [t | | | |]; simpl;
      try (eapply onlyAdds_trans; eassumption);
      destruct (truthyStr t); simpl; [| eapply onlyAdds_trans; eassumption];
      pose proof (listAndDelete_scope v t w2) as H2;
      destruct (S3.listAndDelete P b v t w2) as [r2 w3] end.
    simpl in H2.
    destruct r2; simpl; (eapply onlyAdds_trans; [| eassumption]);
      eapply onlyAdds_trans; eassumption.
Qed.

End BucketScope.

(** X4.  Whatever the provider answers, emptyBucket(b) issues only S3 requests
    on the bucket [b] (versioning, listings, version listings of one key at a
    time, delete batches) and info logs: no other bucket, no CloudFormation
    request, no timer. *)
Theorem emptyBucket_touches_only_its_bucket
  {St : Type} (P : Provider St) (bucketName : string) (w : world St) :
  onlyAdds (touchesBucket bucketName) w (snd (S3.emptyBucket P bucketName w)).
Proof. apply emptyBucket_scope. Qed.

(** *** Counting requests *)

Section CountRequests.
Context {St : Type} (P : Provider St).
Variable f : event -> bool.

Lemma count_emit (e : event) (w : world St) :
  count f (trace (emit e w)) = count f (trace w) + (if f e then 1 else 0).
Proof.
  unfold count, emit. simpl. rewrite filter_app, length_app. simpl.
  destruct (f e); reflexivity.
Qed.

Lemma count_perform (c : call) (w : world St) :
  count f (trace (snd (perform P c w)))
  = count f (trace w) + (if f (Call c) then 1 else 0).
Proof.
  unfold perform. destruct (handle P c (env w)) as [r s].
  unfold count. simpl. rewrite filter_app, length_app. simpl.
  destruct (f (Call c)); reflexivity.
Qed.

End CountRequests.

Section VersionedBounds.
Context {St : Type} (P : Provider St).

Lemma listAndDeleteVersions_bounds (b : string) (k : objectId) (t : option string)
  (w : world St) :
  let w' := snd (S3.listAndDeleteVersions P b k t w) in
  versionListings w' = versionListings w + 1 /\ deleteBatches w' <= deleteBatches w + 1.
Proof.
  unfold S3.listAndDeleteVersions, S3.listObjectVersions, S3.deleteObjects,
    versionListings, deleteBatches.
  pose proof (count_perform P isListVersions (S3ListObjectVersions b k 1 t) w) as H1.
  pose proof (count_perform P isDeleteObjects (S3ListObjectVersions b k 1 t) w) as H2.
  destruct (perform P (S3ListObjectVersions b k 1 t) w) as [r w1]. simpl in H1, H2.
  destruct r as [err | data]; simpl; [lia |].
  destruct (0 <? length (Versions data))%nat; simpl; [| lia].
  match goal with |- context [perform P (S3DeleteObjects b ?ks) w1] =>
    pose proof (count_perform P isListVersions (S3DeleteObjects b ks) w1) as H3;
    pose proof (count_perform P isDeleteObjects (S3DeleteObjects b ks) w1) as H4;
    destruct (perform P (S3DeleteObjects b ks) w1) as [d w2] end.
  simpl in H3, H4. destruct d; simpl; lia.
Qed.

Lemma deleteVersionsOfKey_bounds (b : string) (k : objectId) (w : world St) :
  let w' := snd (S3.deleteVersionsOfKey P b k w) in
  versionListings w + 1 <= versionListings w' <= versionListings w + 2
  /\ deleteBatches w' <= deleteBatches w + 2.
Proof.
  unfold S3.deleteVersionsOfKey.
  pose proof (listAndDeleteVersions_bounds b k None w) as H.
  destruct (S3.listAndDeleteVersions P b k None w) as [r w1].
  cbv zeta in H. simpl snd in H.
  destruct r as [t | | | |]; cbv zeta; simpl snd; try lia.
  destruct (truthyStr t); simpl snd; [| lia].
  pose proof (listAndDeleteVersions_bounds b k t w1) as H1.
  destruct (S3.listAndDeleteVersions P b k t w1) as [r2 w2].
  cbv zeta in H1. simpl snd in H1.
  destruct r2; simpl snd; lia.
Qed.

(** X5.  Whatever the provider answers, deleteVersionedObjects lists the
    versions of every key at least once and at most twice, and sends at most
    two delete batches per key: no more than two pages of the versions of a
    key are ever deleted. *)
Theorem deleteVersionedObjects_bounds (b : string) (keys : list objectId) (w : world St) :
  let w' := snd (S3.deleteVersionedObjects P b keys w) in
  versionListings w + length keys <= versionListings w'
  /\ versionListings w' <= versionListings w + 2 * length keys
  /\ deleteBatches w' <= deleteBatches w + 2 * length keys.
Proof.
  unfold S3.deleteVersionedObjects. revert w.
  induction keys as [| k keys IH]; intros w; simpl; [lia |].
  pose proof (deleteVersionsOfKey_bounds b k w) as H.
  destruct (S3.deleteVersionsOfKey P b k w) as [r w1].
  cbv zeta in H. simpl snd in H.
  specialize (IH w1). cbv zeta in IH.
  destruct (promiseAll (map (S3.deleteVersionsOfKey P b) keys) w1) as [rs w2].
  simpl snd in *. lia.
Qed.

End VersionedBounds.

(** *** What upsertStack may do *)

Lemma pollsStack_reconciles (name : string) (e : event) :
  pollsStack name e = true -> reconciles e = true.
Proof. destruct e as [c | | | |]; simpl; try tauto. destruct c; simpl; congruence. Qed.

Lemma pollsChangeSet_reconciles (c : option string) (name : string) (e : event) :
  pollsChangeSet c name e = true -> reconciles e = true.
Proof. destruct e as [r | | | |]; simpl; try tauto. destruct r; simpl; congruence. Qed.

Section Reconciles.
Context {St : Type} (P : Provider St).

Lemma pollStack_reconciles (fuel : nat) (params : params) (w : world St) :
  onlyAdds reconciles w (snd (CloudFormation.pollStack P fuel params w)).
Proof.
  eapply onlyAdds_weaken; [apply pollsStack_reconciles | apply pollStack_onlyAdds].
Qed.

Lemma pollChangeSet_reconciles (fuel : nat) (params : params) (w : world St) :
  onlyAdds reconciles w (snd (CloudFormation.pollChangeSet P fuel params w)).
Proof.
  eapply onlyAdds_weaken; [apply pollsChangeSet_reconciles | apply pollChangeSet_onlyAdds].
Qed.

(** A request followed by a poll, the shape of create, update, execute and
    the two change-set operations. *)
Ltac request_then_poll c poll_lemma :=
  match goal with
  | |- onlyAdds _ ?w _ =>
      let H := fresh "H" in
      pose proof (onlyAdds_perform P reconciles c w eq_refl) as H;
      destruct (perform P c w) as [err w1]; simpl in H;
      destruct err as [err |]; simpl;
      [| eapply onlyAdds_trans; [exact H | apply poll_lemma]]
  end.

Lemma createStack_reconciles (fuel : nat) (params : params) (w : world St) :
  onlyAdds reconciles w (snd (CloudFormation.createStack P fuel params w)).
Proof.
  unfold CloudFormation.createStack.
  request_then_poll (CfCreateStack (setDisableRollback params (Some true)))
    pollStack_reconciles.
  exact H.
Qed.

Lemma updateStack_reconciles (fuel : nat) (params : params) (w : world St) :
  onlyAdds reconciles w (snd (CloudFormation.updateStack P fuel params w)).
Proof.
  unfold CloudFormation.updateStack.
  request_then_poll (CfUpdateStack params) pollStack_reconciles.
  destruct (0 <=? indexOf (toString err) "No updates are to be performed")%Z; simpl;
    [| exact H].
  eapply onlyAdds_trans; [| apply pollStack_reconciles]. adds.
Qed.

Lemma createChangeSet_reconciles (fuel : nat) (params : params) (w : world St) :
  onlyAdds reconciles w (snd (CloudFormation.createChangeSet P fuel params w)).
Proof.
  unfold CloudFormation.createChangeSet.
  request_then_poll (CfCreateChangeSet params) pollChangeSet_reconciles. exact H.
Qed.

Lemma executeChangeSet_reconciles (fuel : nat) (params : params) (w : world St) :
  onlyAdds reconciles w (snd (CloudFormation.executeChangeSet P fuel params w)).
Proof.
  unfold CloudFormation.executeChangeSet.
  request_then_poll (CfExecuteChangeSet params) pollStack_reconciles. exact H.
Qed.

Lemma deleteChangeSet_reconciles (fuel : nat) (params : params) (w : world St) :
  onlyAdds reconciles w (snd (CloudFormation.deleteChangeSet P fuel params w)).
Proof.
  unfold CloudFormation.deleteChangeSet.
  request_then_poll (CfDeleteChangeSet params) pollChangeSet_reconciles. exact H.
Qed.

Lemma applyChangeSet_reconciles (fuel : nat) (params : params) (w : world St) :
  onlyAdds reconciles w (snd (CloudFormation.applyChangeSet P fuel params w)).
Proof.
  unfold CloudFormation.applyChangeSet.
  pose proof (createChangeSet_reconciles fuel params w) as H.
  destruct (CloudFormation.createChangeSet P fuel params w) as [r w1]. simpl in H.
  destruct r as [[cs |] | | | |]; simpl; try exact H.
  eapply onlyAdds_trans; [exact H | apply executeChangeSet_reconciles].
Qed.

Lemma executeUpdate_reconciles (fuel : nat) (ct : bool) (params : params) (w : world St) :
  onlyAdds reconciles w (snd (CloudFormation.executeUpdate P fuel ct params w)).
Proof.
  unfold CloudFormation.executeUpdate. destruct ct.
  - eapply onlyAdds_trans; [| apply applyChangeSet_reconciles]. adds.
  - apply updateStack_reconciles.
Qed.

Lemma reconcile_reconciles (fuel : nat) (name script : string)
  (parameters : option (list parameter)) (o : upsertOptions) (ct : bool) (w : world St) :
  onlyAdds reconciles w
    (snd (CloudFormation.reconcile P fuel name script parameters o ct w)).
Proof.
  unfold CloudFormation.reconcile.
  match goal with
  | |- context [match ?t with Some _ => _ | None => _ end] =>
      destruct t as [params |]; [| apply onlyAdds_refl]
  end.
  pose proof (onlyAdds_perform P reconciles (CfDescribeStacks name) w eq_refl) as H.
  destruct (perform P (CfDescribeStacks name) w) as [r w1]. simpl in H.
  destruct r as [err | data].
  - destruct ct.
    + eapply onlyAdds_trans; [| apply applyChangeSet_reconciles]. adds.
    + eapply onlyAdds_trans; [exact H | apply createStack_reconciles].
  - destruct (review o) as [[|] |];
      try (eapply onlyAdds_trans; [| apply executeUpdate_reconciles]; adds).
    match goal with |- context [CloudFormation.createChangeSet P fuel ?p ?w0] =>
      pose proof (createChangeSet_reconciles fuel p w0) as H1;
      destruct (CloudFormation.createChangeSet P fuel p w0) as [c w2] end.
    simpl in H1.
    assert (H2 : onlyAdds reconciles w w2) by (eapply onlyAdds_trans; [| exact H1]; adds).
    destruct c as [[cs |] | | | |]; simpl; try exact H2.
    + match goal with |- context [perform P InquirerPrompt ?w0] =>
        pose proof (onlyAdds_perform P reconciles InquirerPrompt w0 eq_refl) as H3;
        destruct (perform P InquirerPrompt w0) as [answer w3] end.
      simpl in H3.
      match goal with |- context [CloudFormation.deleteChangeSet P fuel ?p ?w0] =>
        pose proof (deleteChangeSet_reconciles fuel p w0) as H4;
        destruct (CloudFormation.deleteChangeSet P fuel p w0) as [d w4] end.
      simpl in H4.
      assert (H5 : onlyAdds reconciles w w4).
      { eapply onlyAdds_trans; [| exact H4].
        eapply onlyAdds_trans; [| apply onlyAdds_emit; reflexivity].
        eapply onlyAdds_trans; [| exact H3]. adds. }
      destruct d; simpl; try exact H5.
      destruct answer; simpl; [| exact H5].
      eapply onlyAdds_trans; [| apply executeUpdate_reconciles]. adds.
    + eapply onlyAdds_trans; [| apply pollStack_reconciles]. adds.
Qed.

Lemma upsertStack_unstaged (fuel : nat) (name script : string)
  (parameters : option (list parameter)) (options : optionsArg) (w : world St) :
  truthyStr (s3Bucket (normalizeOptions options)) = false ->
  onlyAdds reconciles w
    (snd (CloudFormation.upsertStack P fuel name script parameters options w)).
Proof.
  intros Hb. destruct fuel as [| fuel]; [apply onlyAdds_refl |].
  cbn -[CloudFormation.reconcile truthyStr transformMarker S3.putS3Object normalizeOptions].
  match goal with
  | |- context [match ?scan with Some _ => _ | None => _ end] =>
      destruct scan as [ct |]; [| apply onlyAdds_refl]
  end.
  rewrite Hb. apply reconcile_reconciles.
Qed.

Lemma reconciles_upserts (e : event) : reconciles e = true -> upserts e = true.
Proof. unfold upserts. intros H. rewrite H. reflexivity. Qed.

Lemma reconciles_no_upload (e : event) : reconciles e = true -> isUpload e = false.
Proof. destruct e as [c | | | |]; simpl; try tauto. destruct c; simpl; congruence. Qed.

(** X6.  Whatever the provider answers and whatever the options, upsertStack
    issues only CloudFormation requests, the reviewer prompt, logs, 5000 ms
    timers and the template upload: no other S3 request, no child process;
    and it uploads at most once. *)
Theorem upsertStack_scope (fuel : nat) (name script : string)
  (parameters : option (list parameter)) (options : optionsArg) (w : world St) :
  let w' := snd (CloudFormation.upsertStack P fuel name script parameters options w) in
  onlyAdds upserts w w' /\ count isUpload (trace w') <= count isUpload (trace w) + 1.
Proof.
  destruct (truthyStr (s3Bucket (normalizeOptions options))) eqn:Hb.
  2:{ pose proof (upsertStack_unstaged fuel name script parameters options w Hb) as H.
      split; [eapply onlyAdds_weaken; [apply reconciles_upserts | exact H] |].
      rewrite (onlyAdds_count reconciles isUpload _ _ reconciles_no_upload H). lia. }
  destruct fuel as [| fuel]; [split; [apply onlyAdds_refl | simpl; lia] |].
  cbn -[CloudFormation.reconcile truthyStr transformMarker S3.putS3Object normalizeOptions
        CloudFormation.upsertStack count].
  cbn [CloudFormation.upsertStack].
  match goal with
  | |- context [match ?scan with Some _ => _ | None => _ end] =>
      destruct scan as [ct |]; [| split; [apply onlyAdds_refl | simpl; lia]]
  end.
  rewrite Hb. unfold S3.putS3Object.
  match goal with |- context [perform P (S3Upload ?u) w] =>
    pose proof (onlyAdds_perform P upserts (S3Upload u) w eq_refl) as H1;
    pose proof (count_perform P isUpload (S3Upload u) w) as H2;
    destruct (perform P (S3Upload u) w) as [r w1] end.
  simpl in H1, H2. destruct r as [err | data]; simpl.
  - split; [exact H1 | lia].
  - match goal with |- context [CloudFormation.upsertStack P fuel name ?url parameters ?o ?w0] =>
      pose proof (upsertStack_unstaged fuel name url parameters o w0 eq_refl) as H3;
      destruct (CloudFormation.upsertStack P fuel name url parameters o w0) as [r2 w2] end.
    simpl in H3.
    pose proof (onlyAdds_count reconciles isUpload _ _ reconciles_no_upload H3) as H4.
    rewrite count_emit in H4. simpl in H4. simpl. split; [| lia].
    eapply onlyAdds_trans; [| eapply onlyAdds_weaken; [apply reconciles_upserts | exact H3]].
    eapply onlyAdds_trans; [exact H1 | apply onlyAdds_emit; reflexivity].
Qed.

End Reconciles.

(** *** deleteStack and the buckets *)

Lemma touchesBucket_emptiesBuckets (b : string) (e : event) :
  touchesBucket b e = true -> emptiesBuckets e = true.
Proof. destruct e as [c | | | |]; simpl; try tauto. destruct c; simpl; congruence. Qed.

Lemma emptiesBuckets_no_delete (e : event) :
  emptiesBuckets e = true -> isDeleteStack e = false.
Proof. destruct e as [c | | | |]; simpl; try tauto. destruct c; simpl; congruence. Qed.

Section DeleteStack.
Context {St : Type} (P : Provider St).

Lemma s3Operations_scope (outputs : list output) :
  forall w, onlyAdds emptiesBuckets w
              (snd (promiseAll (CloudFormation.s3Operations P outputs) w)).
Proof.
  unfold CloudFormation.s3Operations.
  induction outputs as [| o outputs IH]; intros w; simpl; [apply onlyAdds_refl |].
  destruct (endsWith (OutputKey o) "Bucket"); [| apply IH]. simpl.
  match goal with |- context [S3.emptyBucket P ?b ?w0] =>
    pose proof (emptyBucket_scope P b w0) as H;
    destruct (S3.emptyBucket P b w0) as [r w1] end.
  simpl in H. specialize (IH w1).
  match goal with |- context [promiseAll ?ops w1] =>
    destruct (promiseAll ops w1) as [rs w2] end.
  simpl in *. eapply onlyAdds_trans; [| exact IH].
  eapply onlyAdds_trans;
    [| eapply onlyAdds_weaken; [apply touchesBucket_emptiesBuckets | exact H]].
  apply onlyAdds_emit. reflexivity.
Qed.

Lemma s3Operations_none (outputs : list output) :
  forallb (fun o => negb (endsWith (OutputKey o) "Bucket")) outputs = true ->
  CloudFormation.s3Operations P outputs = [].
Proof.
  unfold CloudFormation.s3Operations. induction outputs as [| o outputs IH]; simpl;
    [reflexivity |].
  intros H. apply andb_true_iff in H. destruct H as [Ho Hrest].
  apply negb_true_iff in Ho. rewrite Ho. auto.
Qed.

End DeleteStack.

(** X7.  When the stack has no output whose key ends in Bucket, deleteStack
    issues no S3 request: the delete request follows the describe request at
    once, a refusal rejects with the provider's error, and otherwise the call
    takes the outcome of polling the stack. *)
Theorem deleteStack_without_bucket_outputs
  {St : Type} (P : Provider St) (fuel : nat) (name : string) (w : world St)
  (data : describeStacksOutput) (stack : stack) (s1 s2 : St) (refusal : option error) :
  handle P (CfDescribeStacks name) (env w) = (inr data, s1) ->
  nth_error (Stacks data) 0 = Some stack ->
  forallb (fun o => negb (endsWith (OutputKey o) "Bucket")) (Outputs stack) = true ->
  handle P (CfDeleteStack (stackNameParams name)) s1 = (refusal, s2) ->
  let w2 := {| env := s2;
               trace := trace w ++ [Call (CfDescribeStacks name);
                                    Call (CfDeleteStack (stackNameParams name))] |} in
  CloudFormation.deleteStack P fuel name w
  = match refusal with
    | Some err => (Rejected (RError err), w2)
    | None => CloudFormation.pollStack P fuel (stackNameParams name) w2
    end.
Proof.
  intros Hd Hs Hk Hx w2. unfold CloudFormation.deleteStack.
  rewrite (perform_handle P _ _ _ _ Hd), Hs, (s3Operations_none P _ Hk). simpl promiseAll.
  cbv iota beta.
  match goal with |- context [perform P ?c ?w0] =>
    rewrite (perform_handle P c w0 refusal s2 Hx) end.
  simpl trace. rewrite <- app_assoc. reflexivity.
Qed.

Lemma deleteStack_without_bucket_outputs_witness :
  let gone := {| name := "ValidationError";
                 message := "Stack with id app-stack does not exist" |} in
  let outs := [{| OutputKey := "ApiUrl"; OutputValue := "https://api" |}] in
  fst (CloudFormation.deleteStack Script.provider 1 "app-stack"
         (Script.start [] [ Script.Described (inr (Scenario.stackIn "UPDATE_COMPLETE" outs));
                            Script.Ack None; Script.Described (inl gone) ]))
  = Resolved None.
Proof.
  intros gone outs.
  rewrite (deleteStack_without_bucket_outputs Script.provider 1 "app-stack"
             (Script.start [] [ Script.Described (inr (Scenario.stackIn "UPDATE_COMPLETE" outs));
                                Script.Ack None; Script.Described (inl gone) ])
             (Scenario.stackIn "UPDATE_COMPLETE" outs)
             {| stk_StackName := "app-stack"; StackStatus := "UPDATE_COMPLETE"; Outputs := outs |}
             {| Script.replies := [Script.Ack None; Script.Described (inl gone)];
                Script.files := []; Script.clock := 1700000000000 |}
             {| Script.replies := [Script.Described (inl gone)];
                Script.files := []; Script.clock := 1700000000000 |}
             None eq_refl eq_refl eq_refl eq_refl).
  reflexivity.
Defined.

(** X8.  When the emptying of the bucket outputs does not resolve (one of the
    buckets fails or hangs), deleteStack does not resolve either and issues
    no delete request for the stack. *)
Theorem deleteStack_keeps_stack_when_emptying_fails
  {St : Type} (P : Provider St) (fuel : nat) (name : string) (w : world St)
  (data : describeStacksOutput) (stack : stack) (s1 : St) :
  handle P (CfDescribeStacks name) (env w) = (inr data, s1) ->
  nth_error (Stacks data) 0 = Some stack ->
  fst (promiseAll (CloudFormation.s3Operations P (Outputs stack))
         {| env := s1; trace := trace w ++ [Call (CfDescribeStacks name)] |})
  <> Resolved tt ->
  let r := CloudFormation.deleteStack P fuel name w in
  (forall d, fst r <> Resolved d)
  /\ count isDeleteStack (trace (snd r)) = count isDeleteStack (trace w).
Proof.
  intros Hd Hs Hfail r. unfold r, CloudFormation.deleteStack.
  rewrite (perform_handle P _ _ _ _ Hd), Hs.
  match goal with |- context [promiseAll ?ops ?w0] =>
    pose proof (s3Operations_scope P (Outputs stack) w0) as H;
    destruct (promiseAll ops w0) as [e w2] eqn:He end.
  simpl in Hfail, H.
  assert (Hcount : count isDeleteStack (trace w2) = count isDeleteStack (trace w)).
  { rewrite (onlyAdds_count emptiesBuckets isDeleteStack _ _ emptiesBuckets_no_delete H).
    simpl. unfold count. rewrite filter_app, length_app. simpl. lia. }
  destruct e as [[] | | | |]; simpl; try (split; [discriminate | exact Hcount]).
  contradiction.
Qed.

Lemma deleteStack_keeps_stack_when_emptying_fails_witness :
  let outs := [{| OutputKey := "LogsBucket"; OutputValue := "app-logs" |}] in
  let r :=
    CloudFormation.deleteStack Script.provider 1 "app-stack"
      (Script.start [] [ Script.Described (inr (Scenario.stackIn "UPDATE_COMPLETE" outs));
                         Script.Versioning (inl Scenario.throttled); Script.Ack None ]) in
  (forall d, fst r <> Resolved d) /\ count isDeleteStack (trace (snd r)) = 0.
Proof.
  intros outs r.
  apply (deleteStack_keeps_stack_when_emptying_fails Script.provider 1 "app-stack"
           (Script.start [] [ Script.Described (inr (Scenario.stackIn "UPDATE_COMPLETE" outs));
                              Script.Versioning (inl Scenario.throttled); Script.Ack None ])
           (Scenario.stackIn "UPDATE_COMPLETE" outs)
           {| stk_StackName := "app-stack"; StackStatus := "UPDATE_COMPLETE"; Outputs := outs |}
           {| Script.replies := [Script.Versioning (inl Scenario.throttled); Script.Ack None];
              Script.files := []; Script.clock := 1700000000000 |}
           eq_refl eq_refl).
  discriminate.
Defined.

(** *** Whole runs: a request, then polling to the end *)

Section WholeRuns.
Context {St : Type} (P : Provider St).

Lemma pollStack_completes (fuel : nat) (params : params) (w : world St)
  (data : describeStacksOutput) (stack : stack) (s : St) :
  handle P (CfDescribeStacks (StackName params)) (env w) = (inr data, s) ->
  nth_error (Stacks data) 0 = Some stack ->
  isStackSuccess (StackStatus stack) = true ->
  CloudFormation.pollStack P (S fuel) params w
  = (Resolved (Some data),
     {| env := s;
        trace := trace w ++ [Call (CfDescribeStacks (StackName params));
                             LogInfo [LStr "Stack operation completed"]] |}).
Proof.
  intros Hd Hs Hok. cbn -[nth_error perform isStackSuccess isStackFailure info emit].
  rewrite (perform_handle P _ _ _ _ Hd), Hs, Hok.
  unfold info, emit. simpl. rewrite <- app_assoc. reflexivity.
Qed.

Lemma pollStack_gone (fuel : nat) (params : params) (w : world St) (err : error) (s : St) :
  handle P (CfDescribeStacks (StackName params)) (env w) = (inl err, s) ->
  includes (message err) "does not exist" = true ->
  CloudFormation.pollStack P (S fuel) params w
  = (Resolved None,
     {| env := s;
        trace := trace w ++ [Call (CfDescribeStacks (StackName params));
                             LogInfo [LStr "Stack deleted or never existed."]] |}).
Proof.
  intros Hd Hm. cbn -[nth_error perform isStackSuccess isStackFailure info emit indexOf].
  rewrite (perform_handle P _ _ _ _ Hd). unfold includes in Hm. rewrite Hm.
  unfold info, emit. simpl. rewrite <- app_assoc. reflexivity.
Qed.

Lemma actions_app (a b : list event) : actions (a ++ b) = (actions a ++ actions b)%list.
Proof. unfold actions. apply filter_app. Qed.

(** Polling a stack that is in progress [n] times and then complete. *)
Lemma pollStack_until_complete (params : params) (w : world St) (n : nat)
  (data : describeStacksOutput) (stack : stack) (s : St) :
  let c := CfDescribeStacks (StackName params) in
  (forall i, i < n ->
     stackInProgress (fst (handle P c (afterAnswers P c i (env w)))) = true) ->
  handle P c (afterAnswers P c n (env w)) = (inr data, s) ->
  nth_error (Stacks data) 0 = Some stack ->
  isStackSuccess (StackStatus stack) = true ->
  forall k, exists w',
    CloudFormation.pollStack P (n + S k) params w = (Resolved (Some data), w')
    /\ env w' = s
    /\ actions (trace w')
       = (actions (trace w) ++ concat (repeat [Call c; SetTimeout 5000] n) ++ [Call c])%list.
Proof.
  intros c Hbusy Hd Hs Hok k.
  destruct (loop_rounds P (fun fuel => CloudFormation.pollStack P fuel params) c
              stackInProgress (pollStack_round P params) n w Hbusy) as [w1 [He [Ha Hp]]].
  rewrite <- He in Hd.
  eexists. rewrite Hp, (pollStack_completes k params w1 data stack s Hd Hs Hok).
  split; [reflexivity | split; [reflexivity |]].
  simpl trace. rewrite actions_app, Ha, <- app_assoc. reflexivity.
Qed.

(** Polling a stack that is in progress [n] times and then gone. *)
Lemma pollStack_until_gone (params : params) (w : world St) (n : nat)
  (err : error) (s : St) :
  let c := CfDescribeStacks (StackName params) in
  (forall i, i < n ->
     stackInProgress (fst (handle P c (afterAnswers P c i (env w)))) = true) ->
  handle P c (afterAnswers P c n (env w)) = (inl err, s) ->
  includes (message err) "does not exist" = true ->
  forall k, exists w',
    CloudFormation.pollStack P (n + S k) params w = (Resolved None, w')
    /\ env w' = s
    /\ actions (trace w')
       = (actions (trace w) ++ concat (repeat [Call c; SetTimeout 5000] n) ++ [Call c])%list.
Proof.
  intros c Hbusy Hd Hm k.
  destruct (loop_rounds P (fun fuel => CloudFormation.pollStack P fuel params) c
              stackInProgress (pollStack_round P params) n w Hbusy) as [w1 [He [Ha Hp]]].
  rewrite <- He in Hd.
  eexists. rewrite Hp, (pollStack_gone k params w1 err s Hd Hm).
  split; [reflexivity | split; [reflexivity |]].
  simpl trace. rewrite actions_app, Ha, <- app_assoc. reflexivity.
Qed.

End WholeRuns.

(** X9.  upsertStack on a stack that the probe does not find (whatever the
    probe's error), for a local template without transforms and no staging:
    one createStack request carrying the template body and DisableRollback,
    then one describe per round with a 5000 ms timer in between while the
    stack is in progress, and the call resolves with the describe result that
    shows CREATE_COMPLETE or UPDATE_COMPLETE.  Enough fuel gives the
    result. *)
Theorem upsertStack_creates_absent_stack
  {St : Type} (P : Provider St) (name script : string)
  (parameters : option (list parameter)) (options : optionsArg) (w : world St)
  (body : string) (probeError : error) (s1 s2 s3 : St) (n : nat)
  (data : describeStacksOutput) (stack : stack) :
  truthyStr (s3Bucket (normalizeOptions options)) = false ->
  substring 0 10 script <> "https://s3" ->
  readFile P (env w) script = Some body ->
  match containsTransforms (normalizeOptions options) with
  | Some b => b = false
  | None => transformMarker body = false
  end ->
  let describe := CfDescribeStacks name in
  let create :=
    CfCreateStack (setDisableRollback (bodyRequest name body parameters) (Some true)) in
  handle P describe (env w) = (inl probeError, s1) ->
  handle P create s1 = (None, s2) ->
  (forall i, i < n ->
     stackInProgress (fst (handle P describe (afterAnswers P describe i s2))) = true) ->
  handle P describe (afterAnswers P describe n s2) = (inr data, s3) ->
  nth_error (Stacks data) 0 = Some stack ->
  In (StackStatus stack) ["CREATE_COMPLETE"; "UPDATE_COMPLETE"] ->
  forall k, exists w',
    CloudFormation.upsertStack P (S (S (n + k))) name script parameters options w
    = (Resolved (Some data), w')
    /\ env w' = s3
    /\ actions (trace w')
       = (actions (trace w) ++ [Call describe; Call create]
          ++ concat (repeat [Call describe; SetTimeout 5000] n) ++ [Call describe])%list.
Proof.
  intros Hb Hlocal Hfile Hscan describe create Hprobe Hcreate Hbusy Hdone Hs Hin k.
  unfold describe, create in *. clear describe create.
  assert (Hok : isStackSuccess (StackStatus stack) = true).
  { simpl in Hin. destruct Hin as [H | [H | []]]; rewrite <- H; reflexivity. }
  assert (Hlocal' : (substring 0 10 script =? "https://s3") = false).
  { destruct (substring 0 10 script =? "https://s3") eqn:E; [| reflexivity].
    apply String.eqb_eq in E. contradiction. }
  set (describe := CfDescribeStacks name) in *.
  set (create := CfCreateStack (setDisableRollback (bodyRequest name body parameters) (Some true))) in *.
  set (w2 := {| env := s2; trace := trace w ++ [Call describe; Call create] |}).
  destruct (pollStack_until_complete P
              (setDisableRollback (bodyRequest name body parameters) (Some true))
              w2 n data stack s3 Hbusy Hdone Hs Hok k) as [w' [Hrun [He Ha]]].
  exists w'. split; [| split; [exact He |]].
  - rewrite <- Hrun. replace (S (n + k)) with (n + S k) by lia.
    cbn -[CloudFormation.reconcile truthyStr transformMarker S3.putS3Object normalizeOptions].
    rewrite Hfile.
    assert (Hct : match containsTransforms (normalizeOptions options) with
                  | Some b => Some b
                  | None => Some (transformMarker body)
                  end = Some false).
    { destruct (containsTransforms (normalizeOptions options)); rewrite Hscan; reflexivity. }
    rewrite Hct, Hb. unfold CloudFormation.reconcile. rewrite Hlocal', Hfile.
    unfold describe, create in *.
    rewrite (perform_handle P _ _ _ _ Hprobe).
    unfold CloudFormation.createStack.
    match goal with |- context [perform P ?c ?w0] =>
      rewrite (perform_handle P c w0 None s2 Hcreate) end.
    simpl trace. rewrite <- app_assoc. reflexivity.
  - rewrite Ha. unfold w2. simpl trace. rewrite actions_app, <- app_assoc. reflexivity.
Qed.

Lemma upsertStack_creates_absent_stack_witness :
  let notFound := {| name := "ValidationError";
                     message := "Stack with id app-stack does not exist" |} in
  let building := Scenario.stackIn "CREATE_IN_PROGRESS" [] in
  let complete := Scenario.stackIn "CREATE_COMPLETE" [] in
  exists w',
    CloudFormation.upsertStack Script.provider 3 "app-stack" "template.json" (Some [])
      OptUndefined
      (Script.start Scenario.templates
         [ Script.Described (inl notFound); Script.Ack None;
           Script.Described (inr building); Script.Described (inr complete) ])
    = (Resolved (Some complete), w')
    /\ actions (trace w')
       = [ Call (CfDescribeStacks "app-stack");
           Call (CfCreateStack
                   (setDisableRollback (bodyRequest "app-stack" "{}" (Some [])) (Some true)));
           Call (CfDescribeStacks "app-stack"); SetTimeout 5000;
           Call (CfDescribeStacks "app-stack") ].
Proof.
  intros notFound building complete.
  unshelve epose proof
    (upsertStack_creates_absent_stack Script.provider "app-stack" "template.json"
       (Some []) OptUndefined
       (Script.start Scenario.templates
          [ Script.Described (inl notFound); Script.Ack None;
            Script.Described (inr building); Script.Described (inr complete) ])
       "{}" notFound
       {| Script.replies := [ Script.Ack None; Script.Described (inr building);
                              Script.Described (inr complete) ];
          Script.files := Scenario.templates; Script.clock := 1700000000000 |}
       {| Script.replies := [ Script.Described (inr building);
                              Script.Described (inr complete) ];
          Script.files := Scenario.templates; Script.clock := 1700000000000 |}
       {| Script.replies := [];
          Script.files := Scenario.templates; Script.clock := 1700000000000 |}
       1 complete
       {| stk_StackName := "app-stack"; StackStatus := "CREATE_COMPLETE"; Outputs := [] |}
       eq_refl _ eq_refl eq_refl eq_refl eq_refl _ eq_refl eq_refl _ 0) as H.
  - discriminate.
  - intros i Hi. destruct i as [| i]; [reflexivity | lia].
  - simpl. auto.
  - destruct H as [w' [Hrun [_ Ha]]]. exists w'. split; [exact Hrun | exact Ha].
Defined.

(** X10.  deleteStack on a stack without bucket outputs whose deletion is
    accepted: it polls while the stack is in progress and resolves empty as
    soon as the lookup fails with a message containing "does not exist".
    Enough fuel gives the result. *)
Theorem deleteStack_resolves_when_stack_is_gone
  {St : Type} (P : Provider St) (name : string) (w : world St)
  (data : describeStacksOutput) (stack : stack) (s1 s2 s3 : St) (n : nat) (err : error) :
  let describe := CfDescribeStacks name in
  let delete := CfDeleteStack (stackNameParams name) in
  handle P describe (env w) = (inr data, s1) ->
  nth_error (Stacks data) 0 = Some stack ->
  forallb (fun o => negb (endsWith (OutputKey o) "Bucket")) (Outputs stack) = true ->
  handle P delete s1 = (None, s2) ->
  (forall i, i < n ->
     stackInProgress (fst (handle P describe (afterAnswers P describe i s2))) = true) ->
  handle P describe (afterAnswers P describe n s2) = (inl err, s3) ->
  includes (message err) "does not exist" = true ->
  forall k, exists w',
    CloudFormation.deleteStack P (S (n + k)) name w = (Resolved None, w')
    /\ env w' = s3
    /\ actions (trace w')
       = (actions (trace w) ++ [Call describe; Call delete]
          ++ concat (repeat [Call describe; SetTimeout 5000] n) ++ [Call describe])%list.
Proof.
  intros describe delete Hd Hs Hk Hx Hbusy Hgone Hm k.
  set (w2 := {| env := s2; trace := trace w ++ [Call describe; Call delete] |}).
  destruct (pollStack_until_gone P (stackNameParams name) w2 n err s3 Hbusy Hgone Hm k)
    as [w' [Hrun [He Ha]]].
  exists w'. split; [| split; [exact He |]].
  - unfold describe, delete in *. unfold CloudFormation.deleteStack.
    rewrite (perform_handle P _ _ _ _ Hd), Hs, (s3Operations_none P _ Hk). simpl promiseAll.
    cbv iota beta.
    match goal with |- context [perform P ?c ?w0] =>
      rewrite (perform_handle P c w0 None s2 Hx) end.
    simpl trace. rewrite <- app_assoc. simpl app.
    replace (S (n + k)) with (n + S k) by lia. exact Hrun.
  - rewrite Ha. unfold w2. simpl trace. rewrite actions_app, <- app_assoc. reflexivity.
Qed.

Lemma deleteStack_resolves_when_stack_is_gone_witness :
  exists w',
    CloudFormation.deleteStack Script.provider 2 "app-stack"
      (Script.start [] [ Script.Described (inr (Scenario.stackIn "UPDATE_COMPLETE" []));
                         Script.Ack None;
                         Script.Described (inr (Scenario.stackIn "DELETE_IN_PROGRESS" []));
                         Script.Described (inl Countdown.gone) ])
    = (Resolved None, w')
    /\ Script.replies (env w') = [].
Proof.
  unshelve epose proof
    (deleteStack_resolves_when_stack_is_gone Script.provider "app-stack"
       (Script.start [] [ Script.Described (inr (Scenario.stackIn "UPDATE_COMPLETE" []));
                          Script.Ack None;
                          Script.Described (inr (Scenario.stackIn "DELETE_IN_PROGRESS" []));
                          Script.Described (inl Countdown.gone) ])
       (Scenario.stackIn "UPDATE_COMPLETE" [])
       {| stk_StackName := "app-stack"; StackStatus := "UPDATE_COMPLETE"; Outputs := [] |}
       {| Script.replies := [ Script.Ack None;
                              Script.Described (inr (Scenario.stackIn "DELETE_IN_PROGRESS" []));
                              Script.Described (inl Countdown.gone) ];
          Script.files := []; Script.clock := 1700000000000 |}
       {| Script.replies := [ Script.Described (inr (Scenario.stackIn "DELETE_IN_PROGRESS" []));
                              Script.Described (inl Countdown.gone) ];
          Script.files := []; Script.clock := 1700000000000 |}
       {| Script.replies := []; Script.files := []; Script.clock := 1700000000000 |}
       1 Countdown.gone eq_refl eq_refl eq_refl eq_refl _ eq_refl eq_refl 0) as H.
  - intros i Hi. destruct i as [| i]; [reflexivity | lia].
  - destruct H as [w' [Hrun [He _]]]. exists w'. split; [exact Hrun | rewrite He; reflexivity].
Defined.

(** *** The two copies of pollStack *)

Lemma pollStack_copies_equal
  {St : Type} (P : Provider St) (params : params) :
  (forall s err s',
     handle P (CfDescribeStacks (StackName params)) s = (inl err, s') ->
     (0 < indexOf (message err) "does not exist")%Z) ->
  forall fuel w,
    SrcCloudFormation.pollStack P fuel params w = CloudFormation.pollStack P fuel params w.
Proof.
  intros Herr. induction fuel as [| fuel IH]; intros w; [reflexivity |].
  cbn -[nth_error perform isStackSuccess isStackFailure info emit indexOf].
  unfold perform.
  destruct (handle P (CfDescribeStacks (StackName params)) (env w)) as [r s] eqn:Hd.
  destruct r as [err | data].
  - specialize (Herr _ _ _ Hd). unfold truthyNum.
    destruct (indexOf (message err) "does not exist" =? 0)%Z eqn:E0;
      [apply Z.eqb_eq in E0; lia |].
    destruct (0 <=? indexOf (message err) "does not exist")%Z eqn:E1;
      [reflexivity | apply Z.leb_gt in E1; lia].
  - destruct (nth_error (Stacks data) 0) as [stack |]; [| reflexivity].
    destruct (isStackSuccess (StackStatus stack)); [reflexivity |].
    destruct (isStackFailure (StackStatus stack)); [reflexivity |].
    apply IH.
Qed.

(** X11.  As long as every lookup error of describeStacks mentions "does not
    exist" somewhere after its first character, the two copies of pollStack
    are the same function: same outcome, same requests, same logs. *)
Theorem pollStack_copies_agree
  {St : Type} (P : Provider St) (params : params) :
  (forall s err s',
     handle P (CfDescribeStacks (StackName params)) s = (inl err, s') ->
     (0 < indexOf (message err) "does not exist")%Z) ->
  forall fuel w,
    SrcCloudFormation.pollStack P fuel params w = CloudFormation.pollStack P fuel params w.
Proof. intros Herr fuel w. apply pollStack_copies_equal. exact Herr. Qed.

Lemma pollStack_copies_agree_witness :
  SrcCloudFormation.pollStack Countdown.provider 3 (stackNameParams "app-stack")
    (Countdown.start 2)
  = CloudFormation.pollStack Countdown.provider 3 (stackNameParams "app-stack")
      (Countdown.start 2)
  /\ fst (CloudFormation.pollStack Countdown.provider 3 (stackNameParams "app-stack")
            (Countdown.start 2)) = Resolved None.
Proof.
  split; [| reflexivity].
  apply (pollStack_copies_agree Countdown.provider (stackNameParams "app-stack")).
  intros s err s' H. destruct s as [| k]; simpl in H; [| discriminate].
  injection H as <- _. reflexivity.
Defined.

(** X12.  On a lookup error whose message does not mention "does not exist"
    the two copies part: src/cloudFormation.js takes the index -1 for a yes
    and resolves empty, where the copy with options rejects with the error
    unchanged.  Neither polls again. *)
Theorem pollStack_copies_part_on_other_errors
  {St : Type} (P : Provider St) (fuel : nat) (params : params) (w : world St)
  (err : error) (s : St) :
  handle P (CfDescribeStacks (StackName params)) (env w) = (inl err, s) ->
  includes (message err) "does not exist" = false ->
  let w1 := {| env := s; trace := trace w ++ [Call (CfDescribeStacks (StackName params))] |} in
  SrcCloudFormation.pollStack P (S fuel) params w
  = (Resolved None, info "Stack deleted or never existed." w1)
  /\ CloudFormation.pollStack P (S fuel) params w = (Rejected (RError err), w1).
Proof.
  intros Hd Hm w1. split;
    cbn -[nth_error perform isStackSuccess isStackFailure info emit indexOf];
    rewrite (perform_handle P _ _ _ _ Hd).
  - rewrite (includes_false_indexOf _ _ Hm). reflexivity.
  - unfold includes in Hm. rewrite Hm. reflexivity.
Qed.

Lemma pollStack_copies_part_on_other_errors_witness :
  let w := Script.start [] [Script.Described (inl Scenario.throttled)] in
  fst (SrcCloudFormation.pollStack Script.provider 1 (stackNameParams "app-stack") w)
  = Resolved None
  /\ fst (CloudFormation.pollStack Script.provider 1 (stackNameParams "app-stack") w)
     = Rejected (RError Scenario.throttled).
Proof.
  intros w.
  destruct (pollStack_copies_part_on_other_errors Script.provider 0
              (stackNameParams "app-stack") w Scenario.throttled
              {| Script.replies := []; Script.files := []; Script.clock := 1700000000000 |}
              eq_refl eq_refl) as [Hsrc Hcf].
  rewrite Hsrc, Hcf. split; reflexivity.
Defined.

Lemma pollChangeSet_terminal_states_witness :
  let cs := Scenario.changeSetIn "FAILED" (Some Scenario.noChanges) in
  let w := Script.start [] [Script.ChangeSetIs (inr cs)] in
  fst (CloudFormation.pollChangeSet Script.provider 1
         (changeSetParams "app-stack" "cf-utils-app-stack-preview") w)
  = Resolved None.
Proof.
  intros cs w.
  destruct (pollChangeSet_terminal_states Script.provider 0
              (changeSetParams "app-stack" "cf-utils-app-stack-preview") w cs
              {| Script.replies := []; Script.files := []; Script.clock := 1700000000000 |}
              eq_refl) as [_ Hfailed].
  destruct (Hfailed Scenario.noChanges eq_refl eq_refl) as [Hnoop _].
  rewrite Hnoop; [reflexivity | right; reflexivity].
Defined.

(** *** The review path without a rejection handler *)

(** X13.  upsertStack with review on an existing stack: when the provider
    refuses the creation of the preview change set, the promise is never
    settled; the refusal is not reported, and nothing follows the refused
    request. *)
Theorem upsertStack_review_hangs_when_change_set_is_refused
  {St : Type} (P : Provider St) (fuel : nat) (name script : string)
  (parameters : option (list parameter)) (options : optionsArg) (w : world St)
  (body : string) (found : describeStacksOutput) (s1 s2 : St) (err : error) :
  truthyStr (s3Bucket (normalizeOptions options)) = false ->
  substring 0 10 script <> "https://s3" ->
  readFile P (env w) script = Some body ->
  review (normalizeOptions options) = Some true ->
  let create :=
    CfCreateChangeSet (withChangeSet (bodyRequest name body parameters)
                                     ("cf-utils-" ++ name ++ "-preview") None) in
  handle P (CfDescribeStacks name) (env w) = (inr found, s1) ->
  handle P create s1 = (Some err, s2) ->
  CloudFormation.upsertStack P (S fuel) name script parameters options w
  = (Unsettled,
     {| env := s2;
        trace := trace w ++ [ Call (CfDescribeStacks name);
                              LogInfo [LStr "Stack exists, creating changeset for review..."];
                              Call create ] |}).
Proof.
  intros Hb Hlocal Hfile Hreview create Hprobe Hcreate. unfold create in *. clear create.
  assert (Hlocal' : (substring 0 10 script =? "https://s3") = false).
  { destruct (substring 0 10 script =? "https://s3") eqn:E; [| reflexivity].
    apply String.eqb_eq in E. contradiction. }
  cbn -[CloudFormation.reconcile truthyStr transformMarker S3.putS3Object normalizeOptions].
  rewrite Hfile.
  destruct (containsTransforms (normalizeOptions options)) as [ct |];
    rewrite Hb; unfold CloudFormation.reconcile; rewrite Hlocal', Hfile;
    rewrite (perform_handle P _ _ _ _ Hprobe), Hreview;
    unfold CloudFormation.createChangeSet;
    match goal with |- context [perform P ?c ?w0] =>
      rewrite (perform_handle P c w0 (Some err) s2 Hcreate) end;
    unfold info, emit; simpl trace; repeat rewrite <- app_assoc; reflexivity.
Qed.

Lemma upsertStack_review_hangs_when_change_set_is_refused_witness :
  fst (CloudFormation.upsertStack Script.provider 2 "app-stack" "template.json" (Some [])
         Scenario.reviewOptions
         (Script.start Scenario.templates
            [ Script.Described (inr (Scenario.stackIn "UPDATE_COMPLETE" []));
              Script.Ack (Some Scenario.throttled) ]))
  = Unsettled.
Proof.
  rewrite (upsertStack_review_hangs_when_change_set_is_refused Script.provider 1 "app-stack"
             "template.json" (Some []) Scenario.reviewOptions
             (Script.start Scenario.templates
                [ Script.Described (inr (Scenario.stackIn "UPDATE_COMPLETE" []));
                  Script.Ack (Some Scenario.throttled) ])
             "{}" (Scenario.stackIn "UPDATE_COMPLETE" [])
             {| Script.replies := [Script.Ack (Some Scenario.throttled)];
                Script.files := Scenario.templates; Script.clock := 1700000000000 |}
             {| Script.replies := []; Script.files := Scenario.templates;
                Script.clock := 1700000000000 |}
             Scenario.throttled eq_refl ltac:(discriminate) eq_refl eq_refl eq_refl eq_refl).
  reflexivity.
Defined.

(** *** extractOutput *)

Lemma find_snoc {A : Type} (p : A -> bool) (l : list A) (x : A) :
  find p (l ++ [x])
  = match find p l with
    | Some y => Some y
    | None => if p x then Some x else None
    end.
Proof.
  induction l as [| a l IH]; simpl; [reflexivity |]. destruct (p a); [reflexivity | exact IH].
Qed.

Lemma extractOutput_find (stack : stack) (k : string) :
  CloudFormation.extractOutput stack k
  = option_map OutputValue
      (find (fun o => (k =? OutputKey o) && negb (OutputKey o =? "__proto__"))
            (rev (Outputs stack))).
Proof.
  unfold CloudFormation.extractOutput.
  set (p := fun o => (k =? OutputKey o) && negb (OutputKey o =? "__proto__")).
  assert (H : forall outs (m : string -> option string),
             fold_left
               (fun map output x =>
                  if (x =? OutputKey output) && negb (OutputKey output =? "__proto__")
                  then Some (OutputValue output) else map x) outs m k
             = match find p (rev outs) with
               | Some o => Some (OutputValue o)
               | None => m k
               end).
  { induction outs as [| o outs IH]; intros m; simpl; [reflexivity |].
    rewrite IH, find_snoc. destruct (find p (rev outs)); [reflexivity |].
    unfold p. destruct ((k =? OutputKey o) && negb (OutputKey o =? "__proto__")); reflexivity. }
  rewrite H. destruct (find p (rev (Outputs stack))); reflexivity.
Qed.

(** X14.  The object returned by extractOutput holds, under each key, the value
    of the last output with that key; a key that no output carries is
    absent. *)
Theorem extractOutput_last_output_wins (stack : stack) (k : string) :
  CloudFormation.extractOutput stack k
  = option_map OutputValue
      (find (fun o => (k =? OutputKey o) && negb (OutputKey o =? "__proto__"))
            (rev (Outputs stack))).
Proof. apply extractOutput_find. Qed.

(** *** generateChangeSetName *)

Lemma append_inj_l (p a b : string) : p ++ a = p ++ b -> a = b.
Proof. induction p as [| c p IH]; simpl; [tauto |]. intros H. injection H. exact IH. Qed.

Lemma to_int_not_nil (z : Z) :
  Z.to_int z <> Decimal.Pos Decimal.Nil /\ Z.to_int z <> Decimal.Neg Decimal.Nil.
Proof.
  destruct z as [| p | p]; simpl; split; try discriminate;
    intros H; injection H as H; exact (DecimalPos.Unsigned.to_uint_nonnil p H).
Qed.

Lemma numToString_inj (a b : Z) : numToString a = numToString b -> a = b.
Proof.
  unfold numToString. intros H. apply DecimalZ.to_int_inj.
  destruct (to_int_not_nil a) as [Ha1 Ha2]. destruct (to_int_not_nil b) as [Hb1 Hb2].
  pose proof (NilZero.isi _ Ha1 Ha2) as Ia. pose proof (NilZero.isi _ Hb1 Hb2) as Ib.
  rewrite H in Ia. rewrite Ia in Ib. injection Ib. auto.
Qed.

Lemma toInt32_small (z : Z) : (0 <= z < 2 ^ 31)%Z -> toInt32 z = z.
Proof. intros H. unfold toInt32. rewrite Z.mod_small; lia. Qed.

(** X15.  While the clock reads less than 2^31 seconds, the name made by
    generateChangeSetName is the fixed prefix followed by the clock in whole
    seconds: two names are equal exactly when they are made within the same
    second. *)
Theorem generateChangeSetName_by_second
  {St : Type} (P : Provider St) (w1 w2 : world St) :
  (0 <= now P (env w1) < 2147483648000)%Z ->
  (0 <= now P (env w2) < 2147483648000)%Z ->
  CloudFormation.generateChangeSetName P w1
  = "cf-utils-cloudformation-upsert-stack-" ++ numToString (now P (env w1) / 1000)
  /\ (CloudFormation.generateChangeSetName P w1 = CloudFormation.generateChangeSetName P w2
      <-> (now P (env w1) / 1000 = now P (env w2) / 1000)%Z).
Proof.
  intros H1 H2. unfold CloudFormation.generateChangeSetName.
  assert (E : forall z, (0 <= z < 2147483648000)%Z ->
                        toInt32 (Z.quot z 1000) = (z / 1000)%Z).
  { intros z Hz. rewrite Z.quot_div_nonneg by lia. apply toInt32_small.
    split; [apply Z.div_pos; lia |]. apply Z.div_lt_upper_bound; lia. }
  rewrite (E _ H1), (E _ H2). split; [reflexivity |]. split.
  - intros H. apply append_inj_l in H. apply numToString_inj. exact H.
  - intros H. rewrite H. reflexivity.
Qed.

Lemma generateChangeSetName_by_second_witness :
  CloudFormation.generateChangeSetName Script.provider (Script.start [] [])
  = "cf-utils-cloudformation-upsert-stack-" ++ numToString 1700000000.
Proof.
  exact (proj1 (generateChangeSetName_by_second Script.provider
                  (Script.start [] []) (Script.start [] [])
                  ltac:(simpl; lia) ltac:(simpl; lia))).
Defined.

(** *** The parameter overrides of deployStack *)

(** X16.  The override string of deployStack is the concatenation, in order,
    of one group [key="value" ] per parameter, the value copied as it is;
    without parameters, or with none, it is empty. *)
Theorem overrides_concatenates (parameters : list parameter) :
  CloudFormation.overrides (Some parameters)
  = fold_right append "" (map override parameters)
  /\ CloudFormation.overrides None = ""
  /\ forall more,
       CloudFormation.overrides (Some (parameters ++ more)%list)
       = CloudFormation.overrides (Some parameters) ++ CloudFormation.overrides (Some more).
Proof.
  assert (H : forall ps acc,
             fold_left (fun acc p =>
                          acc ++ ParameterKey p ++ "=" ++ String dquote (ParameterValue p)
                              ++ String dquote " ") ps acc
             = acc ++ fold_right append "" (map override ps)).
  { induction ps as [| p ps IH]; intros acc; simpl.
    - clear. induction acc as [| c acc IH]; simpl; congruence.
    - rewrite IH. unfold override. rewrite append_assoc_s. reflexivity. }
  assert (Hm : forall a b : list parameter,
             fold_right append "" (map override (a ++ b)%list)
             = fold_right append "" (map override a) ++ fold_right append "" (map override b)).
  { induction a as [| p a IH]; intros b; simpl; [reflexivity |].
    rewrite IH, append_assoc_s. reflexivity. }
  unfold CloudFormation.overrides. repeat split.
  - rewrite H. reflexivity.
  - intros more. rewrite !H. simpl. apply Hm.
Qed.

(** *** Which outputs name a bucket *)

Lemma endsWith_includes (s suffix : string) :
  suffix <> "" -> endsWith s suffix = true -> includes s suffix = true.
Proof.
  intros Hne H. unfold endsWith in H. apply andb_true_iff in H. destruct H as [Hlen Hsub].
  apply String.eqb_eq in Hsub.
  destruct (includes s suffix) eqn:E; [reflexivity | exfalso].
  assert (Hnone : index 0 suffix s = None).
  { unfold includes, indexOf in E. destruct (index 0 suffix s); [| reflexivity].
    apply Z.leb_gt in E. lia. }
  apply (index_correct3 0 (String.length s - String.length suffix) suffix s) in Hnone;
    [| exact Hne | lia].
  apply Hnone. exact Hsub.
Qed.

(** X17.  Every output that the copy with options takes for a bucket (key
    ending in Bucket) is also taken for one by src/cloudFormation.js (key
    containing Bucket); so when the latter empties no bucket, neither does
    the former. *)
Theorem bucket_outputs_of_the_two_copies
  {St : Type} (P : Provider St) (outputs : list output) :
  incl (filter (fun o => endsWith (OutputKey o) "Bucket") outputs)
       (filter (fun o => (0 <=? indexOf (OutputKey o) "Bucket")%Z) outputs)
  /\ (SrcCloudFormation.s3Operations P outputs = [] ->
      CloudFormation.s3Operations P outputs = []).
Proof.
  assert (Hincl : incl (filter (fun o => endsWith (OutputKey o) "Bucket") outputs)
                       (filter (fun o => (0 <=? indexOf (OutputKey o) "Bucket")%Z) outputs)).
  { intros o Ho. apply filter_In in Ho. destruct Ho as [Hin Hends].
    apply filter_In. split; [exact Hin |].
    apply (endsWith_includes _ "Bucket"); [discriminate | exact Hends]. }
  split; [exact Hincl |].
  unfold SrcCloudFormation.s3Operations, CloudFormation.s3Operations. intros H.
  apply map_eq_nil in H. rewrite H in Hincl.
  destruct (filter (fun o => endsWith (OutputKey o) "Bucket") outputs) as [| o rest];
    [reflexivity |].
  destruct (Hincl o (or_introl eq_refl)).
Qed.

Lemma bucket_outputs_of_the_two_copies_witness :
  CloudFormation.s3Operations Script.provider
    [{| OutputKey := "ApiUrl"; OutputValue := "https://api" |}] = [].
Proof.
  apply (proj2 (bucket_outputs_of_the_two_copies Script.provider
                  [{| OutputKey := "ApiUrl"; OutputValue := "https://api" |}])).
  reflexivity.
Defined.

Lemma pollsStack_srcUpserts (c : option string) (name : string) (e : event) :
  pollsStack name e = true -> srcUpserts c e = true.
Proof. destruct e as [r | | | |]; simpl; try tauto. destruct r; simpl; congruence. Qed.

Lemma pollsChangeSet_srcUpserts (c a : option string) (name : string) (e : event) :
  pollsChangeSet a name e = true -> srcUpserts c e = true.
Proof. destruct e as [r | | | |]; simpl; try tauto. destruct r; simpl; congruence. Qed.

Section SrcScope.
Context {St : Type} (P : Provider St) (cfg : config).
Variable c : option string.

Lemma src_pollStack_onlyAdds (fuel : nat) (params : params) :
  forall w, onlyAdds (pollsStack (StackName params)) w
              (snd (SrcCloudFormation.pollStack P fuel params w)).
Proof.
  induction fuel as [| fuel IH]; intros w; [apply onlyAdds_refl |].
  cbn -[nth_error perform isStackSuccess isStackFailure info emit indexOf].
  pose proof (onlyAdds_perform P (pollsStack (StackName params))
                (CfDescribeStacks (StackName params)) w) as Hp.
  simpl in Hp. rewrite String.eqb_refl in Hp. specialize (Hp eq_refl).
  destruct (perform P (CfDescribeStacks (StackName params)) w) as [r w1]. simpl in Hp.
  destruct r as [err | data].
  - destruct (truthyNum (indexOf (message err) "does not exist")); simpl; adds.
  - destruct (nth_error (Stacks data) 0) as [stack |]; [| exact Hp].
    destruct (isStackSuccess (StackStatus stack)); [simpl; adds |].
    destruct (isStackFailure (StackStatus stack)); [simpl; adds |].
    eapply onlyAdds_trans; [| apply IH]. adds.
Qed.

Lemma src_pollChangeSet_onlyAdds (fuel : nat) (params : params) :
  forall w, onlyAdds (pollsChangeSet (ChangeSetName params) (StackName params)) w
              (snd (SrcCloudFormation.pollChangeSet P fuel params w)).
Proof.
  induction fuel as [| fuel IH]; intros w; [apply onlyAdds_refl |].
  cbn -[perform info emit String.eqb indexOf pollsChangeSet isChangeSetSuccess].
  pose proof (onlyAdds_perform P _ _ w
                (pollsChangeSet_self (ChangeSetName params) (StackName params))) as Hp.
  destruct (perform P (CfDescribeChangeSet (ChangeSetName params) (StackName params)) w)
    as [r w1]. simpl in Hp.
  destruct r as [err | cs].
  - destruct (truthyNum (indexOf (message err) "does not exist")); simpl; adds.
  - destruct (isChangeSetSuccess (Status cs)); [simpl; adds |].
    destruct (Status cs =? "FAILED").
    + destruct (StatusReason cs) as [why |]; [| simpl; adds].
      destruct (truthyNum (indexOf why "didn't contain changes")); simpl; adds.
    + eapply onlyAdds_trans; [| apply IH]. adds.
Qed.

Lemma src_pollStack_scope (fuel : nat) (params : params) (w : world St) :
  onlyAdds (srcUpserts c) w (snd (SrcCloudFormation.pollStack P fuel params w)).
Proof.
  eapply onlyAdds_weaken; [apply pollsStack_srcUpserts | apply src_pollStack_onlyAdds].
Qed.

Lemma src_pollChangeSet_scope (fuel : nat) (params : params) (w : world St) :
  onlyAdds (srcUpserts c) w (snd (SrcCloudFormation.pollChangeSet P fuel params w)).
Proof.
  eapply onlyAdds_weaken; [apply pollsChangeSet_srcUpserts | apply src_pollChangeSet_onlyAdds].
Qed.

Lemma src_createStack_scope (fuel : nat) (params : params) (w : world St) :
  onlyAdds (srcUpserts c) w (snd (SrcCloudFormation.createStack P fuel params w)).
Proof.
  unfold SrcCloudFormation.createStack.
  match goal with |- context [perform P ?r w] =>
    pose proof (onlyAdds_perform P (srcUpserts c) r w eq_refl) as H;
    destruct (perform P r w) as [err w1] end.
  simpl in H. destruct err; simpl; [exact H |].
  eapply onlyAdds_trans; [exact H | apply src_pollStack_scope].
Qed.

Lemma src_updateStack_scope (fuel : nat) (params : params) (w : world St) :
  sameName (ChangeSetName params) c = true ->
  onlyAdds (srcUpserts c) w (snd (SrcCloudFormation.updateStack P fuel params w)).
Proof.
  intros Hc. unfold SrcCloudFormation.updateStack.
  pose proof (onlyAdds_perform P (srcUpserts c) (CfUpdateStack params) w Hc) as H.
  destruct (perform P (CfUpdateStack params) w) as [err w1]. simpl in H.
  destruct err as [err |]; simpl.
  - destruct (0 <=? indexOf (toString err) "No updates are to be performed")%Z; simpl;
      [| exact H].
    eapply onlyAdds_trans; [| apply src_pollStack_scope]. adds.
  - eapply onlyAdds_trans; [exact H | apply src_pollStack_scope].
Qed.

Lemma src_createChangeSet_scope (fuel : nat) (params : params) (w : world St) :
  onlyAdds (srcUpserts c) w (snd (SrcCloudFormation.createChangeSet P fuel params w)).
Proof.
  unfold SrcCloudFormation.createChangeSet.
  match goal with |- context [perform P ?r w] =>
    pose proof (onlyAdds_perform P (srcUpserts c) r w eq_refl) as H;
    destruct (perform P r w) as [err w1] end.
  simpl in H. destruct err; simpl; [exact H |].
  match goal with |- context [SrcCloudFormation.pollChangeSet P fuel ?p w1] =>
    pose proof (src_pollChangeSet_scope fuel p w1) as H1;
    destruct (SrcCloudFormation.pollChangeSet P fuel p w1) as [r w2] end.
  simpl in *. eapply onlyAdds_trans; eassumption.
Qed.

Lemma src_deleteChangeSet_scope (fuel : nat) (name : string) (w : world St) :
  onlyAdds (srcUpserts c) w (snd (SrcCloudFormation.deleteChangeSet P fuel name w)).
Proof.
  unfold SrcCloudFormation.deleteChangeSet.
  match goal with |- context [perform P ?r w] =>
    pose proof (onlyAdds_perform P (srcUpserts c) r w eq_refl) as H;
    destruct (perform P r w) as [err w1] end.
  simpl in H. destruct err; simpl; [exact H |].
  eapply onlyAdds_trans; [exact H | apply src_pollChangeSet_scope].
Qed.

Lemma listen_scope (cs : list chunk) :
  forall err (w : world St), onlyAdds (srcUpserts c) w (snd (CloudFormation.listen cs err w)).
Proof.
  induction cs as [| [d | d] cs IH]; intros err w; simpl; [apply onlyAdds_refl | |];
    (eapply onlyAdds_trans; [| apply IH]); apply onlyAdds_emit; reflexivity.
Qed.

Lemma describeStack_scope (name : string) (w : world St) :
  onlyAdds (srcUpserts c) w (snd (CloudFormation.describeStack P name w)).
Proof.
  unfold CloudFormation.describeStack.
  pose proof (onlyAdds_perform P (srcUpserts c) (CfDescribeStacks name) w eq_refl) as H.
  destruct (perform P (CfDescribeStacks name) w) as [r w1]. destruct r; exact H.
Qed.

Lemma deployStack_scope (name script : string) (parameters : option (list parameter))
  (w : world St) :
  onlyAdds (srcUpserts c) w
    (snd (CloudFormation.deployStack P cfg name script parameters w)).
Proof.
  unfold CloudFormation.deployStack.
  match goal with |- context [perform P ?r w] =>
    pose proof (onlyAdds_perform P (srcUpserts c) r w eq_refl) as H;
    destruct (perform P r w) as [cli w1] end.
  simpl in H.
  pose proof (listen_scope (chunks cli) "" w1) as H1.
  destruct (CloudFormation.listen (chunks cli) "" w1) as [err w2]. simpl in H1.
  assert (H2 : onlyAdds (srcUpserts c) w w2) by (eapply onlyAdds_trans; eassumption).
  destruct (exitCode cli) as [[| p | p] |];
    try (destruct (0 <=? indexOf err "No changes to deploy")%Z; simpl; [| exact H2];
         eapply onlyAdds_trans; [| apply describeStack_scope]; adds).
  eapply onlyAdds_trans; [exact H2 | apply describeStack_scope].
Qed.

Lemma deployed_scope (name script : string) (parameters : option (list parameter))
  (w : world St) :
  onlyAdds (srcUpserts c) w
    (snd (SrcCloudFormation.deployed P cfg name script parameters w)).
Proof.
  unfold SrcCloudFormation.deployed, SrcCloudFormation.deployStack.
  pose proof (deployStack_scope name script parameters w) as H.
  destruct (CloudFormation.deployStack P cfg name script parameters w) as [r w1].
  destruct r; exact H.
Qed.

Lemma updateOrDeploy_scope (fuel : nat) (name script : string)
  (parameters : option (list parameter)) (params : params) (w : world St) :
  sameName (ChangeSetName params) c = true ->
  onlyAdds (srcUpserts c) w
    (snd (SrcCloudFormation.updateOrDeploy P cfg fuel name script parameters params w)).
Proof.
  intros Hc. unfold SrcCloudFormation.updateOrDeploy.
  pose proof (src_updateStack_scope fuel params w Hc) as H.
  destruct (SrcCloudFormation.updateStack P fuel params w) as [r w1]. simpl in H.
  destruct r as [data | err | | |]; simpl; try exact H.
  match goal with |- context [if ?t then _ else _] => destruct t end; simpl; [| exact H].
  eapply onlyAdds_trans; [| apply deployed_scope]. adds.
Qed.

End SrcScope.

Lemma sameName_refl (a : option string) : sameName a a = true.
Proof. destruct a; simpl; [apply String.eqb_refl | reflexivity]. Qed.

(** X18.  In src/cloudFormation.js createChangeSet writes ChangeSetName into
    the params object it is given, which is upsertStack's own: whatever the
    provider answers, every updateStack request that upsertStack issues with
    review carries ChangeSetName = <name>-preview, and without review none
    does.  In both cases upsertStack issues no S3 request. *)
Theorem src_upsertStack_update_requests
  {St : Type} (P : Provider St) (cfg : config) (fuel : nat) (name script : string)
  (parameters : option (list parameter)) (withReview : bool) (w : world St) :
  onlyAdds (srcUpserts (if withReview then Some (name ++ "-preview") else None)) w
    (snd (SrcCloudFormation.upsertStack P cfg fuel name script parameters withReview w)).
Proof.
  set (c := if withReview then Some (name ++ "-preview") else None).
  unfold SrcCloudFormation.upsertStack.
  destruct (readFile P (env w) script) as [body |]; [| apply onlyAdds_refl].
  pose proof (onlyAdds_perform P (srcUpserts c) (CfDescribeStacks name) w eq_refl) as H.
  destruct (perform P (CfDescribeStacks name) w) as [r w1]. simpl in H.
  destruct r as [err | data].
  - match goal with |- context [SrcCloudFormation.createStack P fuel ?p w1] =>
      pose proof (src_createStack_scope P c fuel p w1) as H1;
      destruct (SrcCloudFormation.createStack P fuel p w1) as [r w2] end.
    simpl in H1.
    assert (H2 : onlyAdds (srcUpserts c) w w2) by (eapply onlyAdds_trans; eassumption).
    destruct r as [d | e | | |]; simpl; try exact H2.
    match goal with |- context [if ?t then _ else _] => destruct t end; simpl; [| exact H2].
    eapply onlyAdds_trans; [| apply deployed_scope]. adds.
  - destruct withReview.
    + match goal with |- context [SrcCloudFormation.createChangeSet P fuel ?p ?w0] =>
        pose proof (src_createChangeSet_scope P c fuel p w0) as H1;
        destruct (SrcCloudFormation.createChangeSet P fuel p w0) as [[r params'] w2] eqn:Hcs
      end.
      simpl in H1.
      assert (Hp : StackName params' = name /\ ChangeSetName params' = Some (name ++ "-preview")).
      { unfold SrcCloudFormation.createChangeSet in Hcs.
        match type of Hcs with context [perform P ?rq ?w0] =>
          destruct (perform P rq w0) as [e w3] end.
        destruct e.
        - injection Hcs as _ <- _. split; reflexivity.
        - match type of Hcs with context [SrcCloudFormation.pollChangeSet P fuel ?p ?w0] =>
            destruct (SrcCloudFormation.pollChangeSet P fuel p w0) end.
          injection Hcs as _ <- _. split; reflexivity. }
      destruct Hp as [Hn Hc].
      assert (H2 : onlyAdds (srcUpserts c) w w2) by (eapply onlyAdds_trans; [| exact H1]; adds).
      destruct r as [[cs |] | | | |]; simpl; try exact H2.
      * match goal with |- context [perform P InquirerPrompt ?w0] =>
          pose proof (onlyAdds_perform P (srcUpserts c) InquirerPrompt w0 eq_refl) as H3;
          destruct (perform P InquirerPrompt w0) as [answer w3] end.
        simpl in H3.
        match goal with |- context [SrcCloudFormation.deleteChangeSet P fuel ?n ?w0] =>
          pose proof (src_deleteChangeSet_scope P c fuel n w0) as H4;
          destruct (SrcCloudFormation.deleteChangeSet P fuel n w0) as [d w4] end.
        simpl in H4.
        assert (H5 : onlyAdds (srcUpserts c) w w4).
        { eapply onlyAdds_trans; [| exact H4].
          eapply onlyAdds_trans; [| apply onlyAdds_emit; reflexivity].
          eapply onlyAdds_trans; [| exact H3]. adds. }
        destruct d; simpl; try exact H5.
        destruct answer; simpl; [| exact H5].
        eapply onlyAdds_trans; [| apply updateOrDeploy_scope].
        -- adds.
        -- rewrite Hc. apply sameName_refl.
      * match goal with |- context [SrcCloudFormation.pollStack P fuel ?p ?w0] =>
          pose proof (src_pollStack_scope P c fuel p w0) as H3;
          destruct (SrcCloudFormation.pollStack P fuel p w0) as [r3 w3] end.
        simpl in H3.
        assert (H4 : onlyAdds (srcUpserts c) w w3)
          by (eapply onlyAdds_trans; [| exact H3]; adds).
        destruct r3; exact H4.
    + eapply onlyAdds_trans; [| apply updateOrDeploy_scope; reflexivity]. adds.
Qed.

(** *** config.js: the command line *)

Lemma getProp_setProp_same {V : Type} (o : list (string * V)) (k : string) (v : V) :
  Config.getProp (Config.setProp o k v) k = Some v.
Proof.
  induction o as [| [k' v'] o IH]; simpl.
  - rewrite String.eqb_refl. reflexivity.
  - destruct (k' =? k) eqn:E; simpl.
    + rewrite String.eqb_refl. reflexivity.
    + rewrite E. exact IH.
Qed.

Lemma getProp_setProp_other {V : Type} (o : list (string * V)) (k k' : string) (v : V) :
  k' <> k -> Config.getProp (Config.setProp o k' v) k = Config.getProp o k.
Proof.
  intros Hk. induction o as [| [k0 v0] o IH]; simpl.
  - destruct (k' =? k) eqn:E; [apply String.eqb_eq in E; contradiction | reflexivity].
  - destruct (k0 =? k') eqn:E0; simpl.
    + apply String.eqb_eq in E0. subst k0.
      destruct (k' =? k) eqn:E; [apply String.eqb_eq in E; contradiction | reflexivity].
    + destruct (k0 =? k); [reflexivity | exact IH].
Qed.

Lemma getProp_assign_other (o : list (string * Config.value)) (k k' : string)
  (v : Config.value) :
  k' <> k -> Config.getProp (Config.assign o k' v) k = Config.getProp o k.
Proof.
  intros Hk. unfold Config.assign. destruct (k' =? "__proto__"); [reflexivity |].
  apply getProp_setProp_other. exact Hk.
Qed.

Lemma getProp_assign_same (o : list (string * Config.value)) (k : string) (v : Config.value) :
  k <> "__proto__" -> Config.getProp (Config.assign o k v) k = Some v.
Proof.
  intros Hk. unfold Config.assign.
  destruct (k =? "__proto__") eqn:E; [apply String.eqb_eq in E; contradiction |].
  apply getProp_setProp_same.
Qed.

Lemma flag_name (arg : string) :
  prefix "--" arg = true -> arg = "--" ++ substring 2 (String.length arg - 2) arg.
Proof.
  destruct arg as [| a [| b rest]]; cbn -[ascii_dec]; try discriminate.
  - destruct (ascii_dec "-" a); discriminate.
  - destruct (ascii_dec "-" a) as [<- |]; [| discriminate].
    destruct (ascii_dec "-" b) as [<- |]; [| discriminate].
    intros _. f_equal. f_equal. rewrite Nat.sub_0_r.
    clear. induction rest as [| c rest IH]; simpl; [reflexivity |]. f_equal. exact IH.
Qed.

Lemma prefix_flag (k : string) : prefix "--" ("--" ++ k) = true.
Proof.
  cbn -[ascii_dec]. destruct (ascii_dec "-" "-") as [_ | n]; [| contradiction n; reflexivity].
  destruct k; reflexivity.
Qed.

Lemma flag_strip (k : string) :
  substring 2 (String.length ("--" ++ k) - 2) ("--" ++ k) = k.
Proof.
  simpl. rewrite Nat.sub_0_r. induction k as [| c k IH]; simpl; [reflexivity |].
  f_equal. exact IH.
Qed.

Lemma argvStep_keeps (k : string) (st : list (string * Config.value) * option string)
  (arg : string) :
  snd st <> Some k -> arg <> "--" ++ k ->
  Config.getProp (fst (Config.argvStep st arg)) k = Config.getProp (fst st) k
  /\ snd (Config.argvStep st arg) <> Some k.
Proof.
  destruct st as [options tba]. cbn [fst snd]. intros Ht Ha. unfold Config.argvStep.
  destruct (prefix "--" arg) eqn:Ep; cbn [fst snd].
  - pose proof (flag_name arg Ep) as Hn.
    assert (Hk : substring 2 (String.length arg - 2) arg <> k).
    { intros E. apply Ha. rewrite Hn at 1. rewrite E. reflexivity. }
    split; [apply getProp_assign_other; exact Hk | congruence].
  - split; [| discriminate].
    destruct tba as [n |]; [| reflexivity].
    destruct (truthyStr (Some n)); [| reflexivity].
    apply getProp_assign_other. congruence.
Qed.

Lemma argv_fold_keeps (k : string) (post : list string) :
  forall st,
    snd st <> Some k -> Forall (fun arg => arg <> "--" ++ k) post ->
    Config.getProp (fst (fold_left Config.argvStep post st)) k = Config.getProp (fst st) k.
Proof.
  induction post as [| arg post IH]; intros st Ht Hp; simpl; [reflexivity |].
  inversion Hp as [| ? ? Ha Hrest]; subst.
  destruct (argvStep_keeps k st arg Ht Ha) as [Hg Hs].
  rewrite (IH _ Hs Hrest). exact Hg.
Qed.

(** X19.  The command-line reducer of config.js: an option given as
    [--k v] (k neither empty nor __proto__, v not itself starting with --)
    reads back as v, whatever came before it and whatever follows, as long
    as --k is not given again. *)
Theorem argv_reads_back_option (pre post : list string) (k v : string) :
  k <> "" -> k <> "__proto__" -> prefix "--" v = false ->
  Forall (fun arg => arg <> "--" ++ k) post ->
  Config.getProp (Config.argv (pre ++ ("--" ++ k) :: v :: post)) k = Some (Config.VStr v).
Proof.
  intros Hk Hp Hv Hpost. unfold Config.argv.
  rewrite fold_left_app.
  destruct (fold_left Config.argvStep pre ([], None)) as [options tba].
  cbn [fold_left].
  assert (H1 : Config.argvStep (options, tba) ("--" ++ k)
               = (Config.assign options k Config.VTrue, Some k)).
  { unfold Config.argvStep. rewrite prefix_flag, flag_strip. reflexivity. }
  assert (Ht : truthyStr (Some k) = true).
  { simpl. destruct k; [contradiction Hk; reflexivity | reflexivity]. }
  assert (H2 : Config.argvStep (Config.assign options k Config.VTrue, Some k) v
               = (Config.assign (Config.assign options k Config.VTrue) k (Config.VStr v),
                  None)).
  { unfold Config.argvStep. rewrite Hv, Ht. reflexivity. }
  rewrite H1, H2.
  rewrite argv_fold_keeps; [| discriminate | exact Hpost].
  apply getProp_assign_same. exact Hp.
Qed.

Lemma argv_reads_back_option_witness :
  Config.getProp (Config.argv ["node"; "deploy.js"; "--env"; "prod"; "extra"; "--verbose"]) "env"
  = Some (Config.VStr "prod").
Proof.
  apply (argv_reads_back_option ["node"; "deploy.js"] ["extra"; "--verbose"] "env" "prod").
  - discriminate.
  - discriminate.
  - reflexivity.
  - repeat constructor; discriminate.
Defined.

(** X20.  A flag followed by another flag, or by nothing, reads back as
    [true]; so does a flag whose value was given earlier and which is then
    repeated bare. *)
Theorem argv_bare_flag_is_true (pre post : list string) (k : string) :
  k <> "__proto__" ->
  match post with
  | [] => True
  | next :: _ => prefix "--" next = true
  end ->
  Forall (fun arg => arg <> "--" ++ k) post ->
  Config.getProp (Config.argv (pre ++ ("--" ++ k) :: post)) k = Some Config.VTrue.
Proof.
  intros Hp Hnext Hpost. unfold Config.argv.
  rewrite fold_left_app.
  destruct (fold_left Config.argvStep pre ([], None)) as [options tba].
  cbn [fold_left].
  assert (Hset : Config.argvStep (options, tba) ("--" ++ k)
                 = (Config.assign options k Config.VTrue, Some k)).
  { unfold Config.argvStep. rewrite prefix_flag, flag_strip. reflexivity. }
  rewrite Hset.
  destruct post as [| next post]; cbn [fold_left fst].
  - apply getProp_assign_same. exact Hp.
  - inversion Hpost as [| ? ? Ha Hrest]; subst.
    assert (Hstep : Config.argvStep (Config.assign options k Config.VTrue, Some k) next
                    = (Config.assign (Config.assign options k Config.VTrue)
                         (substring 2 (String.length next - 2) next) Config.VTrue,
                       Some (substring 2 (String.length next - 2) next))).
    { unfold Config.argvStep. rewrite Hnext. reflexivity. }
    rewrite Hstep.
    assert (Hk : substring 2 (String.length next - 2) next <> k).
    { intros E. apply Ha. rewrite (flag_name next Hnext) at 1. rewrite E. reflexivity. }
    rewrite argv_fold_keeps; [| cbn [snd]; congruence | exact Hrest].
    cbn [fst]. rewrite getProp_assign_other by exact Hk.
    apply getProp_assign_same. exact Hp.
Qed.

Lemma argv_bare_flag_is_true_witness :
  Config.getProp (Config.argv ["node"; "deploy.js"; "--review"; "--env"; "prod"]) "review"
  = Some Config.VTrue.
Proof.
  apply (argv_bare_flag_is_true ["node"; "deploy.js"] ["--env"; "prod"] "review").
  - discriminate.
  - reflexivity.
  - repeat constructor; discriminate.
Defined.

(** *** glue.js: batches *)

Lemma cutLoop_partitions {A : Type} (a : list A) (l : nat) :
  1 <= l ->
  forall fuel i c,
    length a - i < fuel ->
    exists c',
      Glue.cutLoop fuel a l i c = Some (c ++ c')%list
      /\ concat c' = skipn i a
      /\ Forall (fun batch => 1 <= length batch <= l) c'.
Proof.
  intros Hl. induction fuel as [| fuel IH]; intros i c Hf; [lia |].
  simpl. destruct (i <? length a)%nat eqn:E.
  - apply Nat.ltb_lt in E.
    destruct (IH (i + l) (c ++ [Glue.slice a i (i + l)])%list) as (c' & Hrun & Hcat & Hall);
      [lia |].
    exists (Glue.slice a i (i + l) :: c'). split; [| split].
    + rewrite Hrun, <- app_assoc. reflexivity.
    + simpl. rewrite Hcat. unfold Glue.slice.
      replace (i + l - i) with l by lia.
      replace (i + l) with (l + i) by lia.
      rewrite <- skipn_skipn. apply firstn_skipn.
    + constructor; [| exact Hall]. unfold Glue.slice.
      replace (i + l - i) with l by lia.
      rewrite length_firstn, length_skipn. lia.
  - apply Nat.ltb_ge in E. exists []. split; [| split].
    + rewrite app_nil_r. reflexivity.
    + simpl. symmetry. apply skipn_all2. exact E.
    + constructor.
Qed.

(** X21.  [cut(a, l)] of createPartitions with a batch size of at least 1:
    the batches, put end to end, are [a], and each holds between 1 and [l]
    elements (so no request of createPartitions carries more than the 100
    partitions it cuts at, and none is empty). *)
Theorem cut_partitions {A : Type} (a : list A) (l fuel : nat) :
  1 <= l -> length a < fuel ->
  exists c,
    Glue.cut fuel a l = Some c
    /\ concat c = a
    /\ Forall (fun batch => 1 <= length batch <= l) c.
Proof.
  intros Hl Hf. unfold Glue.cut.
  destruct (cutLoop_partitions a l Hl fuel 0 []) as (c & Hrun & Hcat & Hall); [lia |].
  exists c. split; [exact Hrun | split; [exact Hcat | exact Hall]].
Qed.

Lemma cut_partitions_witness :
  exists c,
    Glue.cut 8 [1; 2; 3; 4; 5; 6; 7] 3 = Some c
    /\ concat c = [1; 2; 3; 4; 5; 6; 7]
    /\ Forall (fun batch => 1 <= length batch <= 3) c.
Proof.
  apply (cut_partitions [1; 2; 3; 4; 5; 6; 7] 3 8); simpl; lia.
Defined.

Lemma cutLoop_zero {A : Type} (a : list A) :
  a <> [] -> forall fuel c, Glue.cutLoop fuel a 0 0 c = None.
Proof.
  intros Ha. induction fuel as [| fuel IH]; intros c; simpl; [reflexivity |].
  destruct a as [| x a]; [contradiction Ha; reflexivity |]. simpl. apply IH.
Qed.

(** X22.  With a batch size of 0 and a non-empty array the loop of [cut]
    never ends: however many iterations it is given, it has not returned. *)
Theorem cut_zero_never_returns {A : Type} (a : list A) (fuel : nat) :
  a <> [] -> Glue.cut fuel a 0 = None.
Proof. intros Ha. apply cutLoop_zero. exact Ha. Qed.

Lemma cut_zero_never_returns_witness : Glue.cut 1000 [1; 2; 3] 0 = None.
Proof. apply (cut_zero_never_returns [1; 2; 3] 1000). discriminate. Defined.

(** *** cloudWatch.js: every page is followed *)

Section Sweep.
Import CloudWatch.

Lemma deleteAll_served (groups : list logGroup) (w : run (list describeLogGroupsOutput)) :
  deleteAll Pages.logs groups w
  = (Resolved tt,
     {| service := service w;
        requests := (requests w
                     ++ map (fun log => DeleteLogGroup (logGroupName log)) groups)%list |}).
Proof.
  revert w. induction groups as [| g groups IH]; intros w; simpl.
  - rewrite app_nil_r. destruct w; reflexivity.
  - unfold deleteLogGroup, send. simpl. rewrite IH. simpl.
    rewrite <- app_assoc. reflexivity.
Qed.

Lemma listAndDelete_sweeps (filter : string) (pages : list describeLogGroupsOutput) :
  forall (last : describeLogGroupsOutput) (token : option string) (sent : list request)
         (fuel : nat),
    Forall (fun page => truthyStr (nextToken page) = true) pages ->
    truthyStr (nextToken last) = false ->
    length pages < fuel ->
    listAndDelete Pages.logs fuel filter token
      {| service := (pages ++ [last])%list; requests := sent |}
    = (Resolved tt,
       {| service := [];
          requests := (sent ++ Pages.sweep filter token (pages ++ [last]))%list |}).
Proof.
  induction pages as [| page pages IH]; intros last token sent fuel Hmore Hlast Hfuel;
    (destruct fuel as [| fuel]; [simpl in Hfuel; lia |]).
  - simpl. unfold listLogGroups, send. simpl.
    destruct (0 <? length (logGroups last))%nat eqn:E.
    + rewrite deleteAll_served. simpl. rewrite Hlast.
      rewrite app_nil_r, <- app_assoc. reflexivity.
    + apply Nat.ltb_ge in E. destruct (logGroups last); [| simpl in E; lia].
      rewrite Hlast. simpl. reflexivity.
  - inversion Hmore as [| ? ? Hpage Hrest]; subst.
    cbn [listAndDelete app]. unfold listLogGroups, send. cbn [answer Pages.logs Pages.serve service requests].
    destruct (0 <? length (logGroups page))%nat eqn:E.
    + rewrite deleteAll_served. cbn [service requests]. rewrite Hpage.
      rewrite IH by (try assumption; simpl in Hfuel; lia).
      cbn [Pages.sweep]. rewrite <- !app_assoc. reflexivity.
    + apply Nat.ltb_ge in E.
      destruct (logGroups page) eqn:Eg; [| simpl in E; lia].
      rewrite Hpage.
      rewrite IH by (try assumption; simpl in Hfuel; lia).
      cbn [Pages.sweep]. rewrite Eg. simpl. rewrite <- !app_assoc. reflexivity.
Qed.

End Sweep.

(** X23.  deleteLogGroups follows every page: against a service that hands out
    its pages in order (each but the last with a token) and accepts every
    delete, it resolves after asking for each page with the token of the
    page before and deleting each group listed, page by page. *)
Theorem deleteLogGroups_follows_every_page
  (filter : string) (pages : list CloudWatch.describeLogGroupsOutput)
  (last : CloudWatch.describeLogGroupsOutput) (fuel : nat) :
  Forall (fun page => truthyStr (CloudWatch.nextToken page) = true) pages ->
  truthyStr (CloudWatch.nextToken last) = false ->
  length pages < fuel ->
  CloudWatch.deleteLogGroups Pages.logs fuel filter
    {| CloudWatch.service := (pages ++ [last])%list; CloudWatch.requests := [] |}
  = (Resolved tt,
     {| CloudWatch.service := [];
        CloudWatch.requests := Pages.sweep filter None (pages ++ [last]) |}).
Proof.
  intros Hmore Hlast Hfuel. unfold CloudWatch.deleteLogGroups.
  rewrite (listAndDelete_sweeps filter pages last None [] fuel Hmore Hlast Hfuel).
  reflexivity.
Qed.

Lemma deleteLogGroups_follows_every_page_witness :
  let group n := {| CloudWatch.logGroupName := n |} in
  let p1 := {| CloudWatch.logGroups := [group "/aws/lambda/a"; group "/aws/lambda/b"];
               CloudWatch.nextToken := Some "t1" |} in
  let p2 := {| CloudWatch.logGroups := [group "/aws/lambda/c"];
               CloudWatch.nextToken := Some "t2" |} in
  let p3 := {| CloudWatch.logGroups := [group "/aws/lambda/d"];
               CloudWatch.nextToken := None |} in
  CloudWatch.deleteLogGroups Pages.logs 3 "/aws/lambda"
    {| CloudWatch.service := [p1; p2; p3]; CloudWatch.requests := [] |}
  = (Resolved tt,
     {| CloudWatch.service := [];
        CloudWatch.requests := Pages.sweep "/aws/lambda" None [p1; p2; p3] |}).
Proof.
  intros group p1 p2 p3.
  apply (deleteLogGroups_follows_every_page "/aws/lambda" [p1; p2] p3 3).
  - repeat constructor.
  - reflexivity.
  - simpl. lia.
Defined.

(** X24.  A refused delete never surfaces from emptyBucket: when the bucket is
    not versioned, its first page is not empty and the delete request for
    that page fails, emptyBucket neither resolves nor rejects, and issues no
    further request. *)
Theorem emptyBucket_hangs_when_delete_fails
  {St : Type} (P : Provider St) (b : string) (w : world St)
  (data : versioningOutput) (listing : listObjectsOutput) (err : error) (s1 s2 s3 : St) :
  let keys := map (fun object => {| Key := obj_Key object; VersionId := None |})
                  (Contents listing) in
  handle P (S3GetBucketVersioning b) (env w) = (inr data, s1) ->
  ver_Status data <> Some "Enabled" ->
  handle P (S3ListObjectsV2 b None) s1 = (inr listing, s2) ->
  Contents listing <> [] ->
  handle P (S3DeleteObjects b keys) s2 = (Some err, s3) ->
  S3.emptyBucket P b w
  = (Unsettled,
     {| env := s3;
        trace := (trace w ++ [Call (S3GetBucketVersioning b);
                              Call (S3ListObjectsV2 b None);
                              Call (S3DeleteObjects b keys)])%list |}).
Proof.
  intros keys Hv Hoff Hl Hne Hd. unfold S3.emptyBucket.
  rewrite (perform_handle P _ _ _ _ Hv).
  assert (Hen : match ver_Status data with Some s => s =? "Enabled" | None => false end = false).
  { destruct (ver_Status data) as [s |]; [| reflexivity].
    destruct (s =? "Enabled") eqn:E; [| reflexivity].
    apply String.eqb_eq in E. subst s. contradiction Hoff. reflexivity. }
  rewrite Hen. unfold S3.listAndDelete, S3.listObjects.
  rewrite (perform_handle P _ {| env := s1; trace := _ |} _ _ Hl).
  assert (Hlen : (0 <? length (Contents listing))%nat = true).
  { destruct (Contents listing); [contradiction Hne; reflexivity | reflexivity]. }
  rewrite Hlen. unfold S3.deleteObjects.
  fold keys. rewrite (perform_handle P _ {| env := s2; trace := _ |} _ _ Hd).
  simpl. rewrite <- !app_assoc. reflexivity.
Qed.

Lemma emptyBucket_hangs_when_delete_fails_witness :
  fst (S3.emptyBucket Script.provider "app-logs"
         (Script.start [] [ Scenario.unversioned;
                            Script.Listed (inr (Scenario.page 0 2 None));
                            Script.Ack (Some Scenario.throttled) ]))
  = Unsettled.
Proof.
  rewrite (emptyBucket_hangs_when_delete_fails Script.provider "app-logs"
             (Script.start [] [ Scenario.unversioned;
                                Script.Listed (inr (Scenario.page 0 2 None));
                                Script.Ack (Some Scenario.throttled) ])
             {| ver_Status := None |} (Scenario.page 0 2 None) Scenario.throttled
             {| Script.replies := [ Script.Listed (inr (Scenario.page 0 2 None));
                                    Script.Ack (Some Scenario.throttled) ];
                Script.files := []; Script.clock := 1700000000000 |}
             {| Script.replies := [ Script.Ack (Some Scenario.throttled) ];
                Script.files := []; Script.clock := 1700000000000 |}
             {| Script.replies := [];
                Script.files := []; Script.clock := 1700000000000 |}
             eq_refl ltac:(discriminate) eq_refl ltac:(discriminate) eq_refl).
  reflexivity.
Defined.

(** *** upsertStack: staging the template in S3 *)

(** X25.  upsertStack with s3Bucket, s3Prefix and containsTransforms false, for
    a template that is on disk and a stack that the probe does not find: the
    template is uploaded under prefix + script, and the stack is created
    from the URL of the uploaded copy (TemplateURL, no TemplateBody), with
    DisableRollback.  Then the stack is polled until it shows
    CREATE_COMPLETE or UPDATE_COMPLETE.  Enough fuel gives the result. *)
Theorem upsertStack_staged_creates_from_url
  {St : Type} (P : Provider St) (name script : string)
  (parameters : option (list parameter)) (o : upsertOptions) (w : world St)
  (bucket prefix : string) (uploaded : uploadOutput) (probeError : error)
  (s0 s1 s2 s3 : St) (n : nat) (data : describeStacksOutput) (stack : stack)
  (body : string) :
  readFile P (env w) script = Some body ->
  s3Bucket o = Some bucket ->
  bucket <> "" ->
  s3Prefix o = Some prefix ->
  containsTransforms o = Some false ->
  let upload :=
    S3Upload {| up_Bucket := bucket; up_Key := prefix ++ script; up_Body := script |} in
  let url := "https://s3.amazonaws.com/" ++ bucket ++ "/" ++ prefix ++ script in
  let describe := CfDescribeStacks name in
  let create :=
    CfCreateStack (setDisableRollback (urlRequest name url parameters) (Some true)) in
  handle P upload (env w) = (inr uploaded, s0) ->
  handle P describe s0 = (inl probeError, s1) ->
  handle P create s1 = (None, s2) ->
  (forall i, i < n ->
     stackInProgress (fst (handle P describe (afterAnswers P describe i s2))) = true) ->
  handle P describe (afterAnswers P describe n s2) = (inr data, s3) ->
  nth_error (Stacks data) 0 = Some stack ->
  In (StackStatus stack) ["CREATE_COMPLETE"; "UPDATE_COMPLETE"] ->
  forall k, exists w',
    CloudFormation.upsertStack P (S (S (S (n + k)))) name script parameters (OptObject o) w
    = (Resolved (Some data), w')
    /\ env w' = s3
    /\ actions (trace w')
       = (actions (trace w) ++ [Call upload; Call describe; Call create]
          ++ concat (repeat [Call describe; SetTimeout 5000] n) ++ [Call describe])%list.
Proof.
  intros _ Hb Hne Hp Hct upload url describe create Hup Hprobe Hcreate Hbusy Hdone Hs Hin k.
  assert (Hok : isStackSuccess (StackStatus stack) = true).
  { simpl in Hin. destruct Hin as [H | [H | []]]; rewrite <- H; reflexivity. }
  assert (Hbt : truthyStr (Some bucket) = true).
  { simpl. destruct (bucket =? "") eqn:E; [| reflexivity].
    apply String.eqb_eq in E. contradiction. }
  set (w0 := {| env := s0;
                trace := trace w ++ [Call upload;
                                     LogInfo [LStr "Successfully uploaded to s3://";
                                              LStr (bucket ++ "/" ++ prefix ++ script)]] |}).
  set (w2 := {| env := s2; trace := trace w0 ++ [Call describe; Call create] |}).
  destruct (pollStack_until_complete P
              (setDisableRollback (urlRequest name url parameters) (Some true))
              w2 n data stack s3 Hbusy Hdone Hs Hok k) as [w' [Hrun [He Ha]]].
  exists w'. split; [| split; [exact He |]].
  - rewrite <- Hrun. replace (S (n + k)) with (n + S k) by lia.
    cbn -[CloudFormation.reconcile truthyStr transformMarker S3.putS3Object normalizeOptions
          CloudFormation.upsertStack].
    cbn [CloudFormation.upsertStack normalizeOptions].
    rewrite Hct, Hb, Hp, Hbt. cbn [interpolate].
    unfold S3.putS3Object. fold upload.
    rewrite (perform_handle P upload w (inr uploaded) s0 Hup).
    unfold emit. cbn [env trace up_Bucket up_Key].
    rewrite <- app_assoc. cbn [app]. fold w0.
    cbn [CloudFormation.upsertStack normalizeOptions containsTransforms s3Bucket truthyStr].
    unfold CloudFormation.reconcile. fold url.
    assert (Hurl : (substring 0 10 url =? "https://s3") = true) by reflexivity.
    rewrite Hurl. fold describe.
    rewrite (perform_handle P describe w0 (inl probeError) s1 Hprobe).
    unfold CloudFormation.createStack.
    match goal with |- context [perform P ?c ?w1] =>
      rewrite (perform_handle P c w1 None s2 Hcreate) end.
    cbn [env trace]. rewrite <- app_assoc. reflexivity.
  - rewrite Ha. unfold w2, w0. cbn [trace]. rewrite !actions_app, <- !app_assoc. reflexivity.
Qed.

Lemma upsertStack_staged_creates_from_url_witness :
  let notFound := {| name := "ValidationError";
                     message := "Stack with id app-stack does not exist" |} in
  let complete := Scenario.stackIn "CREATE_COMPLETE" [] in
  let url := "https://s3.amazonaws.com/artifacts/templates/template.json" in
  exists w',
    CloudFormation.upsertStack Script.provider 3 "app-stack" "template.json" (Some [])
      Scenario.stagedOptions
      (Script.start Scenario.templates
         [ Script.Uploaded (inr {| Location := url |});
           Script.Described (inl notFound); Script.Ack None;
           Script.Described (inr complete) ])
    = (Resolved (Some complete), w')
    /\ actions (trace w')
       = [ Call (S3Upload {| up_Bucket := "artifacts"; up_Key := "templates/template.json";
                             up_Body := "template.json" |});
           Call (CfDescribeStacks "app-stack");
           Call (CfCreateStack
                   (setDisableRollback (urlRequest "app-stack" url (Some [])) (Some true)));
           Call (CfDescribeStacks "app-stack") ].
Proof.
  intros notFound complete url.
  unshelve epose proof
    (upsertStack_staged_creates_from_url Script.provider "app-stack" "template.json"
       (Some [])
       {| review := None; s3Bucket := Some "artifacts"; s3Prefix := Some "templates/";
          containsTransforms := Some false |}
       (Script.start Scenario.templates
         [ Script.Uploaded (inr {| Location := url |});
                          Script.Described (inl notFound); Script.Ack None;
                          Script.Described (inr complete) ])
       "artifacts" "templates/" {| Location := url |} notFound
       {| Script.replies := [ Script.Described (inl notFound); Script.Ack None;
                              Script.Described (inr complete) ];
          Script.files := Scenario.templates; Script.clock := 1700000000000 |}
       {| Script.replies := [ Script.Ack None; Script.Described (inr complete) ];
          Script.files := Scenario.templates; Script.clock := 1700000000000 |}
       {| Script.replies := [ Script.Described (inr complete) ];
          Script.files := Scenario.templates; Script.clock := 1700000000000 |}
       {| Script.replies := []; Script.files := Scenario.templates; Script.clock := 1700000000000 |}
       0 complete
       {| stk_StackName := "app-stack"; StackStatus := "CREATE_COMPLETE"; Outputs := [] |}
       "{}"
       eq_refl eq_refl _ eq_refl eq_refl eq_refl eq_refl eq_refl _ eq_refl eq_refl _ 0) as H.
  - discriminate.
  - intros i Hi. lia.
  - simpl. auto.
  - destruct H as [w' [Hrun [_ Ha]]]. exists w'. split; [exact Hrun | exact Ha].
Defined.

(** *** describeOutput *)

(** X26.  describeOutput sends one describeStacks request.  A refusal rejects
    with the provider's error; an answer that lists no stack rejects with a
    TypeError (the outputs of nothing are read) rather than resolving empty;
    otherwise the call resolves with the outputs of the first stack listed,
    each key holding the value of the last output that carries it. *)
Theorem describeOutput_outcomes
  {St : Type} (P : Provider St) (typeErrorText name : string) (w : world St) (s : St) :
  let w1 := {| env := s; trace := trace w ++ [Call (CfDescribeStacks name)] |} in
  (forall err,
     handle P (CfDescribeStacks name) (env w) = (inl err, s) ->
     CloudFormation.describeOutput P typeErrorText name w = (Rejected (RError err), w1))
  /\ (forall data,
        handle P (CfDescribeStacks name) (env w) = (inr data, s) ->
        Stacks data = [] ->
        CloudFormation.describeOutput P typeErrorText name w
        = (Rejected (RError {| name := "TypeError"; message := typeErrorText |}), w1))
  /\ (forall data stack others,
        handle P (CfDescribeStacks name) (env w) = (inr data, s) ->
        Stacks data = stack :: others ->
        exists outputs,
          CloudFormation.describeOutput P typeErrorText name w = (Resolved outputs, w1)
          /\ forall k,
               outputs k
               = option_map OutputValue
                   (find (fun o => (k =? OutputKey o) && negb (OutputKey o =? "__proto__"))
                         (rev (Outputs stack)))).
Proof.
  intros w1. unfold CloudFormation.describeOutput, CloudFormation.describeStack.
  split; [| split].
  - intros err Hd. rewrite (perform_handle P _ _ _ _ Hd). reflexivity.
  - intros data Hd He. rewrite (perform_handle P _ _ _ _ Hd), He. reflexivity.
  - intros data stack others Hd He. rewrite (perform_handle P _ _ _ _ Hd), He.
    eexists. split; [reflexivity |]. intros k. apply extractOutput_find.
Qed.

Lemma describeOutput_outcomes_witness :
  let outs := [ {| OutputKey := "ApiUrl"; OutputValue := "https://old" |};
                {| OutputKey := "ApiUrl"; OutputValue := "https://new" |} ] in
  exists outputs,
    fst (CloudFormation.describeOutput Script.provider "Cannot read properties of undefined"
           "app-stack"
           (Script.start [] [Script.Described (inr (Scenario.stackIn "UPDATE_COMPLETE" outs))]))
    = Resolved outputs
    /\ outputs "ApiUrl" = Some "https://new".
Proof.
  intros outs.
  destruct (proj2 (proj2 (describeOutput_outcomes Script.provider
                            "Cannot read properties of undefined" "app-stack"
                            (Script.start [] [Script.Described
                                                (inr (Scenario.stackIn "UPDATE_COMPLETE" outs))])
                            {| Script.replies := []; Script.files := [];
                               Script.clock := 1700000000000 |}))
              (Scenario.stackIn "UPDATE_COMPLETE" outs)
              {| stk_StackName := "app-stack"; StackStatus := "UPDATE_COMPLETE";
                 Outputs := outs |}
              [] eq_refl eq_refl) as [outputs [Hrun Hk]].
  exists outputs. split; [rewrite Hrun; reflexivity | rewrite Hk; reflexivity].
Defined.

(** *** The two copies of deleteStack *)

Lemma filter_agree {A : Type} (f g : A -> bool) (l : list A) :
  forallb (fun x => Bool.eqb (f x) (g x)) l = true -> filter f l = filter g l.
Proof.
  induction l as [| x l IH]; simpl; [reflexivity |].
  intros H. apply andb_true_iff in H. destruct H as [Hx Hl].
  apply eqb_prop in Hx. rewrite Hx, (IH Hl). reflexivity.
Qed.

(** X27.  The two copies of deleteStack are the same function as long as they
    agree on which outputs name a bucket (no output key contains Bucket
    elsewhere than at its end) and every lookup error of describeStacks
    mentions "does not exist" somewhere after its first character. *)
Theorem deleteStack_copies_agree
  {St : Type} (P : Provider St) (fuel : nat) (name : string) (w : world St) :
  (forall s err s',
     handle P (CfDescribeStacks name) s = (inl err, s') ->
     (0 < indexOf (message err) "does not exist")%Z) ->
  (forall data s stack,
     handle P (CfDescribeStacks name) (env w) = (inr data, s) ->
     nth_error (Stacks data) 0 = Some stack ->
     forallb (fun o => Bool.eqb (endsWith (OutputKey o) "Bucket")
                                (0 <=? indexOf (OutputKey o) "Bucket")%Z)
             (Outputs stack) = true) ->
  SrcCloudFormation.deleteStack P fuel name w = CloudFormation.deleteStack P fuel name w.
Proof.
  intros Herr Hkeys.
  unfold SrcCloudFormation.deleteStack, CloudFormation.deleteStack, perform.
  destruct (handle P (CfDescribeStacks name) (env w)) as [r s] eqn:Hd.
  destruct r as [err | data]; [reflexivity |].
  destruct (nth_error (Stacks data) 0) as [stack |] eqn:Hs; [| reflexivity].
  assert (Hops : SrcCloudFormation.s3Operations P (Outputs stack)
                 = CloudFormation.s3Operations P (Outputs stack)).
  { unfold SrcCloudFormation.s3Operations, CloudFormation.s3Operations.
    rewrite (filter_agree _ _ _ (Hkeys data s stack eq_refl Hs)). reflexivity. }
  rewrite Hops.
  destruct (promiseAll (CloudFormation.s3Operations P (Outputs stack)) _) as [e w1].
  destruct e; try reflexivity.
  destruct (handle P (CfDeleteStack (stackNameParams name)) (env w1)) as [x s2].
  destruct x; [reflexivity |].
  apply (pollStack_copies_equal P (stackNameParams name) Herr).
Qed.

Lemma deleteStack_copies_agree_witness :
  let run := CloudFormation.deleteStack Teardown.provider 3 "app-stack" (Teardown.start 2) in
  SrcCloudFormation.deleteStack Teardown.provider 3 "app-stack" (Teardown.start 2) = run
  /\ fst run = Resolved None
  /\ actions (trace (snd run))
     = [ Call (CfDescribeStacks "app-stack");
         Call (S3GetBucketVersioning "app-logs");
         Call (S3ListObjectsV2 "app-logs" None);
         Call (CfDeleteStack (stackNameParams "app-stack"));
         Call (CfDescribeStacks "app-stack");
         SetTimeout 5000;
         Call (CfDescribeStacks "app-stack") ].
Proof.
  intros run. split; [| split; reflexivity].
  apply (deleteStack_copies_agree Teardown.provider 3 "app-stack" (Teardown.start 2)).
  - intros s err s' H. destruct s as [| k]; simpl in H; [| discriminate].
    injection H as <- _. reflexivity.
  - intros data s stack H Hs. simpl in H. injection H as <- _.
    simpl in Hs. injection Hs as <-. reflexivity.
Defined.
